(** * Token lifecycle and access middleware of jwt-rbac-cors-app

    A shallow embedding of package [auth] (the JWT service and the HTTP
    middleware built on it) together with the slices of the Go standard
    library and of [github.com/golang-jwt/jwt/v5] that the package calls,
    and of the code around it: the handlers and routes that use the
    guards ([handlers], [server]), the loading of the configuration
    ([config]), the validators of a registration ([validator]) and the
    password helpers that do not hash ([crypto]).

    Conventions.
    - A Go package is a Rocq [Module] of the same name, so that
      [time.Now], [strings.Split], [http.Error], [jwt.NewNumericDate] read
      as in the source.
    - The wall clock is the only ambient state the package reads.  It is
      threaded explicitly: a computation of type [M A] consumes clock
      readings, one per call of [time.Now].
    - A Go [(value, error)] pair is a [result]; where a call can panic,
      its [outcome] says whether it returned.
    - The wire codec of the JWT library (base64url over JSON) and the MAC
      are outside the repository.  They enter as an interface
      ([jwt.Codec]) with its contract ([jwt.CodecLaws]); a reference
      implementation of that interface is given so that every definition
      can be run. *)

From stdpp Require Import base strings list gmap countable pretty.
From Stdlib Require Import Ascii ZArith Lia.

Local Open Scope Z_scope.

(* ================================================================== *)
(** ** Package [errors] *)

Module errors.

(** Go error values.  [Var] is a package-level error variable (a
    sentinel, compared by identity), [New] a fresh error carrying only
    text, [Wrap] is [fmt.Errorf] with one [%w] verb, [Join] an error
    that unwraps to two others. *)
Inductive error : Type :=
| Var (name : string)
| New (text : string)
| Wrap (text : string) (err : error)
| Join (err1 err2 : error).

(** [errors.Is err target] for a sentinel [target]. *)
Fixpoint Is (err : error) (target : string) : bool :=
  match err with
  | Var name => String.eqb name target
  | New _ => false
  | Wrap _ err' => Is err' target
  | Join err1 err2 => Is err1 target || Is err2 target
  end.

End errors.

(** What a Go call declared to return [(A, error)] returns. *)
Inductive result (A : Type) : Type :=
| Ok (a : A)
| Err (err : errors.error).

Arguments Ok {A} a.
Arguments Err {A} err.

(** A call that may panic instead of returning. *)
Inductive outcome (A : Type) : Type :=
| Returns (a : A)
| Panics (reason : string).

Arguments Returns {A} a.
Arguments Panics {A} reason.

(* ================================================================== *)
(** ** The wall clock *)

(** Instants and durations are counted in nanoseconds, instants from the
    Unix epoch.  A [Clock] is the sequence of readings that the next,
    second-next, ... call of [time.Now] will return. *)
Definition Clock : Type := nat → Z.

Definition M (A : Type) : Type := Clock → A * Clock.

#[global] Instance M_ret : MRet M := λ A a w, (a, w).
#[global] Instance M_bind : MBind M :=
  λ A B f m w, let '(a, w') := m w in f a w'.

(** The clock once its next reading has been taken. *)
Definition tail (w : Clock) : Clock := λ n, w (S n).

(** The clock that shows [t] at every reading: the whole call happens at
    the single instant [t]. *)
Definition frozen (t : Z) : Clock := λ _, t.

(** Run a computation on a clock and keep its value. *)
Definition run {A} (m : M A) (w : Clock) : A := fst (m w).

Module time.

Definition Time : Type := Z.
Definition Duration : Type := Z.

Definition Nanosecond : Duration := 1.
Definition Second : Duration := 1000000000 * Nanosecond.
Definition Minute : Duration := 60 * Second.
Definition Hour : Duration := 60 * Minute.

Definition minDuration : Duration := - 2 ^ 63.
Definition maxDuration : Duration := 2 ^ 63 - 1.

Definition Now : M Time := λ w, (w 0%nat, tail w).

Definition Add (t : Time) (d : Duration) : Time := t + d.

(** [t.Sub(u)]: the difference, saturated to the range of int64. *)
Definition Sub (t u : Time) : Duration :=
  if t - u <? minDuration then minDuration
  else if maxDuration <? t - u then maxDuration
  else t - u.

Definition Since (t : Time) : M Duration :=
  now ← Now; mret (Sub now t).

Definition Before (t u : Time) : bool := t <? u.

(** [t.Truncate(d)]: [t] rounded down to a multiple of [d]; [t] itself
    when [d <= 0]. *)
Definition Truncate (t : Time) (d : Duration) : Time :=
  if d <=? 0 then t else t - t mod d.

End time.

(* ================================================================== *)
(** ** Package [unicode] *)

Module unicode.

Definition bytes (codes : list nat) : string :=
  String.string_of_list_ascii (map ascii_of_nat codes).

(** The UTF-8 encodings of the runes for which [unicode.IsSpace] holds:
    the six ASCII ones, U+0085, U+00A0, U+1680, U+2000 to U+200A,
    U+2028, U+2029, U+202F, U+205F and U+3000. *)
Definition spaces : list string :=
  map bytes
    [ [9]; [10]; [11]; [12]; [13]; [32];
      [194; 133]; [194; 160]; [225; 154; 128];
      [226; 128; 128]; [226; 128; 129]; [226; 128; 130]; [226; 128; 131];
      [226; 128; 132]; [226; 128; 133]; [226; 128; 134]; [226; 128; 135];
      [226; 128; 136]; [226; 128; 137]; [226; 128; 138];
      [226; 128; 168]; [226; 128; 169]; [226; 128; 175];
      [226; 129; 159]; [227; 128; 128] ]%nat.

End unicode.

(* ================================================================== *)
(** ** Package [strings] *)

Module strings.

(** [strings.Split(s, sep)] for a separator of one byte, which is what
    every call site passes.  [n] occurrences of [sep] give [n + 1]
    parts; the empty string gives one empty part. *)
Fixpoint Split (s : string) (sep : ascii) : list string :=
  match s with
  | EmptyString => [EmptyString]
  | String c s' =>
      if Ascii.eqb c sep then EmptyString :: Split s' sep
      else match Split s' sep with
           | p :: ps => String c p :: ps
           | [] => [String c EmptyString]
           end
  end.

(** [strings.Join(elems, sep)]. *)
Fixpoint Join (elems : list string) (sep : string) : string :=
  match elems with
  | [] => EmptyString
  | [e] => e
  | e :: rest => e +:+ sep +:+ Join rest sep
  end.

(** [s] without its prefix [p], when it has it. *)
Fixpoint cut (p s : string) : option string :=
  match p, s with
  | EmptyString, _ => Some s
  | String a p', String b s' => if Ascii.eqb a b then cut p' s' else None
  | String _ _, EmptyString => None
  end.

(** [s] without the one of [prefixes] it starts with. *)
Fixpoint cutAny (prefixes : list string) (s : string) : option string :=
  match prefixes with
  | [] => None
  | p :: rest =>
      match cut p s with
      | Some s' => Some s'
      | None => cutAny rest s
      end
  end.

(** Cut as long as one of [prefixes] starts the text; every cut
    shortens it, so [fuel] of its length is enough. *)
Fixpoint cutAll (fuel : nat) (prefixes : list string) (s : string) : string :=
  match fuel with
  | O => s
  | S fuel' =>
      match cutAny prefixes s with
      | Some s' => cutAll fuel' prefixes s'
      | None => s
      end
  end.

(** [strings.TrimLeftFunc(s, unicode.IsSpace)]: the decoder yields a
    space exactly where the text starts with the encoding of one. *)
Definition trimLeftSpace (s : string) : string :=
  cutAll (String.length s) unicode.spaces s.

(** [strings.TrimRightFunc(s, unicode.IsSpace)]: the same from the
    end. *)
Definition trimRightSpace (s : string) : string :=
  String.rev (cutAll (String.length s) (map String.rev unicode.spaces)
                     (String.rev s)).

(** [strings.TrimSpace(s)]. *)
Definition TrimSpace (s : string) : string := trimRightSpace (trimLeftSpace s).

End strings.

(** Is the byte [c] between [lo] and [hi], both included. *)
Definition in_range (lo hi c : ascii) : bool :=
  ((N_of_ascii lo <=? N_of_ascii c) && (N_of_ascii c <=? N_of_ascii hi))%N.

(* ================================================================== *)
(** ** Package [strconv]: parsing *)

Module strconv.

(** [strconv.Itoa(i)]: the decimal numeral, with a minus sign for a
    negative number. *)
Definition Itoa (i : Z) : string := pretty i.

Definition ErrSyntax : string := "strconv.ErrSyntax".
Definition ErrRange : string := "strconv.ErrRange".

(** A [*NumError]: the function that failed, its input, and the sentinel
    it wraps. *)
Record NumError : Type := { Func : string; Num : string; Err : string }.

Definition syntaxError (fn str : string) : NumError :=
  {| Func := fn; Num := str; Err := ErrSyntax |}.

Definition rangeError (fn str : string) : NumError :=
  {| Func := fn; Num := str; Err := ErrRange |}.

(** [strconv.Quote], which the text of a [NumError] shows its input
    with. *)
Class Quoter : Type := { Quote : string → string }.

(** [e.Error()]. *)
Definition Error `{Quoter} (e : NumError) : string :=
  "strconv." +:+ Func e +:+ ": parsing " +:+ Quote (Num e) +:+ ": "
  +:+ (if String.eqb (Err e) ErrSyntax then "invalid syntax"
       else "value out of range").

Definition byte (c : ascii) : Z := Z.of_N (N_of_ascii c).

Definition maxUint64 : Z := 2 ^ 64 - 1.

(** The loop of the fast path of [Atoi]: [ch -= '0'] is a subtraction of
    bytes; [None] is the syntax error. *)
Fixpoint atoiLoop (s : string) (n : Z) : option Z :=
  match s with
  | EmptyString => Some n
  | String c s' =>
      let ch := (byte c - byte "0") mod 256 in
      if 9 <? ch then None else atoiLoop s' (n * 10 + ch)
  end.

(** What a parse of an unsigned number ends with. *)
Inductive parsed : Type :=
| Value (n : Z)
| Syntax
| Range.

(** The loop of [ParseUint(s, 10, 64)]: a letter is a digit of a base
    above ten, hence a syntax error like any other byte that is no
    decimal digit; the overflow of the [uint64] is met where it
    happens. *)
Fixpoint parseUintLoop (s : string) (n : Z) : parsed :=
  match s with
  | EmptyString => Value n
  | String c s' =>
      if negb (in_range "0" "9" c) then Syntax
      else
        let d := byte c - byte "0" in
        let cutoff := maxUint64 / 10 + 1 in
        if cutoff <=? n then Range
        else
          let n := n * 10 in
          let n1 := (n + d) mod 2 ^ 64 in
          if (n1 <? n) || (maxUint64 <? n1) then Range
          else parseUintLoop s' n1
  end.

Definition ParseUint (s : string) : parsed :=
  if String.eqb s EmptyString then Syntax else parseUintLoop s 0.

(** The leading sign picked off: was it a minus, and the rest. *)
Definition cutSign (s : string) : bool * string :=
  match s with
  | String "+" s' => (false, s')
  | String "-" s' => (true, s')
  | _ => (false, s)
  end.

(** [ParseInt(s, 10, 0)] on a machine whose [int] has 64 bits: the
    value and the sentinel of the error, if any. *)
Definition ParseInt (s : string) : Z * option string :=
  if String.eqb s EmptyString then (0, Some ErrSyntax)
  else
    let '(neg, digits) := cutSign s in
    match ParseUint digits with
    | Syntax => (0, Some ErrSyntax)
    | parsed =>
        let un := match parsed with Value n => n | _ => maxUint64 end in
        let cutoff := 2 ^ 63 in
        if negb neg && (cutoff <=? un) then (cutoff - 1, Some ErrRange)
        else if neg && (cutoff <? un) then (- cutoff, Some ErrRange)
        else (if neg then - un else un, None)
    end.

(** [strconv.Atoi(s)]: the fast path for the short inputs, [ParseInt]
    for the others; the errors name [Atoi] and the whole input. *)
Definition Atoi (s : string) : Z * option NumError :=
  let sLen := String.length s in
  if (0 <? sLen)%nat && (sLen <? 19)%nat then
    let '(neg, digits) := cutSign s in
    if (String.length digits <? 1)%nat then (0, Some (syntaxError "Atoi" s))
    else
      match atoiLoop digits 0 with
      | None => (0, Some (syntaxError "Atoi" s))
      | Some n => (if neg then - n else n, None)
      end
  else
    match ParseInt s with
    | (i64, Some sentinel) =>
        (i64, Some {| Func := "Atoi"; Num := s; Err := sentinel |})
    | (i64, None) => (i64, None)
    end.

End strconv.

(* ================================================================== *)
(** ** Package [net/textproto] *)

Module textproto.

(** The bytes a header field name may be made of. *)
Definition validHeaderFieldByte (c : ascii) : bool :=
  in_range "a" "z" c || in_range "A" "Z" c || in_range "0" "9" c
  || existsb (Ascii.eqb c) (String.list_ascii_of_string "!#$%&'*+-.^_`|~").

Definition toUpper (c : ascii) : ascii :=
  if in_range "a" "z" c then ascii_of_N (N_of_ascii c - 32) else c.

Definition toLower (c : ascii) : ascii :=
  if in_range "A" "Z" c then ascii_of_N (N_of_ascii c + 32) else c.

(** The loop of the canonicalisation: upper case at the start and after
    a hyphen, lower case elsewhere. *)
Fixpoint canonical (upper : bool) (a : string) : string :=
  match a with
  | EmptyString => EmptyString
  | String c rest =>
      let c := if upper then toUpper c else toLower c in
      String c (canonical (Ascii.eqb c "-") rest)
  end.

(** [textproto.CanonicalMIMEHeaderKey(s)]: a string with a byte that is
    no field byte is returned as it is. *)
Definition CanonicalMIMEHeaderKey (s : string) : string :=
  if forallb validHeaderFieldByte (String.list_ascii_of_string s)
  then canonical true s
  else s.

End textproto.

(* ================================================================== *)
(** ** Package [context] *)

Module context.

(** A context key is compared with [==] on interface values: by dynamic
    type, then by value. *)
Record Key : Type := { key_type : string; key_value : string }.

#[global] Instance Key_eq_dec : EqDecision Key.
Proof. solve_decision. Defined.

(** The values of type [any] that travel through a request context. *)
Inductive any : Type :=
| any_nil
| any_int (n : Z)
| any_string (s : string)
| any_strings (l : list string)
| any_other (type_name : string).

(** A context is the chain of [WithValue] bindings, innermost first. *)
Definition Context : Type := list (Key * any).

Definition Background : Context := [].

Definition WithValue (parent : Context) (key : Key) (val : any) : Context :=
  (key, val) :: parent.

Fixpoint Value (ctx : Context) (key : Key) : any :=
  match ctx with
  | [] => any_nil
  | (k, v) :: parent => if decide (k = key) then v else Value parent key
  end.

(** Type assertions [v.(int)], [v.(string)], [v.([]string)] in their
    comma-ok form. *)
Definition assert_int (v : any) : Z * bool :=
  match v with any_int n => (n, true) | _ => (0, false) end.

Definition assert_string (v : any) : string * bool :=
  match v with any_string s => (s, true) | _ => (EmptyString, false) end.

Definition assert_strings (v : any) : list string * bool :=
  match v with any_strings l => (l, true) | _ => ([], false) end.

End context.

(* ================================================================== *)
(** ** Package [net/http] *)

Module http.

Definition StatusUnauthorized : Z := 401.
Definition StatusForbidden : Z := 403.
Definition StatusInternalServerError : Z := 500.

Definition Header : Type := gmap string (list string).

(** [h.Get(key)]: the first value stored under [key], the empty string
    when there is none.  The key used by the package is already in
    canonical form. *)
Definition Get (h : Header) (key : string) : string :=
  match h !! key with
  | Some (v :: _) => v
  | _ => EmptyString
  end.

(** [h.Set(key, value)] ([Set] is a keyword here): the values under the
    canonical form of [key] are replaced by the single [value]. *)
Definition HeaderSet (h : Header) (key value : string) : Header :=
  <[textproto.CanonicalMIMEHeaderKey key := [value]]> h.

Definition StatusOK : Z := 200.
Definition StatusNotFound : Z := 404.
Definition StatusMethodNotAllowed : Z := 405.

Definition MethodGet : string := "GET".
Definition MethodPost : string := "POST".

Record Request : Type := {
  Method : string;
  Path : string;
  header : Header;
  Body : string;
  ctx : context.Context
}.

Definition Context (r : Request) : context.Context := ctx r.

(** [r.WithContext(ctx)]: a copy of [r] with its context replaced. *)
Definition WithContext (r : Request) (c : context.Context) : Request :=
  {| Method := Method r; Path := Path r; header := header r;
     Body := Body r; ctx := c |}.

(** The request after its header map has been updated in place. *)
Definition WithHeader (r : Request) (h : Header) : Request :=
  {| Method := Method r; Path := Path r; header := h;
     Body := Body r; ctx := ctx r |}.

(** A [ResponseWriter] is modelled by the calls it has received, oldest
    first. *)
Inductive Call : Type :=
| SetHeader (key value : string)
| WriteHeader (code : Z)
| Write (data : string).

Definition ResponseWriter : Type := list Call.

Definition newline : string := String (ascii_of_nat 10) EmptyString.

(** [http.Error(w, error, code)]. *)
Definition Error (w : ResponseWriter) (error : string) (code : Z)
  : ResponseWriter :=
  w ++ [ SetHeader "Content-Type" "text/plain; charset=utf-8";
         SetHeader "X-Content-Type-Options" "nosniff";
         WriteHeader code;
         Write (error +:+ newline) ].

Definition HandlerFunc : Type := ResponseWriter → Request → M ResponseWriter.

End http.

(* ================================================================== *)
(** ** Package [github.com/golang-jwt/jwt/v5] *)

Module jwt.

(** The signing methods the library registers. *)
Inductive SigningMethod : Type :=
| SigningMethodHS256 | SigningMethodHS384 | SigningMethodHS512
| SigningMethodRS256 | SigningMethodRS384 | SigningMethodRS512
| SigningMethodPS256 | SigningMethodPS384 | SigningMethodPS512
| SigningMethodES256 | SigningMethodES384 | SigningMethodES512
| SigningMethodEdDSA
| SigningMethodNone.

#[global] Instance SigningMethod_eq_dec : EqDecision SigningMethod.
Proof. solve_decision. Defined.

Definition Alg (m : SigningMethod) : string :=
  match m with
  | SigningMethodHS256 => "HS256" | SigningMethodHS384 => "HS384"
  | SigningMethodHS512 => "HS512"
  | SigningMethodRS256 => "RS256" | SigningMethodRS384 => "RS384"
  | SigningMethodRS512 => "RS512"
  | SigningMethodPS256 => "PS256" | SigningMethodPS384 => "PS384"
  | SigningMethodPS512 => "PS512"
  | SigningMethodES256 => "ES256" | SigningMethodES384 => "ES384"
  | SigningMethodES512 => "ES512"
  | SigningMethodEdDSA => "EdDSA"
  | SigningMethodNone => "none"
  end.

(** The type assertion [method.( *jwt.SigningMethodHMAC)]. *)
Definition isSigningMethodHMAC (m : SigningMethod) : bool :=
  match m with
  | SigningMethodHS256 | SigningMethodHS384 | SigningMethodHS512 => true
  | _ => false
  end.

(** Sentinel errors. *)
Definition ErrInvalidKeyType : string := "jwt.ErrInvalidKeyType".
Definition ErrTokenMalformed : string := "jwt.ErrTokenMalformed".
Definition ErrTokenUnverifiable : string := "jwt.ErrTokenUnverifiable".
Definition ErrTokenSignatureInvalid : string := "jwt.ErrTokenSignatureInvalid".
Definition ErrTokenRequiredClaimMissing : string :=
  "jwt.ErrTokenRequiredClaimMissing".
Definition ErrTokenExpired : string := "jwt.ErrTokenExpired".
Definition ErrTokenUsedBeforeIssued : string := "jwt.ErrTokenUsedBeforeIssued".
Definition ErrTokenNotValidYet : string := "jwt.ErrTokenNotValidYet".
Definition ErrTokenInvalidClaims : string := "jwt.ErrTokenInvalidClaims".

(** [newError(message, err, more...)]: an error that is [err] and every
    error of [more]. *)
Definition newError (message : string) (err : errors.error)
    (more : list errors.error) : errors.error :=
  errors.Wrap message (fold_left errors.Join more err).

(** A numeric date is an instant at the precision [TimePrecision]. *)
Definition TimePrecision : time.Duration := time.Second.

Definition NumericDate : Type := time.Time.

Definition NewNumericDate (t : time.Time) : NumericDate :=
  time.Truncate t TimePrecision.

(** The registered claim set; a nil [*NumericDate] is [None]. *)
Record RegisteredClaims : Type := {
  Issuer : string;
  Subject : string;
  Audience : list string;
  ExpiresAt : option NumericDate;
  NotBefore : option NumericDate;
  IssuedAt : option NumericDate;
  ID : string
}.

#[global] Instance RegisteredClaims_eq_dec : EqDecision RegisteredClaims.
Proof. solve_decision. Defined.

(** The part of interface [jwt.Claims] that validation reads. *)
Class ClaimsInterface (C : Type) : Type := {
  GetExpirationTime : C → option NumericDate;
  GetIssuedAt : C → option NumericDate;
  GetNotBefore : C → option NumericDate
}.

#[global] Instance RegisteredClaims_claims : ClaimsInterface RegisteredClaims :=
  {| GetExpirationTime := ExpiresAt;
     GetIssuedAt := IssuedAt;
     GetNotBefore := NotBefore |}.

Record Token (C : Type) : Type := {
  Raw : string;
  Method : SigningMethod;
  Claims : C;
  Signature : string;
  Valid : bool
}.

Arguments Raw {C} _.
Arguments Method {C} _.
Arguments Claims {C} _.
Arguments Signature {C} _.
Arguments Valid {C} _.

Definition NewWithClaims {C} (method : SigningMethod) (claims : C) : Token C :=
  {| Raw := EmptyString; Method := method; Claims := claims;
     Signature := EmptyString; Valid := false |}.

(** The wire codec and the MAC, as the library provides them for claims
    of type [C].
    - [SigningString m c] is the encoded header for method [m], a dot,
      and the encoded claims [c].
    - [EncodeSegment] turns signature bytes into a token segment.
    - [ParseUnverified s] decodes the three segments of [s]: it yields
      the token (method, claims, decoded signature) and the text the
      signature was computed over, or the library's error.
    - [hmac m key text] is the MAC of [text] under [key] with the hash
      of method [m]. *)
Class Codec (C : Type) : Type := {
  SigningString : SigningMethod → C → string;
  EncodeSegment : string → string;
  ParseUnverified : string → result (Token C * string);
  hmac : SigningMethod → string → string → string
}.

(** The contract of the codec: what was serialised is parsed back, and
    a string that is not three segments separated by dots is malformed. *)
Class CodecLaws {C} (codec : Codec C) : Prop := {
  parse_signed : ∀ (m : SigningMethod) (c : C) (sig : string),
    let raw := SigningString m c +:+ "." +:+ EncodeSegment sig in
    ParseUnverified raw =
      Ok ({| Raw := raw; Method := m; Claims := c;
             Signature := sig; Valid := false |}, SigningString m c);
  parse_segments : ∀ tokenString : string,
    length (strings.Split tokenString ".") ≠ 3%nat →
    ∃ err, ParseUnverified tokenString = Err err
           ∧ errors.Is err ErrTokenMalformed = true
}.

Section WithCodec.
Context {C : Type} `{!ClaimsInterface C} `{!Codec C}.

(** [method.Sign(signingString, key)] with a key of type [[]byte]:
    the HMAC family computes the MAC, every other method refuses the
    key type. *)
Definition Sign (m : SigningMethod) (signingString key : string)
  : result string :=
  if isSigningMethodHMAC m then Ok (hmac m key signingString)
  else Err (errors.Var ErrInvalidKeyType).

(** [method.Verify(signingString, sig, key)] with a key of type
    [[]byte]; [None] is the nil error. *)
Definition Verify (m : SigningMethod) (signingString sig key : string)
  : option errors.error :=
  if isSigningMethodHMAC m then
    if String.eqb sig (hmac m key signingString) then None
    else Some (errors.Var ErrTokenSignatureInvalid)
  else Some (errors.Var ErrInvalidKeyType).

(** [token.SignedString(key)]. *)
Definition SignedString (token : Token C) (key : string) : result string :=
  let sstr := SigningString (Method token) (Claims token) in
  match Sign (Method token) sstr key with
  | Ok sig => Ok (sstr +:+ "." +:+ EncodeSegment sig)
  | Err err => Err err
  end.

(** The validator with default options. *)
Record Validator : Type := {
  leeway : time.Duration;
  requireExp : bool;
  verifyIat : bool
}.

Definition NewValidator : Validator :=
  {| leeway := 0; requireExp := false; verifyIat := false |}.

Definition errorIfFalse (value : bool) (err : string) : option errors.error :=
  if value then None else Some (errors.Var err).

Definition errorIfRequired (required : bool) (claim : string)
  : option errors.error :=
  if required
  then Some (newError (claim +:+ " claim is required")
                      (errors.Var ErrTokenRequiredClaimMissing) [])
  else None.

Definition verifyExpiresAt (v : Validator) (claims : C) (cmp : time.Time)
    (required : bool) : option errors.error :=
  match GetExpirationTime claims with
  | None => errorIfRequired required "exp"
  | Some exp =>
      errorIfFalse (time.Before cmp (time.Add exp (leeway v))) ErrTokenExpired
  end.

Definition verifyNotBefore (v : Validator) (claims : C) (cmp : time.Time)
    (required : bool) : option errors.error :=
  match GetNotBefore claims with
  | None => errorIfRequired required "nbf"
  | Some nbf =>
      errorIfFalse (negb (time.Before cmp (time.Add nbf (- leeway v))))
                   ErrTokenNotValidYet
  end.

Definition verifyIssuedAt (v : Validator) (claims : C) (cmp : time.Time)
    (required : bool) : option errors.error :=
  match GetIssuedAt claims with
  | None => errorIfRequired required "iat"
  | Some iat =>
      errorIfFalse (negb (time.Before cmp (time.Add iat (- leeway v))))
                   ErrTokenUsedBeforeIssued
  end.

(** [joinErrors(errs...)]; [None] when there is nothing to join. *)
Definition joinErrors (errs : list errors.error) : option errors.error :=
  match errs with
  | [] => None
  | e :: es => Some (fold_left errors.Join es e)
  end.

(** [v.Validate(claims)]: one clock reading, then the time checks, the
    failures of which are collected. *)
Definition Validate (v : Validator) (claims : C) : M (option errors.error) :=
  now ← time.Now;
  let errs := [] in
  let errs := errs ++ option_list (verifyExpiresAt v claims now (requireExp v)) in
  let errs := errs ++ option_list (verifyNotBefore v claims now false) in
  let errs := errs ++ (if verifyIat v
                       then option_list (verifyIssuedAt v claims now false)
                       else []) in
  mret (joinErrors errs).

(** [jwt.ParseWithClaims(tokenString, claims, keyFunc)] with the
    default parser: decode, look the key up, verify the signature,
    validate the claims. *)
Definition ParseWithClaims (tokenString : string)
    (keyFunc : Token C → result string) : M (result (Token C)) :=
  match ParseUnverified tokenString with
  | Err err => mret (Err err)
  | Ok (token, text) =>
      match keyFunc token with
      | Err err =>
          mret (Err (newError "error while executing keyfunc"
                              (errors.Var ErrTokenUnverifiable) [err]))
      | Ok key =>
          match Verify (Method token) text (Signature token) key with
          | Some err =>
              mret (Err (newError "" (errors.Var ErrTokenSignatureInvalid) [err]))
          | None =>
              verr ← Validate NewValidator (Claims token);
              match verr with
              | Some err =>
                  mret (Err (newError "" (errors.Var ErrTokenInvalidClaims) [err]))
              | None =>
                  mret (Ok {| Raw := Raw token; Method := Method token;
                              Claims := Claims token;
                              Signature := Signature token;
                              Valid := true |})
              end
          end
      end
  end.

End WithCodec.

End jwt.

(* ================================================================== *)
(** ** Package [models] *)

Module models.

(** [models.User]; an absent [LastLogin] is [None]. *)
Record User : Type := {
  ID : Z;
  Name : string;
  Email : string;
  PasswordHash : string;
  EmailVerified : bool;
  IsActive : bool;
  LastLogin : option time.Time;
  CreatedAt : time.Time;
  UpdatedAt : time.Time;
  Roles : list string
}.

(** [u.HasRole(role)]: the loop returns at the first role that is
    [role]. *)
Definition HasRole (u : User) (role : string) : bool :=
  (fix loop (roles : list string) : bool :=
     match roles with
     | [] => false
     | userRole :: rest => if String.eqb userRole role then true else loop rest
     end) (Roles u).

(** [UserRepository] reads the database; what the database answers to
    the lookup of an identifier is the repository's component. *)
Record UserRepository : Type := { GetByID : Z → result User }.

End models.

(* ================================================================== *)
(** ** Package [auth] *)

Module auth.

(** *** Context keys *)

Definition ContextKey (s : string) : context.Key :=
  {| context.key_type := "auth.ContextKey"; context.key_value := s |}.

Definition UserIDKey : context.Key := ContextKey "user_id".
Definition UserEmailKey : context.Key := ContextKey "user_email".
Definition UserRolesKey : context.Key := ContextKey "user_roles".

(** *** Claims *)

Record Claims : Type := {
  UserID : Z;
  Email : string;
  Roles : list string;
  RegisteredClaims : jwt.RegisteredClaims
}.

#[global] Instance Claims_eq_dec : EqDecision Claims.
Proof. solve_decision. Defined.

(** The methods promoted from the embedded [jwt.RegisteredClaims]. *)
#[global] Instance Claims_claims : jwt.ClaimsInterface Claims :=
  {| jwt.GetExpirationTime c := jwt.ExpiresAt (RegisteredClaims c);
     jwt.GetIssuedAt c := jwt.IssuedAt (RegisteredClaims c);
     jwt.GetNotBefore c := jwt.NotBefore (RegisteredClaims c) |}.

Record JWTService : Type := { secret : string }.

Definition NewJWTService (secret : string) : JWTService :=
  {| secret := secret |}.

Record Middleware : Type := { jwtService : JWTService }.

Definition NewMiddleware (jwtService : JWTService) : Middleware :=
  {| jwtService := jwtService |}.

Section WithCodec.
Context `{!jwt.Codec Claims}.

(** *** The token service *)

(** The clock is read once per [time.Now()] in the literal, in the
    order the fields are written. *)
Definition GenerateToken (j : JWTService) (user : models.User)
  : M (result string) :=
  expiresAt ← time.Now;
  issuedAt ← time.Now;
  notBefore ← time.Now;
  let claims :=
    {| UserID := models.ID user;
       Email := models.Email user;
       Roles := models.Roles user;
       RegisteredClaims :=
         {| jwt.ExpiresAt :=
              Some (jwt.NewNumericDate (time.Add expiresAt (24 * time.Hour)));
            jwt.IssuedAt := Some (jwt.NewNumericDate issuedAt);
            jwt.NotBefore := Some (jwt.NewNumericDate notBefore);
            jwt.Issuer := "goapp";
            jwt.Subject := "user_" +:+ pretty (models.ID user);
            jwt.Audience := [];
            jwt.ID := EmptyString |} |} in
  let token := jwt.NewWithClaims jwt.SigningMethodHS256 claims in
  match jwt.SignedString token (secret j) with
  | Err err => mret (Err (errors.Wrap "failed to sign token" err))
  | Ok tokenString => mret (Ok tokenString)
  end.

(** The key function handed to the parser. *)
Definition keyFunc (j : JWTService) (token : jwt.Token Claims)
  : result string :=
  if negb (jwt.isSigningMethodHMAC (jwt.Method token))
  then Err (errors.New ("unexpected signing method: "
                        +:+ jwt.Alg (jwt.Method token)))
  else Ok (secret j).

(** The assertion [token.Claims.( *Claims)] cannot fail here, the
    parser having been handed a [&Claims{}]; its error branch has no
    counterpart. *)
Definition ValidateToken (j : JWTService) (tokenString : string)
  : M (result Claims) :=
  parsed ← jwt.ParseWithClaims tokenString (keyFunc j);
  match parsed with
  | Err err => mret (Err (errors.Wrap "failed to parse token" err))
  | Ok token =>
      if negb (jwt.Valid token) then mret (Err (errors.New "invalid token"))
      else mret (Ok (jwt.Claims token))
  end.

(** [claims.IssuedAt.Time] dereferences the pointer before the clock
    is read: a token without [iat] makes the call panic. *)
Definition RefreshToken (j : JWTService) (oldToken : string)
  : M (outcome (result string)) :=
  validated ← ValidateToken j oldToken;
  match validated with
  | Err err =>
      mret (Returns (Err (errors.Wrap "cannot refresh invalid token" err)))
  | Ok claims =>
      match jwt.IssuedAt (RegisteredClaims claims) with
      | None => mret (Panics "nil pointer dereference")
      | Some issued =>
          age ← time.Since issued;
          if 7 * 24 * time.Hour <? age
          then mret (Returns (Err (errors.New "token too old to refresh")))
          else
            expiresAt ← time.Now;
            issuedAt ← time.Now;
            notBefore ← time.Now;
            let newClaims :=
              {| UserID := UserID claims;
                 Email := Email claims;
                 Roles := Roles claims;
                 RegisteredClaims :=
                   {| jwt.ExpiresAt :=
                        Some (jwt.NewNumericDate
                                (time.Add expiresAt (24 * time.Hour)));
                      jwt.IssuedAt := Some (jwt.NewNumericDate issuedAt);
                      jwt.NotBefore := Some (jwt.NewNumericDate notBefore);
                      jwt.Issuer := "auth-app";
                      jwt.Subject := jwt.Subject (RegisteredClaims claims);
                      jwt.Audience := [];
                      jwt.ID := EmptyString |} |} in
            let token := jwt.NewWithClaims jwt.SigningMethodHS256 newClaims in
            mret (Returns (jwt.SignedString token (secret j)))
      end
  end.

(** *** The middleware *)

Definition RequireAuth (m : Middleware) (next : http.HandlerFunc)
  : http.HandlerFunc :=
  λ w r,
    let authHeader := http.Get (http.header r) "Authorization" in
    if String.eqb authHeader EmptyString
    then mret (http.Error w "Authorization header required"
                          http.StatusUnauthorized)
    else
      let parts := strings.Split authHeader " " in
      if negb (length parts =? 2)%nat
         || negb (String.eqb (nth 0 parts EmptyString) "Bearer")
      then mret (http.Error w "Invalid authorization header format"
                            http.StatusUnauthorized)
      else
        let tokenString := nth 1 parts EmptyString in
        validated ← ValidateToken (jwtService m) tokenString;
        match validated with
        | Err err =>
            mret (http.Error w "Invalid or expired token"
                             http.StatusUnauthorized)
        | Ok claims =>
            let ctx := context.WithValue (http.Context r) UserIDKey
                         (context.any_int (UserID claims)) in
            let ctx := context.WithValue ctx UserEmailKey
                         (context.any_string (Email claims)) in
            let ctx := context.WithValue ctx UserRolesKey
                         (context.any_strings (Roles claims)) in
            next w (http.WithContext r ctx)
        end.

(** The loop of [RequireRole]: scan until the role is met. *)
Fixpoint hasRole (roles : list string) (role : string) : bool :=
  match roles with
  | [] => false
  | userRole :: rest =>
      if String.eqb userRole role then true else hasRole rest role
  end.

Definition RequireRole (m : Middleware) (role : string)
  : http.HandlerFunc → http.HandlerFunc :=
  λ next,
    RequireAuth m (λ w r,
      let rolesInterface := context.Value (http.Context r) UserRolesKey in
      let '(roles, ok) := context.assert_strings rolesInterface in
      if negb ok
      then mret (http.Error w "Unable to verify user roles"
                            http.StatusInternalServerError)
      else if negb (hasRole roles role)
      then mret (http.Error w "Insufficient permissions" http.StatusForbidden)
      else next w r).

(** The inner loop of [RequireAnyRole]: is [userRole] among the
    allowed ones. *)
Fixpoint isAllowed (userRole : string) (allowedRoles : list string) : bool :=
  match allowedRoles with
  | [] => false
  | allowedRole :: rest =>
      if String.eqb userRole allowedRole then true
      else isAllowed userRole rest
  end.

(** The outer loop: stop at the first role of the user that is
    allowed. *)
Fixpoint hasAnyRole (roles allowedRoles : list string) : bool :=
  match roles with
  | [] => false
  | userRole :: rest =>
      if isAllowed userRole allowedRoles then true
      else hasAnyRole rest allowedRoles
  end.

Definition RequireAnyRole (m : Middleware) (allowedRoles : list string)
  : http.HandlerFunc → http.HandlerFunc :=
  λ next,
    RequireAuth m (λ w r,
      let rolesInterface := context.Value (http.Context r) UserRolesKey in
      let '(roles, ok) := context.assert_strings rolesInterface in
      if negb ok
      then mret (http.Error w "Unable to verify user roles"
                            http.StatusInternalServerError)
      else if negb (hasAnyRole roles allowedRoles)
      then mret (http.Error w "Insufficient permissions" http.StatusForbidden)
      else next w r).

(** The header-based variant: the identity is written into the header
    map of the request, which [next] receives. *)
Definition RequireAuthLegacy (m : Middleware) (next : http.HandlerFunc)
  : http.HandlerFunc :=
  λ w r,
    let authHeader := http.Get (http.header r) "Authorization" in
    if String.eqb authHeader EmptyString
    then mret (http.Error w "Authorization header required"
                          http.StatusUnauthorized)
    else
      let bearerToken := strings.Split authHeader " " in
      if negb (length bearerToken =? 2)%nat
         || negb (String.eqb (nth 0 bearerToken EmptyString) "Bearer")
      then mret (http.Error w "Invalid authorization header format"
                            http.StatusUnauthorized)
      else
        validated ← ValidateToken (jwtService m) (nth 1 bearerToken EmptyString);
        match validated with
        | Err err =>
            mret (http.Error w "Invalid token" http.StatusUnauthorized)
        | Ok claims =>
            let h := http.HeaderSet (http.header r) "X-User-ID"
                       (strconv.Itoa (UserID claims)) in
            let h := http.HeaderSet h "X-User-Email" (Email claims) in
            let h := http.HeaderSet h "X-User-Roles"
                       (strings.Join (Roles claims) ",") in
            next w (http.WithHeader r h)
        end.

(** *** Accessors of the identity carried by a context *)

Definition GetUserIDFromContext (ctx : context.Context) : Z * bool :=
  context.assert_int (context.Value ctx UserIDKey).

Definition GetUserEmailFromContext (ctx : context.Context) : string * bool :=
  context.assert_string (context.Value ctx UserEmailKey).

Definition GetUserRolesFromContext (ctx : context.Context)
  : list string * bool :=
  context.assert_strings (context.Value ctx UserRolesKey).

End WithCodec.

End auth.

(* ================================================================== *)
(** ** Package [encoding/json], as far as responses need it *)

Module json.

(** [json.Marshal(v)] for the values [v] of a Go type, as the library
    computes it from the type and its field tags. *)
Class Marshaler (A : Type) : Type := { Marshal : A → string }.

(** [json.NewEncoder(w).Encode(v)]: one write of the encoding and a
    newline. *)
Definition Encode {A} `{!Marshaler A} (w : http.ResponseWriter) (v : A)
  : http.ResponseWriter :=
  w ++ [http.Write (Marshal v +:+ http.newline)].

End json.

(* ================================================================== *)
(** ** Package [database/sql] *)

Module sql.

Definition ErrNoRows : string := "sql.ErrNoRows".

(** [err == sql.ErrNoRows]: the comparison is by identity, a wrapped
    [ErrNoRows] is another error. *)
Definition isErrNoRows (err : errors.error) : bool :=
  match err with
  | errors.Var name => String.eqb name ErrNoRows
  | _ => false
  end.

(** A database handle, as far as the handlers count rows with it: what
    [db.QueryRow(query).Scan(&count)] yields for a query. *)
Record DB : Type := { QueryCount : string → result Z }.

End sql.

(* ================================================================== *)
(** ** Package [handlers]: the authentication handler *)

Module handlers.

(** The logger is left out.  The repository of users is what it answers
    to a lookup by identifier. *)
Record AuthHandler : Type := {
  userRepo : models.UserRepository;
  jwtService : auth.JWTService;
  middleware : auth.Middleware
}.

Definition NewAuthHandler (db : models.UserRepository) (jwtSecret : string)
  : AuthHandler :=
  let jwtService := auth.NewJWTService jwtSecret in
  {| userRepo := db;
     jwtService := jwtService;
     middleware := auth.NewMiddleware jwtService |}.

Section WithCodec.
Context `{!jwt.Codec auth.Claims}.
Context `{!json.Marshaler (gmap string string)} `{!json.Marshaler models.User}.

(** A panic of the token service leaves the handler without a return. *)
Definition RefreshToken (h : AuthHandler)
  : http.ResponseWriter → http.Request → M (outcome http.ResponseWriter) :=
  λ w r,
    if negb (String.eqb (http.Method r) http.MethodPost)
    then mret (Returns (http.Error w "Method not allowed"
                                   http.StatusMethodNotAllowed))
    else
      let authHeader := http.Get (http.header r) "Authorization" in
      if String.eqb authHeader EmptyString
      then mret (Returns (http.Error w "Authorization header required"
                                     http.StatusUnauthorized))
      else
        let parts := strings.Split authHeader " " in
        if negb (length parts =? 2)%nat
           || negb (String.eqb (nth 0 parts EmptyString) "Bearer")
        then mret (Returns (http.Error w "Invalid authorization header format"
                                       http.StatusUnauthorized))
        else
          refreshed ← auth.RefreshToken (jwtService h) (nth 1 parts EmptyString);
          match refreshed with
          | Panics reason => mret (Panics reason)
          | Returns (Err err) =>
              mret (Returns (http.Error w "Cannot refresh token"
                                        http.StatusUnauthorized))
          | Returns (Ok newToken) =>
              let response : gmap string string := {[ "token" := newToken ]} in
              let w := w ++ [http.SetHeader "Content-Type" "application/json"] in
              mret (Returns (json.Encode w response))
          end.

Definition GetProfile (h : AuthHandler) : http.HandlerFunc :=
  λ w r,
    if negb (String.eqb (http.Method r) http.MethodGet)
    then mret (http.Error w "Method not allowed" http.StatusMethodNotAllowed)
    else
      let '(userID, ok) := auth.GetUserIDFromContext (http.Context r) in
      if negb ok
      then mret (http.Error w "User context not found"
                            http.StatusInternalServerError)
      else
        match models.GetByID (userRepo h) userID with
        | Err err =>
            if sql.isErrNoRows err
            then mret (http.Error w "User not found" http.StatusNotFound)
            else mret (http.Error w "Internal server error"
                                  http.StatusInternalServerError)
        | Ok user =>
            let w := w ++ [http.SetHeader "Content-Type" "application/json"] in
            mret (json.Encode w user)
        end.

Definition RequireAuth (h : AuthHandler) (next : http.HandlerFunc)
  : http.HandlerFunc :=
  auth.RequireAuth (middleware h) next.

Definition RequireRole (h : AuthHandler) (role : string)
    (next : http.HandlerFunc) : http.HandlerFunc :=
  auth.RequireRole (middleware h) role next.

Definition RequireAnyRole (h : AuthHandler) (next : http.HandlerFunc)
    (roles : list string) : http.HandlerFunc :=
  auth.RequireAnyRole (middleware h) roles next.

End WithCodec.

(** *** The admin handler *)

Record AdminHandler : Type := { db : sql.DB }.

Definition NewAdminHandler (db : sql.DB) : AdminHandler := {| db := db |}.

(** A failed count is shown as zero. *)
Definition getTotalUsers (h : AdminHandler) : Z :=
  match sql.QueryCount (db h) "SELECT COUNT(*) FROM users" with
  | Err err => 0
  | Ok count => count
  end.

Definition getTotalProducts (h : AdminHandler) : Z :=
  match sql.QueryCount (db h) "SELECT COUNT(*) FROM products" with
  | Err err => 0
  | Ok count => count
  end.

(** The two maps of the admin response, key by key. *)
Record AdminInfo : Type := {
  total_users : Z;
  total_products : Z;
  system_status : string
}.

Record AdminData : Type := {
  message : string;
  user : string;
  roles : list string;
  admin_info : AdminInfo
}.

Section Admin.
Context `{!json.Marshaler AdminData}.

(** The roles are read without a look at the [ok] of the accessor. *)
Definition GetAdminData (h : AdminHandler) : http.HandlerFunc :=
  λ w r,
    if negb (String.eqb (http.Method r) http.MethodGet)
    then mret (http.Error w "Method not allowed" http.StatusMethodNotAllowed)
    else
      let '(userEmail, ok) := auth.GetUserEmailFromContext (http.Context r) in
      if negb ok
      then mret (http.Error w "User context not found"
                            http.StatusInternalServerError)
      else
        let '(userRoles, _) := auth.GetUserRolesFromContext (http.Context r) in
        let response :=
          {| message := "This is admin-only content!";
             user := userEmail;
             roles := userRoles;
             admin_info :=
               {| total_users := getTotalUsers h;
                  total_products := getTotalProducts h;
                  system_status := "operational" |} |} in
        let w := w ++ [http.SetHeader "Content-Type" "application/json"] in
        mret (json.Encode w response).

End Admin.

End handlers.

(* ================================================================== *)
(** ** Package [server] *)

Module server.

Definition corsMiddleware (next : http.HandlerFunc) : http.HandlerFunc :=
  λ w r,
    let w := w ++ [http.SetHeader "Access-Control-Allow-Origin" "*"] in
    let w := w ++ [http.SetHeader "Access-Control-Allow-Methods"
                                  "GET, POST, PUT, DELETE, OPTIONS"] in
    let w := w ++ [http.SetHeader "Access-Control-Allow-Headers"
                                  "Content-Type, Authorization"] in
    let w := w ++ [http.SetHeader "Access-Control-Max-Age" "3600"] in
    if String.eqb (http.Method r) "OPTIONS"
    then mret (w ++ [http.WriteHeader http.StatusOK])
    else next w r.

(** The double quote, for texts that contain it. *)
Definition dq : string := String (ascii_of_nat 34) EmptyString.

Definition healthBody : string :=
  "{" +:+ dq +:+ "status" +:+ dq +:+ ": " +:+ dq +:+ "healthy" +:+ dq +:+ ", "
      +:+ dq +:+ "message" +:+ dq +:+ ": " +:+ dq
      +:+ "Backend server is running" +:+ dq +:+ "}".

(** The write is taken to succeed; its failure is only logged. *)
Definition healthHandler : http.HandlerFunc :=
  λ w r,
    if negb (String.eqb (http.Method r) http.MethodGet)
    then mret (http.Error w "Method not allowed" http.StatusMethodNotAllowed)
    else
      let w := w ++ [http.SetHeader "Content-Type" "application/json"] in
      let w := w ++ [http.WriteHeader http.StatusOK] in
      mret (w ++ [http.Write healthBody]).

End server.

(* ================================================================== *)
(** ** Package [fmt], as far as errors are made with it *)

Module fmt.

(** [err.Error()] for the errors of this development: the text of a
    fresh error, the text and the wrapped error's text of a wrapping
    one.  A sentinel shows under its name. *)
Fixpoint message (err : errors.error) : string :=
  match err with
  | errors.Var name => name
  | errors.New text => text
  | errors.Wrap text err' => text +:+ ": " +:+ message err'
  | errors.Join err1 err2 => message err1 +:+ http.newline +:+ message err2
  end.

End fmt.

(* ================================================================== *)
(** ** Package [os]: the environment *)

Module os.

(** The variables that are set, with their values. *)
Definition Environ : Type := gmap string string.

(** [os.Getenv(key)]: the empty string for a variable that is not
    set. *)
Definition Getenv (env : Environ) (key : string) : string :=
  default EmptyString (env !! key).

End os.

(* ================================================================== *)
(** ** Package [config] *)

Module config.

Module DatabaseConfig.
Record t : Type := {
  Host : string;
  Port : Z;
  User : string;
  Password : string;
  DBName : string
}.
End DatabaseConfig.

Module ServerConfig.
Record t : Type := { Port : string }.
End ServerConfig.

Module JWTConfig.
Record t : Type := { Secret : string }.
End JWTConfig.

Record Config : Type := {
  Database : DatabaseConfig.t;
  Server : ServerConfig.t;
  JWT : JWTConfig.t
}.

Definition getEnv (env : os.Environ) (key defaultValue : string) : string :=
  let value := os.Getenv env key in
  if negb (String.eqb value EmptyString) then value else defaultValue.

(** [c.Validate()]; [None] is the nil error. *)
Definition Validate (c : Config) : option errors.error :=
  if String.eqb (DatabaseConfig.Password (Database c)) EmptyString
  then Some (errors.New "DB_PASSWORD is required")
  else if String.eqb (JWTConfig.Secret (JWT c)) EmptyString
  then Some (errors.New "JWT_SECRET is required")
  else None.

(** The errors are made with the verb [%v]: they carry the text of
    their cause without wrapping it. *)
Definition Load `{!strconv.Quoter} (env : os.Environ) : result Config :=
  let '(dbPort, err) := strconv.Atoi (getEnv env "DB_PORT" "5432") in
  match err with
  | Some err => Err (errors.New ("invalid DB_PORT: " +:+ strconv.Error err))
  | None =>
      let cfg :=
        {| Database :=
             {| DatabaseConfig.Host := getEnv env "DB_HOST" "localhost";
                DatabaseConfig.Port := dbPort;
                DatabaseConfig.User := getEnv env "DB_USER" "postgres";
                DatabaseConfig.Password := getEnv env "DB_PASSWORD" EmptyString;
                DatabaseConfig.DBName := getEnv env "DB_NAME" "auth_app" |};
           Server := {| ServerConfig.Port := getEnv env "SERVER_PORT" "8080" |};
           JWT := {| JWTConfig.Secret := getEnv env "JWT_SECRET" EmptyString |} |} in
      match Validate cfg with
      | Some err =>
          Err (errors.New ("configuration validation failed: "
                           +:+ fmt.message err))
      | None => Ok cfg
      end
  end.

End config.

(* ================================================================== *)
(** ** Package [crypto]: the helpers that do not hash *)

Module crypto.

Definition ValidatePasswordStrength (password : string) : option errors.error :=
  if (String.length password <? 8)%nat
  then Some (errors.New "password must be at least 8 characters long")
  else None.

Definition charset : string :=
  "abcdefghijklmnopqrstuvwxyzABCDEFGHIJKLMNOPQRSTUVWXYZ0123456789!@#$%^&*".

(** [charset[i]]. *)
Definition at_index (s : string) (i : nat) : ascii :=
  nth i (String.list_ascii_of_string s) Ascii.zero.

(** The slice has [length] bytes, the byte at [i] is set to
    [charset[i % len(charset)]]. *)
Definition GenerateRandomPassword (length : Z) : result string :=
  if length <? 8
  then Err (errors.New "password length must be at least 8 characters")
  else
    Ok (String.string_of_list_ascii
          (map (λ i, at_index charset (i mod String.length charset))
               (seq 0 (Z.to_nat length)))).

End crypto.

(* ================================================================== *)
(** ** Package [regexp], for the patterns of the validator *)

Module regexp.

(** Expressions without anchors, over bytes: the classes of the patterns
    are sets of ASCII characters, which no byte of a longer encoding
    belongs to. *)
Inductive Expr : Type :=
| NoMatch
| EmptyMatch
| CharClass (class : ascii → bool)
| Concat (e1 e2 : Expr)
| Alternate (e1 e2 : Expr)
| Star (e : Expr).

Definition Literal (c : ascii) : Expr := CharClass (Ascii.eqb c).

(** [e+] and [e{2,}]. *)
Definition Plus (e : Expr) : Expr := Concat e (Star e).
Definition AtLeastTwo (e : Expr) : Expr := Concat e (Concat e (Star e)).

(** Does [e] match the empty text. *)
Fixpoint nullable (e : Expr) : bool :=
  match e with
  | NoMatch => false
  | EmptyMatch => true
  | CharClass _ => false
  | Concat e1 e2 => nullable e1 && nullable e2
  | Alternate e1 e2 => nullable e1 || nullable e2
  | Star _ => true
  end.

(** What is left of [e] to match after the byte [c]. *)
Fixpoint derivative (c : ascii) (e : Expr) : Expr :=
  match e with
  | NoMatch | EmptyMatch => NoMatch
  | CharClass class => if class c then EmptyMatch else NoMatch
  | Concat e1 e2 =>
      if nullable e1
      then Alternate (Concat (derivative c e1) e2) (derivative c e2)
      else Concat (derivative c e1) e2
  | Alternate e1 e2 => Alternate (derivative c e1) (derivative c e2)
  | Star e' => Concat (derivative c e') (Star e')
  end.

(** Does [e] match the whole of [s]. *)
Fixpoint matchesAll (e : Expr) (s : string) : bool :=
  match s with
  | EmptyString => nullable e
  | String c s' => matchesAll (derivative c e) s'
  end.

(** Does [e] match a prefix of [s]. *)
Fixpoint matchesPrefix (e : Expr) (s : string) : bool :=
  nullable e
  || match s with
     | EmptyString => false
     | String c s' => matchesPrefix (derivative c e) s'
     end.

(** Does [e] match somewhere in [s]. *)
Fixpoint matchesSomewhere (e : Expr) (s : string) : bool :=
  matchesPrefix e s
  || match s with
     | EmptyString => false
     | String _ s' => matchesSomewhere e s'
     end.

(** A compiled pattern: [^expr$] when anchored, [expr] otherwise. *)
Record Regexp : Type := { anchored : bool; expr : Expr }.

(** [re.MatchString(s)]: does [s] contain a match of the pattern. *)
Definition MatchString (re : Regexp) (s : string) : bool :=
  if anchored re then matchesAll (expr re) s
  else matchesSomewhere (expr re) s.

End regexp.

(* ================================================================== *)
(** ** Package [validator] *)

Module validator.

Record ValidationError : Type := { Field : string; Message : string }.

Definition ValidationErrors : Type := list ValidationError.

(** [ve.Error()]. *)
Definition Error (ve : ValidationErrors) : string :=
  strings.Join (map (λ err, Field err +:+ ": " +:+ Message err) ve) "; ".

(** [ve.Add(field, message)]. *)
Definition Add (ve : ValidationErrors) (field message : string)
  : ValidationErrors :=
  ve ++ [{| Field := field; Message := message |}].

Definition HasErrors (ve : ValidationErrors) : bool := (0 <? length ve)%nat.

Definition lower (c : ascii) : bool := in_range "a" "z" c.
Definition upper (c : ascii) : bool := in_range "A" "Z" c.
Definition digit (c : ascii) : bool := in_range "0" "9" c.
Definition among (chars : string) (c : ascii) : bool :=
  existsb (Ascii.eqb c) (String.list_ascii_of_string chars).

(** The classes [[a-zA-Z0-9._%+-]], [[a-zA-Z0-9.-]] and [[a-zA-Z]]. *)
Definition localClass (c : ascii) : bool :=
  lower c || upper c || digit c || among "._%+-" c.
Definition domainClass (c : ascii) : bool :=
  lower c || upper c || digit c || among ".-" c.
Definition letterClass (c : ascii) : bool := lower c || upper c.

(** The pattern [^[a-zA-Z0-9._%+-]+@[a-zA-Z0-9.-]+\.[a-zA-Z]{2,}$]. *)
Definition emailRegex : regexp.Regexp :=
  {| regexp.anchored := true;
     regexp.expr :=
       regexp.Concat (regexp.Plus (regexp.CharClass localClass))
         (regexp.Concat (regexp.Literal "@")
            (regexp.Concat (regexp.Plus (regexp.CharClass domainClass))
               (regexp.Concat (regexp.Literal ".")
                  (regexp.AtLeastTwo (regexp.CharClass letterClass))))) |}.

(** The patterns [[A-Z]], [[a-z]] and [[0-9]]. *)
Definition upperRegex : regexp.Regexp :=
  {| regexp.anchored := false; regexp.expr := regexp.CharClass upper |}.
Definition lowerRegex : regexp.Regexp :=
  {| regexp.anchored := false; regexp.expr := regexp.CharClass lower |}.
Definition numberRegex : regexp.Regexp :=
  {| regexp.anchored := false; regexp.expr := regexp.CharClass digit |}.

Definition ValidateEmail (email : string) : option errors.error :=
  if String.eqb email EmptyString
  then Some (errors.New "email is required")
  else if negb (regexp.MatchString emailRegex email)
  then Some (errors.New "invalid email format")
  else None.

Definition ValidatePassword (password : string) : option errors.error :=
  if String.eqb password EmptyString
  then Some (errors.New "password is required")
  else if (String.length password <? 8)%nat
  then Some (errors.New "password must be at least 8 characters long")
  else
    let hasUpper := regexp.MatchString upperRegex password in
    if negb hasUpper
    then Some (errors.New "password must contain at least one uppercase letter")
    else
      let hasLower := regexp.MatchString lowerRegex password in
      if negb hasLower
      then Some (errors.New "password must contain at least one lowercase letter")
      else
        let hasNumber := regexp.MatchString numberRegex password in
        if negb hasNumber
        then Some (errors.New "password must contain at least one number")
        else None.

Definition ValidateName (name : string) : option errors.error :=
  if String.eqb name EmptyString
  then Some (errors.New "name is required")
  else if (String.length (strings.TrimSpace name) <? 2)%nat
  then Some (errors.New "name must be at least 2 characters long")
  else if (100 <? String.length name)%nat
  then Some (errors.New "name must be less than 100 characters")
  else None.

Definition ValidateUserRegistration (name email password : string)
  : ValidationErrors :=
  let errors : ValidationErrors := [] in
  let errors :=
    match ValidateName name with
    | Some err => Add errors "name" (fmt.message err)
    | None => errors
    end in
  let errors :=
    match ValidateEmail email with
    | Some err => Add errors "email" (fmt.message err)
    | None => errors
    end in
  let errors :=
    match ValidatePassword password with
    | Some err => Add errors "password" (fmt.message err)
    | None => errors
    end in
  errors.

End validator.

(* ================================================================== *)
(** ** A reference codec *)

(** An implementation of [jwt.Codec auth.Claims] with the shape of the
    compact serialisation (three segments separated by dots, none of
    which contains a dot or a blank).  A segment is the binary numeral of
    the value's code; the MAC is the symbolic tag that names the method,
    the key and the text. *)
Module wire.

Definition methods : list jwt.SigningMethod :=
  [ jwt.SigningMethodHS256; jwt.SigningMethodHS384; jwt.SigningMethodHS512;
    jwt.SigningMethodRS256; jwt.SigningMethodRS384; jwt.SigningMethodRS512;
    jwt.SigningMethodPS256; jwt.SigningMethodPS384; jwt.SigningMethodPS512;
    jwt.SigningMethodES256; jwt.SigningMethodES384; jwt.SigningMethodES512;
    jwt.SigningMethodEdDSA; jwt.SigningMethodNone ].

(** [jwt.GetSigningMethod(alg)]. *)
Definition GetSigningMethod (alg : string) : option jwt.SigningMethod :=
  List.find (λ m, String.eqb (jwt.Alg m) alg) methods.

#[global] Instance SigningMethod_countable : Countable jwt.SigningMethod.
Proof.
  apply (inj_countable jwt.Alg GetSigningMethod).
  intros m. destruct m; reflexivity.
Defined.

(** Binary numerals, least significant digit first, the leading one
    left out. *)
Fixpoint bits (p : positive) : string :=
  match p with
  | xH => EmptyString
  | xO p' => String "0" (bits p')
  | xI p' => String "1" (bits p')
  end.

Fixpoint unbits (s : string) : option positive :=
  match s with
  | EmptyString => Some xH
  | String c s' =>
      if Ascii.eqb c "0" then xO <$> unbits s'
      else if Ascii.eqb c "1" then xI <$> unbits s'
      else None
  end.

Definition segment {A} `{Countable A} (a : A) : string := bits (encode a).

Definition unsegment {A} `{Countable A} (s : string) : option A :=
  unbits s ≫= decode.

(** The claims segment: the fields in the order of the wire format,
    each a numeral, joined by underscores. *)
Definition payload (c : auth.Claims) : string :=
  let reg := auth.RegisteredClaims c in
  segment (auth.UserID c) +:+ "_" +:+ segment (auth.Email c) +:+ "_" +:+
  segment (auth.Roles c) +:+ "_" +:+ segment (jwt.Issuer reg) +:+ "_" +:+
  segment (jwt.Subject reg) +:+ "_" +:+ segment (jwt.Audience reg) +:+ "_" +:+
  segment (jwt.ExpiresAt reg) +:+ "_" +:+ segment (jwt.NotBefore reg) +:+ "_" +:+
  segment (jwt.IssuedAt reg) +:+ "_" +:+ segment (jwt.ID reg).

Definition unpayload (s : string) : option auth.Claims :=
  match strings.Split s "_" with
  | [uid; email; roles; iss; sub; aud; exp; nbf; iat; id] =>
      uid ← unsegment uid; email ← unsegment email; roles ← unsegment roles;
      iss ← unsegment iss; sub ← unsegment sub; aud ← unsegment aud;
      exp ← unsegment exp; nbf ← unsegment nbf; iat ← unsegment iat;
      id ← unsegment id;
      Some {| auth.UserID := uid; auth.Email := email; auth.Roles := roles;
              auth.RegisteredClaims :=
                {| jwt.Issuer := iss; jwt.Subject := sub; jwt.Audience := aud;
                   jwt.ExpiresAt := exp; jwt.NotBefore := nbf;
                   jwt.IssuedAt := iat; jwt.ID := id |} |}
  | _ => None
  end.

Definition malformed {A} : result A :=
  Err (jwt.newError "token is malformed" (errors.Var jwt.ErrTokenMalformed) []).

Definition parse (tokenString : string)
  : result (jwt.Token auth.Claims * string) :=
  match strings.Split tokenString "." with
  | [h; p; g] =>
      match unsegment h, unpayload p, unsegment g with
      | Some m, Some c, Some sig =>
          Ok ({| jwt.Raw := tokenString; jwt.Method := m; jwt.Claims := c;
                 jwt.Signature := sig; jwt.Valid := false |},
              h +:+ "." +:+ p)
      | _, _, _ => malformed
      end
  | _ => malformed
  end.

#[global] Instance codec : jwt.Codec auth.Claims :=
  {| jwt.SigningString m c := segment m +:+ "." +:+ payload c;
     jwt.EncodeSegment sig := segment sig;
     jwt.ParseUnverified := parse;
     jwt.hmac m key text := jwt.Alg m +:+ ":" +:+ key +:+ ":" +:+ text |}.

End wire.

(** A principal, a service and a request to run the definitions on. *)
Module sample.

Definition alice : models.User :=
  {| models.ID := 7; models.Name := "Alice";
     models.Email := "alice@example.com"; models.PasswordHash := "x";
     models.EmailVerified := true; models.IsActive := true;
     models.LastLogin := None; models.CreatedAt := 0; models.UpdatedAt := 0;
     models.Roles := ["user"] |}.

Definition service : auth.JWTService := auth.NewJWTService "s3cret".

Definition guard : auth.Middleware := auth.NewMiddleware service.

(** The token issued to [alice] at instant [t]. *)
Definition token_at (t : time.Time) : string :=
  match run (auth.GenerateToken service alice) (frozen t) with
  | Ok tokenString => tokenString
  | Err _ => EmptyString
  end.

(** The claims of that token. *)
Definition claims_at (t : time.Time) : auth.Claims :=
  {| auth.UserID := 7;
     auth.Email := "alice@example.com";
     auth.Roles := ["user"];
     auth.RegisteredClaims :=
       {| jwt.Issuer := "goapp";
          jwt.Subject := "user_7";
          jwt.Audience := [];
          jwt.ExpiresAt := Some (jwt.NewNumericDate (t + 24 * time.Hour));
          jwt.NotBefore := Some (jwt.NewNumericDate t);
          jwt.IssuedAt := Some (jwt.NewNumericDate t);
          jwt.ID := EmptyString |} |}.

(** Claims no call of the service produces: issued at the epoch and
    valid for thirty days. *)
Definition long_lived : auth.Claims :=
  {| auth.UserID := 7;
     auth.Email := "alice@example.com";
     auth.Roles := ["user"];
     auth.RegisteredClaims :=
       {| jwt.Issuer := "goapp";
          jwt.Subject := "user_7";
          jwt.Audience := [];
          jwt.ExpiresAt := Some (30 * 24 * time.Hour);
          jwt.NotBefore := Some 0;
          jwt.IssuedAt := Some 0;
          jwt.ID := EmptyString |} |}.

Definition request (authorization : list string) : http.Request :=
  {| http.Method := "GET"; http.Path := "/profile";
     http.header := {[ "Authorization" := authorization ]};
     http.Body := EmptyString; http.ctx := context.Background |}.

(** A request without credentials. *)
Definition anonymous : http.Request :=
  {| http.Method := "GET"; http.Path := "/profile"; http.header := ∅;
     http.Body := EmptyString; http.ctx := context.Background |}.

(** A wrapped operation that leaves its mark on the response. *)
Definition operation : http.HandlerFunc :=
  λ w r, mret (w ++ [http.WriteHeader 200; http.Write (http.Path r)]).

(** Claims without dates, signed by no call of the service. *)
Definition undated : auth.Claims :=
  {| auth.UserID := 7;
     auth.Email := "alice@example.com";
     auth.Roles := ["user"];
     auth.RegisteredClaims :=
       {| jwt.Issuer := "goapp";
          jwt.Subject := "user_7";
          jwt.Audience := [];
          jwt.ExpiresAt := None;
          jwt.NotBefore := None;
          jwt.IssuedAt := None;
          jwt.ID := EmptyString |} |}.

(** A request to the refresh endpoint. *)
Definition refresh_request (authorization : list string) : http.Request :=
  {| http.Method := "POST"; http.Path := "/refresh";
     http.header := {[ "Authorization" := authorization ]};
     http.Body := EmptyString; http.ctx := context.Background |}.

(** Renderings of the two response types, to run the handlers with. *)
Definition marshal_map : json.Marshaler (gmap string string) :=
  {| json.Marshal m :=
       "{" +:+ strings.Join (map (λ kv, kv.1 +:+ ":" +:+ kv.2) (map_to_list m)) ","
           +:+ "}" |}.

Definition marshal_user : json.Marshaler models.User :=
  {| json.Marshal u :=
       "{id:" +:+ pretty (models.ID u) +:+ ",email:" +:+ models.Email u +:+ "}" |}.

(** A database that knows [alice] only. *)
Definition repository : models.UserRepository :=
  {| models.GetByID id :=
       if id =? 7 then Ok alice else Err (errors.Var sql.ErrNoRows) |}.

Definition handler : handlers.AuthHandler :=
  handlers.NewAuthHandler repository "s3cret".

(** A database with three users and no table of products, and a
    rendering of the admin response. *)
Definition database : sql.DB :=
  {| sql.QueryCount query :=
       if String.eqb query "SELECT COUNT(*) FROM users" then Ok 3
       else Err (errors.New "relation does not exist") |}.

Definition marshal_admin : json.Marshaler handlers.AdminData :=
  {| json.Marshal d :=
       "{user:" +:+ handlers.user d +:+ ",roles:"
       +:+ strings.Join (handlers.roles d) "," +:+ ",total_users:"
       +:+ pretty (handlers.total_users (handlers.admin_info d)) +:+ "}" |}.

(** A rendering of quoted text, and an environment that sets the two
    required variables and leaves the port empty. *)
Definition quoter : strconv.Quoter := {| strconv.Quote s := "'" +:+ s +:+ "'" |}.

Definition environment : os.Environ :=
  <["DB_PASSWORD" := "hunter2"]>
    (<["JWT_SECRET" := "s3cret"]> (<["DB_PORT" := EmptyString]> ∅)).

End sample.

(** A session: a token and the instants at which it is refreshed, each
    refresh being handed the token the previous one returned. *)
Module session.

Section WithCodec.
Context `{!jwt.Codec auth.Claims}.

Fixpoint refreshChain (j : auth.JWTService) (token : string)
    (instants : list time.Time) : outcome (result string) :=
  match instants with
  | [] => Returns (Ok token)
  | t :: later =>
      match run (auth.RefreshToken j token) (frozen t) with
      | Returns (Ok token') => refreshChain j token' later
      | stopped => stopped
      end
  end.

(** The token string the service produces for a claim set. *)
Definition signed (j : auth.JWTService) (claims : auth.Claims) : string :=
  let text := jwt.SigningString jwt.SigningMethodHS256 claims in
  text +:+ "." +:+
  jwt.EncodeSegment (jwt.hmac jwt.SigningMethodHS256 (auth.secret j) text).

(** A token of the service: signed by it, issued at [i] and valid
    from [i] for a day. *)
Definition day_token (j : auth.JWTService) (token : string) (i : time.Time)
  : Prop :=
  ∃ c, token = signed j c
       ∧ jwt.IssuedAt (auth.RegisteredClaims c) = Some i
       ∧ jwt.NotBefore (auth.RegisteredClaims c) = Some i
       ∧ jwt.ExpiresAt (auth.RegisteredClaims c) = Some (i + 24 * time.Hour).

(** The claims a token string carries, when it can be decoded. *)
Definition decoded (token : string) : option auth.Claims :=
  match jwt.ParseUnverified token with
  | Ok (t, _) => Some (jwt.Claims t)
  | Err _ => None
  end.

End WithCodec.

(** Each instant lies in the validity window of the token produced at
    the instant before it. *)
Fixpoint stepwise (t : time.Time) (instants : list time.Time) : Prop :=
  match instants with
  | [] => True
  | t' :: later =>
      jwt.NewNumericDate t ≤ t' < jwt.NewNumericDate t + 24 * time.Hour
      ∧ stepwise t' later
  end.

End session.

(** Does the character [c] occur in [s]. *)
Fixpoint occurs (c : ascii) (s : string) : bool :=
  match s with
  | EmptyString => false
  | String c' s' => Ascii.eqb c' c || occurs c s'
  end.

(** The credential of an [Authorization] header as the interface
    documents it: the scheme [Bearer], one blank, and a token without
    blanks. *)
Definition BearerHeader (h token : string) : Prop :=
  h = "Bearer " +:+ token ∧ occurs " " token = false.

(** The words of a header: its maximal runs of characters other than the
    blank. *)
Definition words (h : string) : list string :=
  List.filter (λ p, negb (String.eqb p EmptyString)) (strings.Split h " ").

(** The parts of a split, put together again. *)
Fixpoint join (sep : ascii) (parts : list string) : string :=
  match parts with
  | [] => EmptyString
  | [p] => p
  | p :: ps => p +:+ String sep (join sep ps)
  end.

(** The status a writer has been told to send: the first [WriteHeader]
    it received. *)
Fixpoint status (w : http.ResponseWriter) : option Z :=
  match w with
  | [] => None
  | http.WriteHeader code :: _ => Some code
  | _ :: w' => status w'
  end.

(** The identity the authentication guard attaches to a request. *)
Definition identified (r : http.Request) (claims : auth.Claims) : http.Request :=
  http.WithContext r
    (context.WithValue
       (context.WithValue
          (context.WithValue (http.Context r) auth.UserIDKey
             (context.any_int (auth.UserID claims)))
          auth.UserEmailKey (context.any_string (auth.Email claims)))
       auth.UserRolesKey (context.any_strings (auth.Roles claims))).

(** The test the guards and the refresh endpoint apply to the parts of
    an [Authorization] header. *)
Definition header_malformed (h : string) : bool :=
  let parts := strings.Split h " " in
  negb (length parts =? 2)%nat
  || negb (String.eqb (nth 0 parts EmptyString) "Bearer").

(** The texts an expression stands for. *)
Inductive lang : regexp.Expr → string → Prop :=
| lang_empty : lang regexp.EmptyMatch EmptyString
| lang_class class c :
    class c = true → lang (regexp.CharClass class) (String c EmptyString)
| lang_concat e1 e2 s1 s2 :
    lang e1 s1 → lang e2 s2 → lang (regexp.Concat e1 e2) (s1 +:+ s2)
| lang_alternate_l e1 e2 s : lang e1 s → lang (regexp.Alternate e1 e2) s
| lang_alternate_r e1 e2 s : lang e2 s → lang (regexp.Alternate e1 e2) s
| lang_star_nil e : lang (regexp.Star e) EmptyString
| lang_star_more e s1 s2 :
    lang e s1 → lang (regexp.Star e) s2 → lang (regexp.Star e) (s1 +:+ s2).

(** Every byte of [s] is in [class]; some byte of [s] is. *)
Definition all_in (class : ascii → bool) (s : string) : bool :=
  forallb class (String.list_ascii_of_string s).

Definition some_in (class : ascii → bool) (s : string) : bool :=
  existsb class (String.list_ascii_of_string s).

(** The number a text of decimal digits stands for, after [n]. *)
Fixpoint value (s : string) (n : Z) : Z :=
  match s with
  | EmptyString => n
  | String c s' => value s' (n * 10 + (strconv.byte c - strconv.byte "0"))
  end.

(** A non-empty text of decimal digits. *)
Definition digits (s : string) : bool :=
  negb (String.eqb s EmptyString) && all_in (in_range "0" "9") s.

(** The number a decimal numeral with an optional sign stands for. *)
Definition numeral (s : string) : option Z :=
  match s with
  | EmptyString => None
  | String c d =>
      if Ascii.eqb c "+" then if digits d then Some (value d 0) else None
      else if Ascii.eqb c "-" then if digits d then Some (- value d 0) else None
      else if digits s then Some (value s 0) else None
  end.

(** Texts none of which starts with a printable character other than
    the blank. *)
Definition unprintable_heads (ps : list string) : bool :=
  forallb (λ p, match p with
                | String a _ => negb (in_range "!" "~" a)
                | EmptyString => false
                end) ps.

(** The bytes of the password of [n] bytes. *)
Definition generated (n : nat) : list ascii :=
  map (λ i, crypto.at_index crypto.charset (i mod String.length crypto.charset))
      (seq 0 n).

(* ================================================================== *)
(** * Properties *)

(** ** Clock and time arithmetic *)

Ltac unfold_M :=
  cbv [mbind M_bind mret M_ret time.Now time.Since run] in *.

Lemma tail_frozen t : tail (frozen t) = frozen t.
Proof. reflexivity. Qed.

Lemma Hour_value : time.Hour = 3600000000000.
Proof. reflexivity. Qed.

Lemma NewNumericDate_eq t :
  jwt.NewNumericDate t = t - t mod 1000000000.
Proof. reflexivity. Qed.

Lemma NewNumericDate_le t : jwt.NewNumericDate t ≤ t.
Proof.
  rewrite NewNumericDate_eq.
  pose proof (Z.mod_pos_bound t 1000000000 ltac:(lia)). lia.
Qed.

Lemma NewNumericDate_gt t : t - time.Second < jwt.NewNumericDate t.
Proof.
  rewrite NewNumericDate_eq. change time.Second with 1000000000.
  pose proof (Z.mod_pos_bound t 1000000000 ltac:(lia)). lia.
Qed.

(** Whole seconds pass through the truncation. *)
Lemma NewNumericDate_add_seconds t k :
  jwt.NewNumericDate (t + k * time.Second) = jwt.NewNumericDate t + k * time.Second.
Proof.
  rewrite !NewNumericDate_eq. change time.Second with 1000000000.
  rewrite Z.mod_add by lia. lia.
Qed.

Lemma NewNumericDate_add_day t :
  jwt.NewNumericDate (time.Add t (24 * time.Hour))
  = jwt.NewNumericDate t + 24 * time.Hour.
Proof.
  unfold time.Add.
  replace (24 * time.Hour) with (86400 * time.Second) by reflexivity.
  apply NewNumericDate_add_seconds.
Qed.

Lemma NewNumericDate_whole t :
  t mod time.Second = 0 → jwt.NewNumericDate t = t.
Proof. rewrite NewNumericDate_eq. change time.Second with 1000000000. lia. Qed.

Lemma NewNumericDate_idemp t :
  jwt.NewNumericDate (jwt.NewNumericDate t) = jwt.NewNumericDate t.
Proof.
  rewrite !NewNumericDate_eq.
  replace (t - t mod 1000000000) with (1000000000 * (t / 1000000000)).
  - rewrite Z.mul_comm, Z.mod_mul by lia. lia.
  - pose proof (Z.div_mod t 1000000000 ltac:(lia)). lia.
Qed.

(** Saturation does not change on which side of seven days an age lies. *)
Lemma Sub_week now t :
  (7 * 24 * time.Hour <? time.Sub now t) = (7 * 24 * time.Hour <? now - t).
Proof.
  unfold time.Sub, time.minDuration, time.maxDuration.
  rewrite Hour_value.
  repeat case_match; lia.
Qed.

(** ** [strings.Split] *)

Lemma append_nil_l s : EmptyString +:+ s = s.
Proof. reflexivity. Qed.

Lemma append_String c s t : String c s +:+ t = String c (s +:+ t).
Proof. reflexivity. Qed.

Lemma append_char c s : String c EmptyString +:+ s = String c s.
Proof. reflexivity. Qed.

Lemma append_assoc s t u : (s +:+ t) +:+ u = s +:+ t +:+ u.
Proof.
  induction s as [|c s IH]; [reflexivity|].
  rewrite !append_String, IH. reflexivity.
Qed.

Lemma Split_not_nil s sep : strings.Split s sep ≠ [].
Proof.
  destruct s as [|c s]; simpl; [discriminate|].
  destruct (Ascii.eqb c sep); [discriminate|].
  destruct (strings.Split s sep); discriminate.
Qed.

Lemma Split_free s sep : occurs sep s = false → strings.Split s sep = [s].
Proof.
  induction s as [|c s IH]; simpl; [reflexivity|].
  intros [Hc Hs]%orb_false_iff. rewrite Hc, (IH Hs). reflexivity.
Qed.

Lemma Split_app s t sep :
  occurs sep s = false →
  strings.Split (s +:+ String sep t) sep = s :: strings.Split t sep.
Proof.
  induction s as [|c s IH]; simpl.
  - intros _. rewrite Ascii.eqb_refl. reflexivity.
  - intros [Hc Hs]%orb_false_iff. rewrite Hc, (IH Hs). reflexivity.
Qed.

Lemma Split_parts_free s sep :
  Forall (λ p, occurs sep p = false) (strings.Split s sep).
Proof.
  induction s as [|c s IH]; simpl.
  - repeat constructor.
  - destruct (Ascii.eqb c sep) eqn:Hc.
    + constructor; [reflexivity | exact IH].
    + destruct (strings.Split s sep) as [|p ps].
      * repeat constructor. simpl. rewrite Hc. reflexivity.
      * inversion IH; subst. constructor; [|assumption].
        simpl. rewrite Hc. assumption.
Qed.

Lemma join_String sep c p ps :
  join sep (String c p :: ps) = String c (join sep (p :: ps)).
Proof. destruct ps; reflexivity. Qed.

Lemma Split_join s sep : join sep (strings.Split s sep) = s.
Proof.
  induction s as [|c s IH]; simpl; [reflexivity|].
  pose proof (Split_not_nil s sep) as Hne.
  destruct (Ascii.eqb c sep) eqn:Hc.
  - apply Ascii.eqb_eq in Hc. subst c.
    destruct (strings.Split s sep) as [|p ps]; [done|].
    change (join sep (EmptyString :: p :: ps))
      with (String sep (join sep (p :: ps))).
    rewrite IH. reflexivity.
  - destruct (strings.Split s sep) as [|p ps]; [done|].
    rewrite join_String, IH. reflexivity.
Qed.

(** Two parts come out exactly when the string is two blank-free words
    around a single separator. *)
Lemma Split_two s sep a b :
  strings.Split s sep = [a; b] ↔
  s = a +:+ String sep b ∧ occurs sep a = false ∧ occurs sep b = false.
Proof.
  split.
  - intros H. pose proof (Split_join s sep) as Hj.
    pose proof (Split_parts_free s sep) as Hf. rewrite H in Hj, Hf.
    simpl in Hj. apply Forall_cons in Hf as [Ha Hf].
    apply Forall_cons in Hf as [Hb _]. auto.
  - intros (-> & Ha & Hb). rewrite (Split_app _ _ _ Ha), (Split_free _ _ Hb).
    reflexivity.
Qed.

(** What the guard's test on the header accepts. *)
Lemma Split_Bearer h token :
  strings.Split h " " = ["Bearer"; token] ↔ BearerHeader h token.
Proof.
  rewrite Split_two. unfold BearerHeader. simpl. intuition.
Qed.

(** ** The reference codec meets the contract *)

Lemma bits_free c p : c ≠ "0"%char → c ≠ "1"%char → occurs c (wire.bits p) = false.
Proof.
  intros H0 H1.
  induction p as [p IH|p IH|]; cbn [occurs wire.bits]; [| |reflexivity];
    rewrite IH, orb_false_r; apply Ascii.eqb_neq; congruence.
Qed.

Lemma unbits_bits p : wire.unbits (wire.bits p) = Some p.
Proof.
  induction p as [p IH|p IH|]; simpl; [| |reflexivity]; rewrite IH; reflexivity.
Qed.

Lemma unsegment_segment `{Countable A} (a : A) :
  wire.unsegment (wire.segment a) = Some a.
Proof.
  unfold wire.unsegment, wire.segment. rewrite unbits_bits. simpl.
  apply decode_encode.
Qed.

Lemma segment_free `{Countable A} c (a : A) :
  c ≠ "0"%char → c ≠ "1"%char → occurs c (wire.segment a) = false.
Proof. apply bits_free. Qed.

Lemma payload_free c claims :
  c ≠ "0"%char → c ≠ "1"%char → c ≠ "_"%char →
  occurs c (wire.payload claims) = false.
Proof.
  intros H0 H1 Hu. unfold wire.payload.
  assert (Happ : ∀ s t, occurs c s = false → occurs c t = false →
                        occurs c (s +:+ "_" +:+ t) = false).
  { intros s t Hs Ht. induction s as [|d s IH].
    - rewrite append_nil_l, append_String, append_nil_l. cbn [occurs].
      rewrite Ht, orb_false_r. apply Ascii.eqb_neq. congruence.
    - rewrite append_String. cbn [occurs] in *.
      apply orb_false_iff in Hs as [-> Hs]. auto. }
  repeat (apply Happ; [apply segment_free; assumption|]).
  apply segment_free; assumption.
Qed.

Lemma unpayload_payload claims : wire.unpayload (wire.payload claims) = Some claims.
Proof.
  unfold wire.unpayload, wire.payload. rewrite !append_char.
  repeat (rewrite Split_app by (apply segment_free; discriminate)).
  rewrite Split_free by (apply segment_free; discriminate).
  rewrite !unsegment_segment. simpl.
  destruct claims as [? ? ? []]; reflexivity.
Qed.

Lemma wire_laws : jwt.CodecLaws wire.codec.
Proof.
  constructor; [|intros tokenString Hlen;
    cbn [jwt.ParseUnverified wire.codec]; unfold wire.parse;
    destruct (strings.Split tokenString ".") as [|h [|p [|g [|? ?]]]];
    first [ by destruct Hlen | eexists; split; reflexivity ]].
  intros m c sig raw. subst raw. cbn [jwt.ParseUnverified
    jwt.SigningString jwt.EncodeSegment wire.codec]. unfold wire.parse.
  assert (Hsplit :
    strings.Split ((wire.segment m +:+ "." +:+ wire.payload c)
                   +:+ "." +:+ wire.segment sig) "."
    = [wire.segment m; wire.payload c; wire.segment sig]).
  { rewrite !append_char, append_assoc, append_String.
    rewrite Split_app by (apply segment_free; discriminate).
    rewrite Split_app by (apply payload_free; discriminate).
    rewrite Split_free by (apply segment_free; discriminate).
    reflexivity. }
  rewrite Hsplit, !unsegment_segment, unpayload_payload. reflexivity.
Qed.

(** ** The token service *)

Section TokenService.
Context {codec : jwt.Codec auth.Claims}.

(** The time checks of the validator on a claim set with both bounds. *)
Lemma Validate_window (c : auth.Claims) nbf exp w :
  jwt.NotBefore (auth.RegisteredClaims c) = Some nbf →
  jwt.ExpiresAt (auth.RegisteredClaims c) = Some exp →
  jwt.Validate jwt.NewValidator c w =
    (match w 0%nat <? exp, w 0%nat <? nbf with
     | true, false => None
     | true, true => Some (errors.Var jwt.ErrTokenNotValidYet)
     | false, false => Some (errors.Var jwt.ErrTokenExpired)
     | false, true => Some (errors.Join (errors.Var jwt.ErrTokenExpired)
                                        (errors.Var jwt.ErrTokenNotValidYet))
     end, tail w).
Proof.
  intros Hn He. unfold jwt.Validate. unfold_M.
  unfold jwt.verifyExpiresAt, jwt.verifyNotBefore. simpl.
  rewrite Hn, He. unfold time.Before, time.Add. simpl.
  change (- 0) with 0. rewrite !Z.add_0_r.
  destruct (w 0%nat <? exp), (w 0%nat <? nbf); reflexivity.
Qed.

(** Validation reads the clock at most once. *)
Lemma Validate_clock (c : auth.Claims) w :
  snd (jwt.Validate jwt.NewValidator c w) = tail w.
Proof. reflexivity. Qed.

Lemma ValidateToken_clock j tok w :
  snd (auth.ValidateToken j tok w) = w ∨ snd (auth.ValidateToken j tok w) = tail w.
Proof.
  unfold auth.ValidateToken, jwt.ParseWithClaims. unfold_M.
  destruct (jwt.ParseUnverified tok) as [[token text]|err]; [|by left].
  destruct (auth.keyFunc j token) as [key|err]; [|by left].
  destruct (jwt.Verify _ _ _ _); [by left|].
  destruct (jwt.Validate jwt.NewValidator (jwt.Claims token) w) as [verr w'] eqn:Hv.
  pose proof (Validate_clock (jwt.Claims token) w) as Hc. rewrite Hv in Hc.
  simpl in Hc. subst w'. destruct verr; by right.
Qed.

Lemma ValidateToken_frozen j tok t :
  auth.ValidateToken j tok (frozen t)
  = (run (auth.ValidateToken j tok) (frozen t), frozen t).
Proof.
  unfold run. destruct (ValidateToken_clock j tok (frozen t)) as [H|H];
    rewrite <- H at 3; apply surjective_pairing.
Qed.

(** A token that decodes, names a MAC method and carries the MAC of its
    text under the service's secret is judged on its time claims
    alone. *)
Lemma ValidateToken_verified j tok token text w :
  jwt.ParseUnverified tok = Ok (token, text) →
  jwt.isSigningMethodHMAC (jwt.Method token) = true →
  jwt.Signature token = jwt.hmac (jwt.Method token) (auth.secret j) text →
  auth.ValidateToken j tok w =
    (match fst (jwt.Validate jwt.NewValidator (jwt.Claims token) w) with
     | None => Ok (jwt.Claims token)
     | Some err =>
         Err (errors.Wrap "failed to parse token"
                (jwt.newError "" (errors.Var jwt.ErrTokenInvalidClaims) [err]))
     end, tail w).
Proof.
  intros Hp Hm Hs. unfold auth.ValidateToken, jwt.ParseWithClaims. unfold_M.
  rewrite Hp. unfold auth.keyFunc. rewrite Hm. cbn [negb].
  unfold jwt.Verify. rewrite Hm, Hs, String.eqb_refl.
  rewrite (surjective_pairing (jwt.Validate jwt.NewValidator (jwt.Claims token) w)).
  rewrite Validate_clock.
  destruct (fst (jwt.Validate jwt.NewValidator (jwt.Claims token) w));
    reflexivity.
Qed.

(** The failures that precede the time checks: a token that does not
    decode, one that names a method outside the HMAC family, one whose
    signature is not the MAC of its text.  None of them reads the clock. *)
Lemma ValidateToken_rejects j tok w :
  (∀ err,
     jwt.ParseUnverified tok = Err err →
     auth.ValidateToken j tok w
     = (Err (errors.Wrap "failed to parse token" err), w))
  ∧ (∀ token text,
       jwt.ParseUnverified tok = Ok (token, text) →
       jwt.isSigningMethodHMAC (jwt.Method token) = false →
       ∃ err, auth.ValidateToken j tok w = (Err err, w)
              ∧ errors.Is err jwt.ErrTokenUnverifiable = true)
  ∧ (∀ token text,
       jwt.ParseUnverified tok = Ok (token, text) →
       jwt.isSigningMethodHMAC (jwt.Method token) = true →
       jwt.Signature token ≠ jwt.hmac (jwt.Method token) (auth.secret j) text →
       ∃ err, auth.ValidateToken j tok w = (Err err, w)
              ∧ errors.Is err jwt.ErrTokenSignatureInvalid = true).
Proof.
  unfold auth.ValidateToken, jwt.ParseWithClaims. unfold_M.
  repeat apply conj.
  - intros err ->. reflexivity.
  - intros token text -> Hm. unfold auth.keyFunc. rewrite Hm. cbn [negb].
    eexists. split; reflexivity.
  - intros token text -> Hm Hs. unfold auth.keyFunc, jwt.Verify.
    rewrite Hm. cbn [negb]. apply String.eqb_neq in Hs. rewrite Hs.
    eexists. split; reflexivity.
Qed.

(** Validation never hands out claims of a token it could not decode. *)
Lemma ValidateToken_Ok_decoded j tok w c :
  run (auth.ValidateToken j tok) w = Ok c → session.decoded tok = Some c.
Proof.
  unfold run, auth.ValidateToken, jwt.ParseWithClaims, session.decoded. unfold_M.
  destruct (jwt.ParseUnverified tok) as [[token text]|err]; [|discriminate].
  destruct (auth.keyFunc j token) as [key|err]; [|discriminate].
  destruct (jwt.Verify _ _ _ _); [discriminate|].
  destruct (jwt.Validate jwt.NewValidator (jwt.Claims token) w) as [[verr|] w'];
    simpl; [discriminate|]. congruence.
Qed.

Lemma GenerateToken_eq j user w :
  auth.GenerateToken j user w =
    (Ok (session.signed j
           {| auth.UserID := models.ID user;
              auth.Email := models.Email user;
              auth.Roles := models.Roles user;
              auth.RegisteredClaims :=
                {| jwt.Issuer := "goapp";
                   jwt.Subject := "user_" +:+ pretty (models.ID user);
                   jwt.Audience := [];
                   jwt.ExpiresAt :=
                     Some (jwt.NewNumericDate (w 0%nat + 24 * time.Hour));
                   jwt.NotBefore := Some (jwt.NewNumericDate (w 2%nat));
                   jwt.IssuedAt := Some (jwt.NewNumericDate (w 1%nat));
                   jwt.ID := EmptyString |} |}),
     tail (tail (tail w))).
Proof. reflexivity. Qed.

Lemma RefreshToken_frozen j tok t :
  auth.RefreshToken j tok (frozen t) =
    (match run (auth.ValidateToken j tok) (frozen t) with
     | Err err =>
         Returns (Err (errors.Wrap "cannot refresh invalid token" err))
     | Ok claims =>
         match jwt.IssuedAt (auth.RegisteredClaims claims) with
         | None => Panics "nil pointer dereference"
         | Some issued =>
             if 7 * 24 * time.Hour <? t - issued
             then Returns (Err (errors.New "token too old to refresh"))
             else Returns (Ok (session.signed j
                    {| auth.UserID := auth.UserID claims;
                       auth.Email := auth.Email claims;
                       auth.Roles := auth.Roles claims;
                       auth.RegisteredClaims :=
                         {| jwt.Issuer := "auth-app";
                            jwt.Subject := jwt.Subject (auth.RegisteredClaims claims);
                            jwt.Audience := [];
                            jwt.ExpiresAt :=
                              Some (jwt.NewNumericDate (t + 24 * time.Hour));
                            jwt.NotBefore := Some (jwt.NewNumericDate t);
                            jwt.IssuedAt := Some (jwt.NewNumericDate t);
                            jwt.ID := EmptyString |} |}))
         end
     end, frozen t).
Proof.
  unfold auth.RefreshToken. unfold mbind at 1. unfold M_bind.
  rewrite ValidateToken_frozen.
  destruct (run (auth.ValidateToken j tok) (frozen t)) as [claims|err]; [|reflexivity].
  destruct (jwt.IssuedAt (auth.RegisteredClaims claims)) as [issued|]; [|reflexivity].
  unfold_M. rewrite Sub_week. change (frozen t 0%nat) with t.
  destruct (7 * 24 * time.Hour <? t - issued); reflexivity.
Qed.

(** A token that validates but carries no [iat] makes the refresh
    panic. *)
Lemma RefreshToken_without_iat j tok t claims :
  run (auth.ValidateToken j tok) (frozen t) = Ok claims →
  jwt.IssuedAt (auth.RegisteredClaims claims) = None →
  run (auth.RefreshToken j tok) (frozen t) = Panics "nil pointer dereference".
Proof.
  intros Hv Hi. unfold run at 1. rewrite RefreshToken_frozen, Hv, Hi.
  reflexivity.
Qed.

End TokenService.

(** ** The token service under the codec's contract *)

Section Lifecycle.
Context {codec : jwt.Codec auth.Claims} {laws : jwt.CodecLaws codec}.

Lemma parse_signed_token j c :
  jwt.ParseUnverified (session.signed j c) =
    Ok ({| jwt.Raw := session.signed j c;
           jwt.Method := jwt.SigningMethodHS256;
           jwt.Claims := c;
           jwt.Signature :=
             jwt.hmac jwt.SigningMethodHS256 (auth.secret j)
                      (jwt.SigningString jwt.SigningMethodHS256 c);
           jwt.Valid := false |},
        jwt.SigningString jwt.SigningMethodHS256 c).
Proof. apply jwt.parse_signed. Qed.

(** The empty string is no token. *)
Lemma ValidateToken_empty j w :
  ∃ err, auth.ValidateToken j EmptyString w = (Err err, w).
Proof.
  destruct (jwt.parse_segments EmptyString) as (err & Hp & _); [discriminate|].
  destruct (ValidateToken_rejects j EmptyString w) as [H _].
  eexists. apply H, Hp.
Qed.

Lemma decoded_signed j c : session.decoded (session.signed j c) = Some c.
Proof. unfold session.decoded. rewrite parse_signed_token. reflexivity. Qed.

Lemma ValidateToken_signed j c w :
  auth.ValidateToken j (session.signed j c) w =
    (match fst (jwt.Validate jwt.NewValidator c w) with
     | None => Ok c
     | Some err =>
         Err (errors.Wrap "failed to parse token"
                (jwt.newError "" (errors.Var jwt.ErrTokenInvalidClaims) [err]))
     end, tail w).
Proof.
  erewrite ValidateToken_verified by
    (first [apply parse_signed_token | reflexivity]).
  reflexivity.
Qed.

Lemma ValidateToken_signed_window j c nbf exp w :
  jwt.NotBefore (auth.RegisteredClaims c) = Some nbf →
  jwt.ExpiresAt (auth.RegisteredClaims c) = Some exp →
  nbf ≤ w 0%nat < exp →
  run (auth.ValidateToken j (session.signed j c)) w = Ok c.
Proof.
  intros Hn He [Hlo Hhi]. unfold run.
  rewrite ValidateToken_signed, (Validate_window c nbf exp w Hn He).
  cbn [fst].
  destruct (w 0%nat <? exp) eqn:E1; [|lia].
  destruct (w 0%nat <? nbf) eqn:E2; [lia|]. reflexivity.
Qed.

Lemma GenerateToken_day_token j user t :
  ∃ tok, run (auth.GenerateToken j user) (frozen t) = Ok tok
         ∧ session.day_token j tok (jwt.NewNumericDate t).
Proof.
  unfold run. rewrite GenerateToken_eq. eexists. split; [reflexivity|].
  eexists. split; [reflexivity|]. cbn. rewrite <- NewNumericDate_add_day.
  auto.
Qed.

(** Validation of a day token fails exactly outside its day. *)
Lemma day_token_validate j tok i t :
  session.day_token j tok i →
  (i ≤ t < i + 24 * time.Hour ∧
     ∃ c, run (auth.ValidateToken j tok) (frozen t) = Ok c
          ∧ jwt.IssuedAt (auth.RegisteredClaims c) = Some i)
  ∨ (¬ (i ≤ t < i + 24 * time.Hour) ∧
     ∃ err, run (auth.ValidateToken j tok) (frozen t) = Err err).
Proof.
  intros (c & -> & Hi & Hn & He). unfold run.
  rewrite ValidateToken_signed, (Validate_window c _ _ _ Hn He).
  cbn [fst]. change (frozen t 0%nat) with t.
  destruct (t <? i + 24 * time.Hour) eqn:E1, (t <? i) eqn:E2;
    first [ left; split; [lia | eauto] | right; split; [lia | eauto] ].
Qed.

(** Refreshing a day token never meets the seven-day test with an old
    token: the call either reports the validation failure or returns a
    day token that starts at the refresh instant. *)
Lemma day_token_refresh j tok i t :
  session.day_token j tok i →
  (i ≤ t < i + 24 * time.Hour ∧
     ∃ tok', run (auth.RefreshToken j tok) (frozen t) = Returns (Ok tok')
             ∧ session.day_token j tok' (jwt.NewNumericDate t))
  ∨ (¬ (i ≤ t < i + 24 * time.Hour) ∧
     ∃ err, run (auth.RefreshToken j tok) (frozen t)
            = Returns (Err (errors.Wrap "cannot refresh invalid token" err))).
Proof.
  intros Hd. unfold run. rewrite RefreshToken_frozen. cbn [fst].
  destruct (day_token_validate j tok i t Hd)
    as [(Hin & c & -> & Hi) | (Hout & err & ->)].
  - left. split; [assumption|]. rewrite Hi.
    rewrite Hour_value in *.
    destruct (7 * 24 * 3600000000000 <? t - i) eqn:E; [lia|].
    eexists. split; [reflexivity|].
    eexists. split; [reflexivity|]. cbn.
    rewrite <- NewNumericDate_add_day, Hour_value. auto.
  - right. split; [assumption|]. eauto.
Qed.

Lemma refreshChain_snoc j instants t : ∀ tok tok',
  session.refreshChain j tok (instants ++ [t]) = Returns (Ok tok') →
  ∃ tok1, session.refreshChain j tok instants = Returns (Ok tok1)
          ∧ run (auth.RefreshToken j tok1) (frozen t) = Returns (Ok tok').
Proof.
  induction instants as [|t1 later IH]; intros tok tok';
    cbn [session.refreshChain app].
  - destruct (run (auth.RefreshToken j tok) (frozen t)) as [[tok1|]|] eqn:E;
      [|discriminate..]. intros [= <-]. exists tok. split; [reflexivity | exact E].
  - destruct (run (auth.RefreshToken j tok) (frozen t1)) as [[tok1|]|];
      [|discriminate..]. apply IH.
Qed.

Lemma last_cons (a d : time.Time) l : List.last (a :: l) d = List.last l a.
Proof.
  revert a d. induction l as [|b l IH]; intros a d; [reflexivity|].
  change (List.last (a :: b :: l) d) with (List.last (b :: l) d).
  rewrite !IH. reflexivity.
Qed.

(** A session that went through ends with a day token that starts at its
    last refresh. *)
Lemma refreshChain_day_token j instants : ∀ tok t tok',
  session.day_token j tok (jwt.NewNumericDate t) →
  session.refreshChain j tok instants = Returns (Ok tok') →
  session.day_token j tok' (jwt.NewNumericDate (List.last instants t)).
Proof.
  induction instants as [|t1 later IH]; intros tok t tok' Hd;
    cbn [session.refreshChain].
  - intros [= <-]. exact Hd.
  - rewrite last_cons.
    destruct (day_token_refresh j tok _ t1 Hd)
      as [(_ & tok1 & -> & Hd1) | (_ & err & ->)]; [|discriminate].
    eauto.
Qed.

Lemma refreshChain_stepwise j instants : ∀ tok t,
  session.day_token j tok (jwt.NewNumericDate t) →
  session.stepwise t instants →
  ∃ tok', session.refreshChain j tok instants = Returns (Ok tok').
Proof.
  induction instants as [|t' later IH]; intros tok t Hd; simpl.
  - eauto.
  - intros [Hwin Hlater].
    destruct (day_token_refresh j tok _ t' Hd)
      as [(_ & tok1 & -> & Hd1) | (Hout & _)]; [|lia].
    eauto.
Qed.

End Lifecycle.

(** ** Claims about the token service *)

Section TokenClaims.
Context {codec : jwt.Codec auth.Claims}.

(** C4.  A token that decodes, names a MAC method, carries the MAC of
    its text under the service's secret and has the bounds [nbf] and
    [exp] is accepted at the instant [t] the validator reads exactly
    when [nbf <= t < exp].  From [exp] on (the instant [exp] included)
    the failure is of the expired kind, before [nbf] of the
    not-yet-valid kind. *)
Theorem C4_validity_window
    (j : auth.JWTService) (tok : string) (token : jwt.Token auth.Claims)
    (text : string) (nbf exp : time.Time) (w : Clock) :
  jwt.ParseUnverified tok = Ok (token, text) →
  jwt.isSigningMethodHMAC (jwt.Method token) = true →
  jwt.Signature token = jwt.hmac (jwt.Method token) (auth.secret j) text →
  jwt.NotBefore (auth.RegisteredClaims (jwt.Claims token)) = Some nbf →
  jwt.ExpiresAt (auth.RegisteredClaims (jwt.Claims token)) = Some exp →
  let t := w 0%nat in
  let outcome := run (auth.ValidateToken j tok) w in
  (outcome = Ok (jwt.Claims token) ↔ nbf ≤ t < exp)
  ∧ ((∃ claims, outcome = Ok claims) ↔ nbf ≤ t < exp)
  ∧ (exp ≤ t → ∃ err, outcome = Err err
                      ∧ errors.Is err jwt.ErrTokenExpired = true)
  ∧ (t < nbf → ∃ err, outcome = Err err
                      ∧ errors.Is err jwt.ErrTokenNotValidYet = true).
Proof.
  intros Hp Hm Hs Hn He t outcome. subst outcome. unfold run.
  rewrite (ValidateToken_verified j tok token text w Hp Hm Hs).
  rewrite (Validate_window _ nbf exp w Hn He). cbn [fst]. fold t.
  destruct (t <? exp) eqn:E1, (t <? nbf) eqn:E2;
    (split; [split; intros; first [lia | discriminate | reflexivity]|]);
    (split; [split; [intros [claims Hc]; first [lia | discriminate]
                    | intros; first [lia | eauto]]|]);
    (split; intros; first [lia | eexists; split; reflexivity]).
Qed.

Context {laws : jwt.CodecLaws codec}.

(** C1.  Issuance returns a token; validating it at any instant of its
    validity window returns claims with the principal's id, email and
    role list (the same list, hence the same set of roles).  The window
    is entered at once: a validation that follows issuance on the same
    clock succeeds as long as the clock has not run backwards and less
    than a day minus a second has passed. *)
Theorem C1_round_trip (j : auth.JWTService) (user : models.User) (w : Clock) :
  ∃ tokenString,
    run (auth.GenerateToken j user) w = Ok tokenString
    ∧ (∀ w' : Clock,
         jwt.NewNumericDate (w 2%nat) ≤ w' 0%nat
           < jwt.NewNumericDate (w 0%nat + 24 * time.Hour) →
         ∃ claims,
           run (auth.ValidateToken j tokenString) w' = Ok claims
           ∧ auth.UserID claims = models.ID user
           ∧ auth.Email claims = models.Email user
           ∧ auth.Roles claims = models.Roles user
           ∧ list_to_set (auth.Roles claims)
               =@{gset string} list_to_set (models.Roles user))
    ∧ (w 2%nat ≤ w 3%nat < w 0%nat + 24 * time.Hour - time.Second →
       ∃ claims,
         run (auth.ValidateToken j tokenString) (tail (tail (tail w)))
           = Ok claims
         ∧ auth.UserID claims = models.ID user
         ∧ auth.Email claims = models.Email user
         ∧ auth.Roles claims = models.Roles user).
Proof.
  unfold run at 1. rewrite GenerateToken_eq. cbn [fst].
  match goal with |- context [session.signed j ?c] => set (issued := c) end.
  exists (session.signed j issued). split; [reflexivity|].
  assert (Hwin : ∀ w' : Clock,
    jwt.NewNumericDate (w 2%nat) ≤ w' 0%nat
      < jwt.NewNumericDate (w 0%nat + 24 * time.Hour) →
    run (auth.ValidateToken j (session.signed j issued)) w' = Ok issued).
  { intros w' Hw. eapply ValidateToken_signed_window; [reflexivity..|exact Hw]. }
  split.
  - intros w' Hw. exists issued. split; [apply Hwin, Hw|]. repeat split.
  - intros [Hlo Hhi]. exists issued. split; [|repeat split].
    apply Hwin. unfold tail.
    pose proof (NewNumericDate_le (w 2%nat)).
    pose proof (NewNumericDate_gt (w 0%nat + 24 * time.Hour)).
    change time.Second with 1000000000 in *. lia.
Qed.

(** C5.  For a token that passes validation at the instant [now] and
    carries an [iat], a refresh at [now] fails as too old exactly when
    [now - iat] exceeds seven days; otherwise it returns a token, valid
    at once, whose expiry is the numeric date of [now + 24h]: the numeric
    date of [now] plus one day, which is [now + 24h] when [now] is a
    whole number of seconds.  A validation failure of the token presented
    comes back as the failure of the refresh. *)
Theorem C5_refresh_window (j : auth.JWTService) (tok : string) (now : time.Time) :
  (∀ claims issued,
     run (auth.ValidateToken j tok) (frozen now) = Ok claims →
     jwt.IssuedAt (auth.RegisteredClaims claims) = Some issued →
     let outcome := run (auth.RefreshToken j tok) (frozen now) in
     (outcome = Returns (Err (errors.New "token too old to refresh"))
      ↔ 7 * 24 * time.Hour < now - issued)
     ∧ (now - issued ≤ 7 * 24 * time.Hour →
        ∃ tok' claims',
          outcome = Returns (Ok tok')
          ∧ session.decoded tok' = Some claims'
          ∧ jwt.ExpiresAt (auth.RegisteredClaims claims')
            = Some (jwt.NewNumericDate (time.Add now (24 * time.Hour)))
          ∧ jwt.NewNumericDate (time.Add now (24 * time.Hour))
            = jwt.NewNumericDate now + 24 * time.Hour
          ∧ (now mod time.Second = 0 →
             jwt.ExpiresAt (auth.RegisteredClaims claims')
             = Some (now + 24 * time.Hour))
          ∧ run (auth.ValidateToken j tok') (frozen now) = Ok claims'))
  ∧ (∀ err,
       run (auth.ValidateToken j tok) (frozen now) = Err err →
       run (auth.RefreshToken j tok) (frozen now)
       = Returns (Err (errors.Wrap "cannot refresh invalid token" err))).
Proof.
  split.
  - intros claims issued Hv Hi outcome. subst outcome.
    assert (Hr : run (auth.RefreshToken j tok) (frozen now)
                 = fst (auth.RefreshToken j tok (frozen now))) by reflexivity.
    rewrite RefreshToken_frozen, Hv, Hi in Hr. cbn [fst] in Hr. rewrite Hr.
    clear Hr.
    destruct (7 * 24 * time.Hour <? now - issued) eqn:E.
    + split; [split; [lia | reflexivity] | lia].
    + split; [split; [discriminate | lia]|]. intros _.
      eexists _, _. split; [reflexivity|].
      split; [apply decoded_signed|].
      split; [reflexivity|]. split; [apply NewNumericDate_add_day|].
      split.
      { intros Hwhole. cbn. fold (time.Add now (24 * time.Hour)).
        rewrite NewNumericDate_add_day, (NewNumericDate_whole _ Hwhole).
        reflexivity. }
      eapply ValidateToken_signed_window; [reflexivity..|].
      cbn. change (frozen now 0%nat) with now.
      pose proof (NewNumericDate_le now).
      pose proof (NewNumericDate_gt (now + 24 * time.Hour)).
      rewrite Hour_value in *. change time.Second with 1000000000 in *. lia.
  - intros err Hv. unfold run at 1. rewrite RefreshToken_frozen, Hv. reflexivity.
Qed.

(** C6.  A successful refresh at the instant [now] returns a token whose
    decoded claims repeat the user id, email, roles and subject of the
    claims validated from the token presented, with [iat] and [nbf] the
    numeric date of [now] and [exp] that date plus 24 hours; the numeric
    date of [now] is [now] itself when [now] is a whole number of
    seconds.  The token presented is left as it was: validated after the
    refresh it yields the same claims. *)
Theorem C6_refresh_claims
    (j : auth.JWTService) (tok tok' : string) (now : time.Time)
    (claims : auth.Claims) :
  run (auth.ValidateToken j tok) (frozen now) = Ok claims →
  run (auth.RefreshToken j tok) (frozen now) = Returns (Ok tok') →
  ∃ claims',
    session.decoded tok' = Some claims'
    ∧ auth.UserID claims' = auth.UserID claims
    ∧ auth.Email claims' = auth.Email claims
    ∧ auth.Roles claims' = auth.Roles claims
    ∧ jwt.Subject (auth.RegisteredClaims claims')
      = jwt.Subject (auth.RegisteredClaims claims)
    ∧ jwt.IssuedAt (auth.RegisteredClaims claims')
      = Some (jwt.NewNumericDate now)
    ∧ jwt.NotBefore (auth.RegisteredClaims claims')
      = Some (jwt.NewNumericDate now)
    ∧ jwt.ExpiresAt (auth.RegisteredClaims claims')
      = Some (jwt.NewNumericDate now + 24 * time.Hour)
    ∧ (now mod time.Second = 0 → jwt.NewNumericDate now = now)
    ∧ run (_ ← auth.RefreshToken j tok; auth.ValidateToken j tok) (frozen now)
      = Ok claims.
Proof.
  intros Hv Hr. unfold run in Hr. rewrite RefreshToken_frozen, Hv in Hr.
  cbn [fst] in Hr.
  destruct (jwt.IssuedAt (auth.RegisteredClaims claims)) as [issued|];
    [|discriminate].
  destruct (7 * 24 * time.Hour <? now - issued); [discriminate|].
  injection Hr as <-. eexists. split; [apply decoded_signed|].
  cbn. rewrite <- NewNumericDate_add_day.
  repeat (split; [reflexivity|]). split; [apply NewNumericDate_whole|].
  unfold run, mbind, M_bind. rewrite RefreshToken_frozen. exact Hv.
Qed.

(** C8, as the code has it.  The seven days are counted from the [iat]
    of the token presented, and every refresh stamps its token with the
    instant of the refresh.  So a session whose refreshes each fall in
    the validity window of the token before goes on, however long ago the
    first token was issued.  After any session that went through, the
    next refresh is decided by the instant of the last refresh alone (of
    the issuance, when there was none): within the day that starts at its
    numeric date the refresh returns a token, outside of it the refresh
    reports the validation failure; it never reports an old token. *)
Theorem C8_window_restarts
    (j : auth.JWTService) (user : models.User) (t0 : time.Time)
    (instants : list time.Time) (tok0 : string) :
  run (auth.GenerateToken j user) (frozen t0) = Ok tok0 →
  (session.stepwise t0 instants →
     ∃ tok, session.refreshChain j tok0 instants = Returns (Ok tok))
  ∧ (∀ tok t,
       session.refreshChain j tok0 instants = Returns (Ok tok) →
       let start := jwt.NewNumericDate (List.last instants t0) in
       (start ≤ t < start + 24 * time.Hour →
          ∃ tok', run (auth.RefreshToken j tok) (frozen t) = Returns (Ok tok'))
       ∧ (¬ (start ≤ t < start + 24 * time.Hour) →
          ∃ err, run (auth.RefreshToken j tok) (frozen t)
                 = Returns (Err (errors.Wrap "cannot refresh invalid token" err)))).
Proof.
  intros Hg. destruct (GenerateToken_day_token j user t0) as (tok & Hg' & Hd).
  rewrite Hg in Hg'. injection Hg' as <-. split.
  - intros Hs. eapply refreshChain_stepwise; eassumption.
  - intros tok t Hc start.
    pose proof (refreshChain_day_token j instants _ _ _ Hd Hc) as Hd'.
    fold start in Hd'.
    destruct (day_token_refresh j tok start t Hd')
      as [(Hin & tok1 & Hr & _) | (Hout & err & Hr)].
    + split; [eauto | intros Hno; destruct (Hno Hin)].
    + split; [intros Hin; destruct (Hout Hin) | eauto].
Qed.

End TokenClaims.

(** ** The middleware *)

Section Middleware.
Context {codec : jwt.Codec auth.Claims}.

Lemma status_app w calls : status w = None → status (w ++ calls) = status calls.
Proof.
  induction w as [|[] w IH]; simpl; intros H;
    first [reflexivity | discriminate | auto].
Qed.

Lemma status_Error w msg code :
  status w = None → status (http.Error w msg code) = Some code.
Proof. intros H. unfold http.Error. rewrite status_app by assumption. reflexivity. Qed.

Lemma BearerHeader_not_empty h tok : BearerHeader h tok → h ≠ EmptyString.
Proof. intros [-> _]. discriminate. Qed.

Lemma BearerHeader_unique h tok tok' :
  BearerHeader h tok → BearerHeader h tok' → tok = tok'.
Proof.
  intros H1%Split_Bearer H2%Split_Bearer. congruence.
Qed.

(** The guard, branch by branch. *)
Lemma RequireAuth_missing m next w r clk :
  http.Get (http.header r) "Authorization" = EmptyString →
  auth.RequireAuth m next w r clk
  = (http.Error w "Authorization header required" http.StatusUnauthorized, clk).
Proof. intros H. unfold auth.RequireAuth. rewrite H. reflexivity. Qed.

(** The test on the parts of the header, read on the header itself. *)
Lemma parts_test h :
  let parts := strings.Split h " " in
  negb (length parts =? 2)%nat
  || negb (String.eqb (nth 0 parts EmptyString) "Bearer") = false
  ↔ ∃ tok, BearerHeader h tok ∧ nth 1 parts EmptyString = tok.
Proof.
  intros parts. subst parts. rewrite orb_false_iff, !negb_false_iff.
  rewrite Nat.eqb_eq, String.eqb_eq. split.
  - intros [Hlen Hscheme].
    destruct (strings.Split h " ") as [|scheme [|tok [|? ?]]] eqn:Hs;
      try discriminate.
    cbn in Hscheme. subst scheme. exists tok. split; [|reflexivity].
    by apply Split_Bearer.
  - intros (tok & Hb%Split_Bearer & _). rewrite Hb. split; reflexivity.
Qed.

Lemma RequireAuth_format m next w r clk :
  http.Get (http.header r) "Authorization" ≠ EmptyString →
  (∀ tok, ¬ BearerHeader (http.Get (http.header r) "Authorization") tok) →
  auth.RequireAuth m next w r clk
  = (http.Error w "Invalid authorization header format"
                http.StatusUnauthorized, clk).
Proof.
  intros Hne Hno. unfold auth.RequireAuth.
  apply String.eqb_neq in Hne. rewrite Hne. cbv zeta.
  destruct (negb _ || negb _) eqn:Ht; [reflexivity|].
  apply parts_test in Ht as (tok & Hb & _). destruct (Hno tok Hb).
Qed.

Lemma RequireAuth_bearer m next w r clk tok :
  BearerHeader (http.Get (http.header r) "Authorization") tok →
  auth.RequireAuth m next w r clk =
    match auth.ValidateToken (auth.jwtService m) tok clk with
    | (Ok claims, clk') => next w (identified r claims) clk'
    | (Err _, clk') =>
        (http.Error w "Invalid or expired token" http.StatusUnauthorized, clk')
    end.
Proof.
  intros Hb. pose proof (BearerHeader_not_empty _ _ Hb) as Hne.
  unfold auth.RequireAuth.
  apply String.eqb_neq in Hne. rewrite Hne. cbv zeta.
  assert (Ht : ∃ tok', BearerHeader (http.Get (http.header r) "Authorization") tok'
                 ∧ nth 1 (strings.Split (http.Get (http.header r) "Authorization") " ")
                       EmptyString = tok').
  { exists tok. split; [assumption|]. apply Split_Bearer in Hb. by rewrite Hb. }
  pose proof Ht as (tok' & Hb' & Hnth).
  rewrite (BearerHeader_unique _ _ _ Hb' Hb) in Hnth.
  apply parts_test in Ht. cbv zeta in Ht. rewrite Ht, Hnth.
  unfold mbind, M_bind.
  destruct (auth.ValidateToken (auth.jwtService m) tok clk) as [[claims|err] clk'];
    reflexivity.
Qed.

Lemma words_Bearer h tok :
  BearerHeader h tok → tok ≠ EmptyString → words h = ["Bearer"; tok].
Proof.
  intros Hb%Split_Bearer Hne. unfold words. rewrite Hb.
  apply String.eqb_neq in Hne. cbn. rewrite Hne. reflexivity.
Qed.

(** Every request is of one of the three kinds. *)
Lemma header_cases h :
  h = EmptyString
  ∨ (h ≠ EmptyString ∧ ∀ tok, ¬ BearerHeader h tok)
  ∨ (∃ tok, BearerHeader h tok).
Proof.
  destruct (decide (h = EmptyString)) as [|Hne]; [by left|].
  destruct (strings.Split h " ") as [|scheme [|tok [|? ?]]] eqn:Hs;
    try (right; left; split; [assumption|];
         intros tok' Hb%Split_Bearer; congruence).
  destruct (decide (scheme = "Bearer")) as [->|Hsch].
  - right; right. exists tok. by apply Split_Bearer.
  - right; left. split; [assumption|].
    intros tok' Hb%Split_Bearer. congruence.
Qed.

(** The identity can be read back from the context the guard builds. *)
Lemma identified_identity r claims :
  auth.GetUserIDFromContext (http.Context (identified r claims))
    = (auth.UserID claims, true)
  ∧ auth.GetUserEmailFromContext (http.Context (identified r claims))
    = (auth.Email claims, true)
  ∧ auth.GetUserRolesFromContext (http.Context (identified r claims))
    = (auth.Roles claims, true).
Proof. repeat split. Qed.

Lemma identified_roles r claims :
  context.Value (http.Context (identified r claims)) auth.UserRolesKey
  = context.any_strings (auth.Roles claims).
Proof. reflexivity. Qed.

(** The loops decide membership. *)
Lemma hasRole_spec roles role : auth.hasRole roles role = true ↔ role ∈ roles.
Proof.
  induction roles as [|userRole rest IH]; simpl.
  - split; [discriminate | by intros H%elem_of_nil].
  - destruct (String.eqb userRole role) eqn:E.
    + apply String.eqb_eq in E. subst. split; [intros _; left | reflexivity].
    + apply String.eqb_neq in E. rewrite IH, elem_of_cons. intuition congruence.
Qed.

Lemma isAllowed_spec userRole allowedRoles :
  auth.isAllowed userRole allowedRoles = true ↔ userRole ∈ allowedRoles.
Proof.
  induction allowedRoles as [|allowedRole rest IH]; simpl.
  - split; [discriminate | by intros H%elem_of_nil].
  - destruct (String.eqb userRole allowedRole) eqn:E.
    + apply String.eqb_eq in E. subst. split; [intros _; left | reflexivity].
    + apply String.eqb_neq in E. rewrite IH, elem_of_cons. intuition congruence.
Qed.

Lemma hasAnyRole_spec roles allowedRoles :
  auth.hasAnyRole roles allowedRoles = true
  ↔ ∃ x, x ∈ roles ∧ x ∈ allowedRoles.
Proof.
  induction roles as [|userRole rest IH]; simpl.
  - split; [discriminate | by intros (x & H%elem_of_nil & _)].
  - destruct (auth.isAllowed userRole allowedRoles) eqn:E.
    + apply isAllowed_spec in E. split; [|reflexivity].
      intros _. exists userRole. split; [left | assumption].
    + rewrite IH. split.
      * intros (x & Hx & Ha). exists x. split; [by right | assumption].
      * intros (x & Hx & Ha). apply elem_of_cons in Hx as [->|Hx].
        -- apply isAllowed_spec in Ha. congruence.
        -- eauto.
Qed.

(** The role guards on a request that authenticates. *)
Lemma RequireRole_authenticated m role next w r clk tok claims clk' :
  BearerHeader (http.Get (http.header r) "Authorization") tok →
  auth.ValidateToken (auth.jwtService m) tok clk = (Ok claims, clk') →
  auth.RequireRole m role next w r clk =
    if auth.hasRole (auth.Roles claims) role
    then next w (identified r claims) clk'
    else (http.Error w "Insufficient permissions" http.StatusForbidden, clk').
Proof.
  intros Hb Hv. unfold auth.RequireRole.
  rewrite (RequireAuth_bearer _ _ _ _ _ _ Hb), Hv.
  cbv beta zeta. rewrite identified_roles. cbn [context.assert_strings negb].
  destruct (auth.hasRole (auth.Roles claims) role); reflexivity.
Qed.

Lemma RequireAnyRole_authenticated m allowed next w r clk tok claims clk' :
  BearerHeader (http.Get (http.header r) "Authorization") tok →
  auth.ValidateToken (auth.jwtService m) tok clk = (Ok claims, clk') →
  auth.RequireAnyRole m allowed next w r clk =
    if auth.hasAnyRole (auth.Roles claims) allowed
    then next w (identified r claims) clk'
    else (http.Error w "Insufficient permissions" http.StatusForbidden, clk').
Proof.
  intros Hb Hv. unfold auth.RequireAnyRole.
  rewrite (RequireAuth_bearer _ _ _ _ _ _ Hb), Hv.
  cbv beta zeta. rewrite identified_roles. cbn [context.assert_strings negb].
  destruct (auth.hasAnyRole (auth.Roles claims) allowed); reflexivity.
Qed.

(** What the authentication guard does with any wrapped handler: it
    answers 401 by itself, or it runs the handler on the identified
    request. *)
Lemma RequireAuth_cases m w r clk :
  (∃ msg clk', ∀ inner,
     auth.RequireAuth m inner w r clk
     = (http.Error w msg http.StatusUnauthorized, clk'))
  ∨ (∃ tok claims clk',
       BearerHeader (http.Get (http.header r) "Authorization") tok
       ∧ auth.ValidateToken (auth.jwtService m) tok clk = (Ok claims, clk')
       ∧ ∀ inner,
           auth.RequireAuth m inner w r clk = inner w (identified r claims) clk').
Proof.
  destruct (header_cases (http.Get (http.header r) "Authorization"))
    as [He | [[Hne Hno] | [tok Hb]]].
  - left. eexists _, _. intros inner. by apply RequireAuth_missing.
  - left. eexists _, _. intros inner. by apply RequireAuth_format.
  - destruct (auth.ValidateToken (auth.jwtService m) tok clk)
      as [[claims|err] clk'] eqn:Hv.
    + right. exists tok, claims, clk'.
      split; [assumption|]. split; [exact Hv|]. intros inner. rewrite (RequireAuth_bearer _ _ _ _ _ _ Hb), Hv. reflexivity.
    + left. eexists _, clk'. intros inner.
      rewrite (RequireAuth_bearer _ _ _ _ _ _ Hb), Hv. reflexivity.
Qed.

End Middleware.

(** ** Claims about the middleware *)

Section MiddlewareClaims.
Context {codec : jwt.Codec auth.Claims}.

Context {laws : jwt.CodecLaws codec}.

(** C2.  With [h] the value of the [Authorization] header: when the
    header is absent, when [h] is not the word [Bearer], one blank and a
    token without blanks, and when validation of that token fails, the
    guard answers 401 and the wrapped handler plays no part in the
    outcome.  So it does whenever the words of [h] are not exactly two
    with [Bearer] the first.  When validation succeeds the guard runs the
    wrapped handler on the request whose context holds the user id, email
    and roles of the claims.  There is no other case. *)
Theorem C2_authentication_guard
    (m : auth.Middleware) (next : http.HandlerFunc)
    (w : http.ResponseWriter) (r : http.Request) (clk : Clock) :
  let h := http.Get (http.header r) "Authorization" in
  (http.header r !! "Authorization" = None →
     auth.RequireAuth m next w r clk
     = (http.Error w "Authorization header required"
                   http.StatusUnauthorized, clk))
  ∧ (h ≠ EmptyString → (∀ tok, ¬ BearerHeader h tok) →
     auth.RequireAuth m next w r clk
     = (http.Error w "Invalid authorization header format"
                   http.StatusUnauthorized, clk))
  ∧ ((∀ tok, words h ≠ ["Bearer"; tok]) →
     ∃ msg clk', ∀ inner,
       auth.RequireAuth m inner w r clk
       = (http.Error w msg http.StatusUnauthorized, clk'))
  ∧ (∀ tok err clk',
       BearerHeader h tok →
       auth.ValidateToken (auth.jwtService m) tok clk = (Err err, clk') →
       auth.RequireAuth m next w r clk
       = (http.Error w "Invalid or expired token" http.StatusUnauthorized, clk'))
  ∧ (∀ tok claims clk',
       BearerHeader h tok →
       auth.ValidateToken (auth.jwtService m) tok clk = (Ok claims, clk') →
       auth.RequireAuth m next w r clk = next w (identified r claims) clk'
       ∧ auth.GetUserIDFromContext (http.Context (identified r claims))
         = (auth.UserID claims, true)
       ∧ auth.GetUserEmailFromContext (http.Context (identified r claims))
         = (auth.Email claims, true)
       ∧ auth.GetUserRolesFromContext (http.Context (identified r claims))
         = (auth.Roles claims, true))
  ∧ ((∃ tok claims clk',
        BearerHeader h tok
        ∧ auth.ValidateToken (auth.jwtService m) tok clk = (Ok claims, clk'))
     ∨ (∃ msg clk',
          (∀ inner, auth.RequireAuth m inner w r clk
                    = (http.Error w msg http.StatusUnauthorized, clk'))
          ∧ (status w = None →
             status (http.Error w msg http.StatusUnauthorized) = Some 401))).
Proof.
  intros h. repeat apply conj.
  - intros Habs. apply RequireAuth_missing. unfold http.Get. by rewrite Habs.
  - apply RequireAuth_format.
  - intros Hwords.
    destruct (header_cases h) as [He | [[Hne Hno] | [tok Hb]]].
    + eexists _, _. intros inner. by apply RequireAuth_missing.
    + eexists _, _. intros inner. by apply RequireAuth_format.
    + destruct (decide (tok = EmptyString)) as [->|Htok];
        [|destruct (Hwords tok (words_Bearer _ _ Hb Htok))].
      destruct (ValidateToken_empty (auth.jwtService m) clk) as [err Hv].
      eexists _, _. intros inner.
      rewrite (RequireAuth_bearer _ _ _ _ _ _ Hb), Hv. reflexivity.
  - intros tok err clk' Hb Hv.
    rewrite (RequireAuth_bearer _ _ _ _ _ _ Hb), Hv. reflexivity.
  - intros tok claims clk' Hb Hv. split; [|apply identified_identity].
    rewrite (RequireAuth_bearer _ _ _ _ _ _ Hb), Hv. reflexivity.
  - destruct (RequireAuth_cases m w r clk)
      as [(msg & clk' & H) | (tok & claims & clk' & Hb & Hv & _)].
    + right. exists msg, clk'. split; [exact H | apply status_Error].
    + left. eauto.
Qed.

(** C3.  On a request that authenticates with claims whose role list is
    [R], the single-role guard runs the wrapped handler on the identified
    request when the required role is an element of [R] and answers 403
    otherwise; the any-of guard does so according to whether some
    element of [R] is among the allowed roles.  Both tests give the same
    answer on any list with the same elements as [R]. *)
Theorem C3_role_guards
    (m : auth.Middleware) (role : string) (allowed : list string)
    (next : http.HandlerFunc) (w : http.ResponseWriter) (r : http.Request)
    (clk clk' : Clock) (tok : string) (claims : auth.Claims) :
  BearerHeader (http.Get (http.header r) "Authorization") tok →
  auth.ValidateToken (auth.jwtService m) tok clk = (Ok claims, clk') →
  let R := auth.Roles claims in
  let forbidden :=
    (http.Error w "Insufficient permissions" http.StatusForbidden, clk') in
  (role ∈ R →
     auth.RequireRole m role next w r clk = next w (identified r claims) clk')
  ∧ (role ∉ R → auth.RequireRole m role next w r clk = forbidden)
  ∧ ((∃ x, x ∈ R ∧ x ∈ allowed) →
     auth.RequireAnyRole m allowed next w r clk
     = next w (identified r claims) clk')
  ∧ ((∀ x, x ∈ R → x ∉ allowed) →
     auth.RequireAnyRole m allowed next w r clk = forbidden)
  ∧ (∀ R' : list string,
       (∀ x, x ∈ R' ↔ x ∈ R) →
       auth.hasRole R' role = auth.hasRole R role
       ∧ auth.hasAnyRole R' allowed = auth.hasAnyRole R allowed).
Proof.
  intros Hb Hv R forbidden. subst R forbidden.
  rewrite (RequireRole_authenticated _ _ _ _ _ _ _ _ _ Hb Hv).
  rewrite (RequireAnyRole_authenticated _ _ _ _ _ _ _ _ _ Hb Hv).
  repeat apply conj.
  - intros Hin%hasRole_spec. by rewrite Hin.
  - intros Hnot. destruct (auth.hasRole _ role) eqn:E; [|reflexivity].
    apply hasRole_spec in E. contradiction.
  - intros Hex%hasAnyRole_spec. by rewrite Hex.
  - intros Hnone. destruct (auth.hasAnyRole _ allowed) eqn:E; [|reflexivity].
    apply hasAnyRole_spec in E as (x & Hx & Ha). destruct (Hnone x Hx Ha).
  - intros R' Hsame. split.
    + apply eq_true_iff_eq. rewrite !hasRole_spec. apply Hsame.
    + apply eq_true_iff_eq. rewrite !hasAnyRole_spec.
      split; intros (x & Hx & Ha); exists x; split;
        first [assumption | by apply Hsame].
Qed.

(** C9.  Whatever the request, a role guard ends in one of three ways:
    a 401 from the authentication step, the 403 of the role test, or
    the wrapped handler run on a request in whose context the roles are
    found as a list of strings.  The answer 500 of the guard is none of
    them: where the role test runs, the roles are there.  So a guarded
    handler answers 500 only if the wrapped handler does. *)
Theorem C9_roles_always_present
    (m : auth.Middleware) (role : string) (allowed : list string)
    (next : http.HandlerFunc) (w : http.ResponseWriter) (r : http.Request)
    (clk : Clock) :
  let ends (outcome : http.ResponseWriter * Clock) : Prop :=
    (∃ msg clk', outcome = (http.Error w msg http.StatusUnauthorized, clk'))
    ∨ (∃ clk', outcome
               = (http.Error w "Insufficient permissions"
                             http.StatusForbidden, clk'))
    ∨ (∃ claims clk',
         outcome = next w (identified r claims) clk'
         ∧ context.assert_strings
             (context.Value (http.Context (identified r claims))
                            auth.UserRolesKey)
           = (auth.Roles claims, true)) in
  ends (auth.RequireRole m role next w r clk)
  ∧ ends (auth.RequireAnyRole m allowed next w r clk)
  ∧ (status w = None →
     (∀ r' clk', status (fst (next w r' clk'))
                 ≠ Some http.StatusInternalServerError) →
     status (fst (auth.RequireRole m role next w r clk))
       ≠ Some http.StatusInternalServerError
     ∧ status (fst (auth.RequireAnyRole m allowed next w r clk))
       ≠ Some http.StatusInternalServerError).
Proof.
  intros ends.
  assert (Hends : ends (auth.RequireRole m role next w r clk)
                  ∧ ends (auth.RequireAnyRole m allowed next w r clk)).
  { subst ends. cbv beta.
    destruct (RequireAuth_cases m w r clk)
      as [(msg & clk' & H) | (tok & claims & clk' & Hb & Hv & _)].
    - split; left; exists msg, clk'; apply H.
    - rewrite (RequireRole_authenticated _ _ _ _ _ _ _ _ _ Hb Hv).
      rewrite (RequireAnyRole_authenticated _ _ _ _ _ _ _ _ _ Hb Hv).
      split.
      + destruct (auth.hasRole _ _); right; [right | left]; eauto.
      + destruct (auth.hasAnyRole _ _); right; [right | left]; eauto. }
  destruct Hends as [H1 H2]. split; [exact H1|]. split; [exact H2|].
  intros Hw Hnext.
  assert (Hno : ∀ outcome, ends outcome →
            status (fst outcome) ≠ Some http.StatusInternalServerError).
  { intros outcome [(msg & clk' & ->) | [(clk' & ->) | (claims & clk' & -> & _)]];
      cbn [fst]; first [apply Hnext | rewrite status_Error by assumption; discriminate]. }
  split; apply Hno; assumption.
Qed.

(** C10, as the code has it.  The any-of guard built with no allowed
    role never runs the wrapped handler.  A request authenticates when
    its header is a bearer credential the service accepts.  The guard
    answers 403 to every request that authenticates, whatever roles the
    principal has, and 401 to every request that does not: a missing
    header, a header of another form, a token the service refuses.  On a
    response not yet begun the status is 403 exactly for the requests
    that authenticate and 401 exactly for the others. *)
Theorem C10_no_allowed_roles
    (m : auth.Middleware) (w : http.ResponseWriter) (r : http.Request)
    (clk : Clock) :
  let h := http.Get (http.header r) "Authorization" in
  let authenticated :=
    ∃ tok claims clk',
      BearerHeader h tok
      ∧ auth.ValidateToken (auth.jwtService m) tok clk = (Ok claims, clk') in
  (∀ tok claims clk',
     BearerHeader h tok →
     auth.ValidateToken (auth.jwtService m) tok clk = (Ok claims, clk') →
     ∀ next,
       auth.RequireAnyRole m [] next w r clk
       = (http.Error w "Insufficient permissions" http.StatusForbidden, clk'))
  ∧ (¬ authenticated →
     ∃ msg clk', ∀ next,
       auth.RequireAnyRole m [] next w r clk
       = (http.Error w msg http.StatusUnauthorized, clk'))
  ∧ (http.header r !! "Authorization" = None →
     ∀ next,
       auth.RequireAnyRole m [] next w r clk
       = (http.Error w "Authorization header required"
                     http.StatusUnauthorized, clk))
  ∧ (h ≠ EmptyString → (∀ tok, ¬ BearerHeader h tok) →
     ∀ next,
       auth.RequireAnyRole m [] next w r clk
       = (http.Error w "Invalid authorization header format"
                     http.StatusUnauthorized, clk))
  ∧ (∀ tok err clk',
       BearerHeader h tok →
       auth.ValidateToken (auth.jwtService m) tok clk = (Err err, clk') →
       ∀ next,
         auth.RequireAnyRole m [] next w r clk
         = (http.Error w "Invalid or expired token"
                       http.StatusUnauthorized, clk'))
  ∧ (∃ answer, ∀ next, auth.RequireAnyRole m [] next w r clk = answer)
  ∧ (status w = None →
     ∀ next,
       (status (fst (auth.RequireAnyRole m [] next w r clk))
        = Some http.StatusForbidden ↔ authenticated)
       ∧ (status (fst (auth.RequireAnyRole m [] next w r clk))
          = Some http.StatusUnauthorized ↔ ¬ authenticated)).
Proof.
  intros h authenticated.
  assert (Hnone : ∀ roles, auth.hasAnyRole roles [] = false).
  { induction roles; simpl; auto. }
  assert (Hyes : ∀ tok claims clk',
            BearerHeader h tok →
            auth.ValidateToken (auth.jwtService m) tok clk = (Ok claims, clk') →
            ∀ next,
              auth.RequireAnyRole m [] next w r clk
              = (http.Error w "Insufficient permissions" http.StatusForbidden,
                 clk')).
  { intros tok claims clk' Hb Hv next.
    rewrite (RequireAnyRole_authenticated _ _ _ _ _ _ _ _ _ Hb Hv), Hnone.
    reflexivity. }
  assert (Hcases :
            (¬ authenticated
             ∧ ∃ msg clk', ∀ next,
                 auth.RequireAnyRole m [] next w r clk
                 = (http.Error w msg http.StatusUnauthorized, clk'))
            ∨ (authenticated
               ∧ ∃ clk', ∀ next,
                   auth.RequireAnyRole m [] next w r clk
                   = (http.Error w "Insufficient permissions"
                                 http.StatusForbidden, clk'))).
  { destruct (RequireAuth_cases m w r clk)
      as [(msg & clk' & H) | (tok & claims & clk' & Hb & Hv & _)].
    - left. split.
      + intros (tok & claims & clk'' & Hb & Hv).
        pose proof (Hyes _ _ _ Hb Hv (λ w0 _, mret w0)) as Hf.
        unfold auth.RequireAnyRole in Hf. rewrite H in Hf.
        injection Hf as Hf _. apply app_inv_head in Hf. discriminate Hf.
      + exists msg, clk'. intros next. unfold auth.RequireAnyRole. apply H.
    - right. split; [by exists tok, claims, clk'|].
      exists clk'. exact (Hyes _ _ _ Hb Hv). }
  split; [exact Hyes|].
  split.
  { intros Hno. destruct Hcases as [[_ H] | [Hauth _]]; [exact H|].
    destruct (Hno Hauth). }
  split.
  { intros Hmissing next. unfold auth.RequireAnyRole.
    apply RequireAuth_missing. unfold http.Get. by rewrite Hmissing. }
  split.
  { intros Hne Hform next. unfold auth.RequireAnyRole.
    by apply RequireAuth_format. }
  split.
  { intros tok err clk' Hb Hv next. unfold auth.RequireAnyRole.
    rewrite (RequireAuth_bearer _ _ _ _ _ _ Hb), Hv. reflexivity. }
  split.
  { destruct Hcases as [[_ (msg & clk' & H)] | [_ (clk' & H)]];
      eexists; exact H. }
  intros Hw next.
  destruct Hcases as [[Hno (msg & clk' & H)] | [Hauth (clk' & H)]];
    rewrite H; cbn [fst]; rewrite status_Error by assumption.
  - split; (split; [|done]); [discriminate | by intros _].
  - split; (split; [done|]); [by intros _ | intros Hno; exfalso; by apply Hno].
Qed.

End MiddlewareClaims.

(** ** The definitions at work on the sample *)

Lemma occurs_append c s t : occurs c (s +:+ t) = occurs c s || occurs c t.
Proof.
  induction s as [|d s IH]; [reflexivity|].
  rewrite append_String. cbn [occurs]. rewrite IH. apply orb_assoc.
Qed.

Lemma sample_token t :
  sample.token_at t = session.signed sample.service (sample.claims_at t).
Proof. reflexivity. Qed.

Lemma sample_issue t :
  run (auth.GenerateToken sample.service sample.alice) (frozen t)
  = Ok (sample.token_at t).
Proof. reflexivity. Qed.

Lemma sample_token_no_blank t : occurs " " (sample.token_at t) = false.
Proof.
  rewrite sample_token. unfold session.signed.
  cbn [jwt.SigningString jwt.EncodeSegment wire.codec].
  rewrite !occurs_append.
  rewrite !segment_free, payload_free by discriminate. reflexivity.
Qed.

Lemma sample_bearer t :
  BearerHeader
    (http.Get (http.header (sample.request ["Bearer " +:+ sample.token_at t]))
              "Authorization")
    (sample.token_at t).
Proof.
  unfold http.Get, sample.request, http.Header. cbn [http.header].
  rewrite lookup_singleton_eq. split; [reflexivity | apply sample_token_no_blank].
Qed.

Lemma sample_validate t now :
  jwt.NewNumericDate t ≤ now < jwt.NewNumericDate (t + 24 * time.Hour) →
  auth.ValidateToken sample.service (sample.token_at t) (frozen now)
  = (Ok (sample.claims_at t), frozen now).
Proof.
  intros Hw. rewrite ValidateToken_frozen. f_equal. rewrite sample_token.
  eapply (ValidateToken_signed_window (laws := wire_laws));
    [reflexivity | reflexivity | exact Hw].
Qed.

(** Numeric dates of the instants used below. *)
Lemma sample_window :
  jwt.NewNumericDate 0 ≤ 5 * time.Second < jwt.NewNumericDate (0 + 24 * time.Hour).
Proof. by vm_compute. Qed.

(** ** Issuer of issued and of refreshed tokens *)

Lemma issuers_of_session `{laws : !jwt.CodecLaws codec}
    (j : auth.JWTService) (user : models.User) (t : time.Time) :
  ∃ issued refreshed c1 c2,
    run (auth.GenerateToken j user) (frozen t) = Ok issued
    ∧ run (auth.RefreshToken j issued) (frozen t) = Returns (Ok refreshed)
    ∧ session.decoded issued = Some c1
    ∧ session.decoded refreshed = Some c2
    ∧ jwt.Issuer (auth.RegisteredClaims c1) = "goapp"
    ∧ jwt.Issuer (auth.RegisteredClaims c2) = "auth-app".
Proof.
  unfold run at 1. rewrite GenerateToken_eq. cbn [fst].
  match goal with |- context [session.signed j ?c] => set (c1 := c) end.
  assert (Hv : run (auth.ValidateToken j (session.signed j c1)) (frozen t) = Ok c1).
  { eapply ValidateToken_signed_window; [reflexivity..|].
    unfold frozen.
    pose proof (NewNumericDate_le t).
    pose proof (NewNumericDate_gt (t + 24 * time.Hour)).
    rewrite Hour_value in *. change time.Second with 1000000000 in *. lia. }
  assert (Hr : run (auth.RefreshToken j (session.signed j c1)) (frozen t)
               = fst (auth.RefreshToken j (session.signed j c1) (frozen t)))
    by reflexivity.
  rewrite RefreshToken_frozen, Hv in Hr. cbn [fst] in Hr.
  change (jwt.IssuedAt (auth.RegisteredClaims c1))
    with (Some (jwt.NewNumericDate t)) in Hr.
  cbv iota in Hr.
  assert (E : (7 * 24 * time.Hour <? t - jwt.NewNumericDate t) = false).
  { apply Z.ltb_ge. pose proof (NewNumericDate_gt t). rewrite Hour_value.
    change time.Second with 1000000000 in *. lia. }
  rewrite E in Hr.
  eexists _, _, _, _. split; [reflexivity|]. split; [exact Hr|].
  split; [apply decoded_signed|]. split; [apply decoded_signed|].
  split; reflexivity.
Qed.

(** C7.  The token issued to the sample principal names the issuer
    [goapp]; the token obtained by refreshing it names [auth-app].  The
    two issuers differ. *)
Theorem C7_issuer_differs :
  ∃ issued refreshed c1 c2,
    run (auth.GenerateToken sample.service sample.alice) (frozen 0) = Ok issued
    ∧ run (auth.RefreshToken sample.service issued) (frozen 0)
      = Returns (Ok refreshed)
    ∧ session.decoded issued = Some c1
    ∧ session.decoded refreshed = Some c2
    ∧ jwt.Issuer (auth.RegisteredClaims c1) = "goapp"
    ∧ jwt.Issuer (auth.RegisteredClaims c2) = "auth-app"
    ∧ jwt.Issuer (auth.RegisteredClaims c1) ≠ jwt.Issuer (auth.RegisteredClaims c2).
Proof.
  destruct (issuers_of_session (laws := wire_laws) sample.service sample.alice 0)
    as (issued & refreshed & c1 & c2 & Hg & Hr & H1 & H2 & Hi1 & Hi2).
  exists issued, refreshed, c1, c2. repeat (split; [assumption|]).
  rewrite Hi1, Hi2. discriminate.
Qed.

(** ** Counterexamples *)

(** C8 as stated fails.  The sample token is issued at instant 0 and
    refreshed every 20 hours; the ninth refresh, 180 hours (seven and a
    half days) after the original issuance, returns a token. *)
Lemma C8_counterexample :
  let h := time.Hour in
  7 * 24 * time.Hour < 180 * h - 0
  ∧ ∃ tok tok',
      session.refreshChain sample.service (sample.token_at 0)
        [20 * h; 40 * h; 60 * h; 80 * h; 100 * h; 120 * h; 140 * h; 160 * h]
      = Returns (Ok tok)
      ∧ run (auth.RefreshToken sample.service tok) (frozen (180 * h))
        = Returns (Ok tok')
      ∧ run (auth.RefreshToken sample.service tok) (frozen (180 * h))
        ≠ Returns (Err (errors.New "token too old to refresh")).
Proof.
  intros h. split; [by vm_compute|].
  destruct (GenerateToken_day_token sample.service sample.alice 0)
    as (tok0 & Hg & Hd).
  rewrite sample_issue in Hg. injection Hg as <-.
  destruct (refreshChain_stepwise (laws := wire_laws) sample.service
              [20 * h; 40 * h; 60 * h; 80 * h; 100 * h; 120 * h; 140 * h;
               160 * h; 180 * h] _ 0 Hd) as [tok' Hchain].
  { repeat split; by vm_compute. }
  change [20 * h; 40 * h; 60 * h; 80 * h; 100 * h; 120 * h; 140 * h;
          160 * h; 180 * h]
    with ([20 * h; 40 * h; 60 * h; 80 * h; 100 * h; 120 * h; 140 * h; 160 * h]
          ++ [180 * h]) in Hchain.
  apply refreshChain_snoc in Hchain as (tok & Hprefix & Hlast).
  exists tok, tok'. split; [exact Hprefix|]. split; [exact Hlast|].
  rewrite Hlast. discriminate.
Qed.

(** C10 as stated fails.  A request without credentials to the guard
    built with no allowed role is answered 401, not 403. *)
Lemma C10_counterexample :
  status (run (auth.RequireAnyRole sample.guard [] sample.operation []
                 sample.anonymous) (frozen 0))
  = Some http.StatusUnauthorized
  ∧ status (run (auth.RequireAnyRole sample.guard [] sample.operation []
                   sample.anonymous) (frozen 0))
    ≠ Some http.StatusForbidden.
Proof.
  assert (H : run (auth.RequireAnyRole sample.guard [] sample.operation []
                     sample.anonymous) (frozen 0)
              = http.Error [] "Authorization header required"
                           http.StatusUnauthorized).
  { unfold run, auth.RequireAnyRole. rewrite RequireAuth_missing; reflexivity. }
  rewrite H. split; [reflexivity | discriminate].
Qed.

(** ** The theorems at the sample *)

Lemma C1_witness :
  ∃ claims,
    run (auth.ValidateToken sample.service (sample.token_at 0)) (frozen 0)
      = Ok claims
    ∧ auth.UserID claims = 7
    ∧ auth.Email claims = "alice@example.com"
    ∧ auth.Roles claims = ["user"].
Proof.
  destruct (C1_round_trip (laws := wire_laws) sample.service sample.alice
              (frozen 0)) as (tok & Hg & _ & Hnow).
  rewrite sample_issue in Hg. injection Hg as <-.
  apply Hnow. split; by vm_compute.
Defined.

Lemma C4_witness :
  (∃ claims,
     run (auth.ValidateToken sample.service (sample.token_at 0))
         (frozen (5 * time.Second)) = Ok claims)
  ∧ (∃ err,
       run (auth.ValidateToken sample.service (sample.token_at 0))
           (frozen (24 * time.Hour)) = Err err
       ∧ errors.Is err jwt.ErrTokenExpired = true).
Proof.
  pose proof (λ w,
    C4_validity_window sample.service (sample.token_at 0) _ _
      (jwt.NewNumericDate 0) (jwt.NewNumericDate (0 + 24 * time.Hour)) w
      (parse_signed_token (laws := wire_laws) sample.service (sample.claims_at 0))
      eq_refl eq_refl eq_refl eq_refl) as H.
  split.
  - apply (H (frozen (5 * time.Second))). split; by vm_compute.
  - apply (H (frozen (24 * time.Hour))). by vm_compute.
Defined.

Lemma C5_witness :
  (∃ tok',
     run (auth.RefreshToken sample.service (sample.token_at 0))
         (frozen (1 * time.Hour)) = Returns (Ok tok'))
  ∧ run (auth.RefreshToken sample.service
           (session.signed sample.service sample.long_lived))
        (frozen (8 * 24 * time.Hour))
    = Returns (Err (errors.New "token too old to refresh")).
Proof.
  split.
  - destruct (C5_refresh_window (laws := wire_laws) sample.service
                (sample.token_at 0) (1 * time.Hour)) as [H _].
    destruct (H (sample.claims_at 0) (jwt.NewNumericDate 0)) as [_ Hok].
    + unfold run; rewrite sample_validate; [reflexivity | split; by vm_compute].
    + reflexivity.
    + destruct Hok as (tok' & claims' & Hr & _); [by vm_compute | eauto].
  - destruct (C5_refresh_window (laws := wire_laws) sample.service
                (session.signed sample.service sample.long_lived)
                (8 * 24 * time.Hour)) as [H _].
    destruct (H sample.long_lived 0) as [Hold _].
    + eapply (ValidateToken_signed_window (laws := wire_laws));
        [reflexivity | reflexivity | split; by vm_compute].
    + reflexivity.
    + apply Hold. by vm_compute.
Defined.

Lemma C6_witness :
  ∃ tok' claims',
    run (auth.RefreshToken sample.service (sample.token_at 0))
        (frozen (1 * time.Hour)) = Returns (Ok tok')
    ∧ session.decoded tok' = Some claims'
    ∧ auth.UserID claims' = 7
    ∧ auth.Roles claims' = ["user"]
    ∧ jwt.Subject (auth.RegisteredClaims claims') = "user_7"
    ∧ jwt.IssuedAt (auth.RegisteredClaims claims') = Some (1 * time.Hour).
Proof.
  destruct (GenerateToken_day_token sample.service sample.alice 0)
    as (tok0 & Hg & Hd).
  rewrite sample_issue in Hg. injection Hg as <-.
  destruct (day_token_refresh (laws := wire_laws) _ _ _ (1 * time.Hour) Hd)
    as [(_ & tok' & Hr & _) | (Hout & _)];
    [|exfalso; apply Hout; split; by vm_compute].
  destruct (C6_refresh_claims (laws := wire_laws) sample.service
              (sample.token_at 0) tok' (1 * time.Hour) (sample.claims_at 0))
    as (claims' & Hdec & Hid & _ & Hroles & Hsub & Hiat & _).
  - unfold run; rewrite sample_validate; [reflexivity | split; by vm_compute].
  - exact Hr.
  - exists tok', claims'. repeat (split; [assumption|]). exact Hiat.
Defined.

Lemma C8_witness :
  ∃ tok,
    session.refreshChain sample.service (sample.token_at 0)
      [20 * time.Hour; 40 * time.Hour] = Returns (Ok tok).
Proof.
  destruct (C8_window_restarts (laws := wire_laws) sample.service sample.alice
              0 [20 * time.Hour; 40 * time.Hour] (sample.token_at 0)
              (sample_issue 0)) as [H _].
  apply H. repeat split; by vm_compute.
Defined.

Lemma C2_witness :
  run (auth.RequireAuth sample.guard sample.operation [] sample.anonymous)
      (frozen 0)
  = http.Error [] "Authorization header required" http.StatusUnauthorized
  ∧ (∃ msg,
       run (auth.RequireAuth sample.guard sample.operation []
              (sample.request ["Basic YWxpY2U6eA"])) (frozen 0)
       = http.Error [] msg http.StatusUnauthorized)
  ∧ run (auth.RequireAuth sample.guard sample.operation []
           (sample.request ["Bearer " +:+ sample.token_at 0]))
        (frozen (5 * time.Second))
    = [http.WriteHeader 200; http.Write "/profile"].
Proof.
  repeat apply conj.
  - destruct (C2_authentication_guard (laws := wire_laws) sample.guard
                sample.operation [] sample.anonymous (frozen 0)) as (H & _).
    unfold run. rewrite H; reflexivity.
  - destruct (C2_authentication_guard (laws := wire_laws) sample.guard
                sample.operation [] (sample.request ["Basic YWxpY2U6eA"])
                (frozen 0)) as (_ & _ & H & _).
    destruct H as (msg & clk' & H).
    + intros tok. unfold http.Get, sample.request, http.Header.
      cbn [http.header]. rewrite lookup_singleton_eq. by vm_compute.
    + exists msg. unfold run. rewrite H. reflexivity.
  - destruct (C2_authentication_guard (laws := wire_laws) sample.guard
                sample.operation []
                (sample.request ["Bearer " +:+ sample.token_at 0])
                (frozen (5 * time.Second))) as (_ & _ & _ & _ & H & _).
    destruct (H (sample.token_at 0) (sample.claims_at 0)
                (frozen (5 * time.Second)) (sample_bearer 0)
                (sample_validate 0 _ sample_window)) as [Hrun _].
    unfold run. rewrite Hrun. reflexivity.
Defined.

Lemma C3_witness :
  run (auth.RequireRole sample.guard "user" sample.operation []
         (sample.request ["Bearer " +:+ sample.token_at 0]))
      (frozen (5 * time.Second))
  = [http.WriteHeader 200; http.Write "/profile"]
  ∧ run (auth.RequireRole sample.guard "admin" sample.operation []
           (sample.request ["Bearer " +:+ sample.token_at 0]))
        (frozen (5 * time.Second))
    = http.Error [] "Insufficient permissions" http.StatusForbidden.
Proof.
  split.
  - destruct (C3_role_guards sample.guard "user" [] sample.operation []
                (sample.request ["Bearer " +:+ sample.token_at 0])
                (frozen (5 * time.Second)) (frozen (5 * time.Second))
                (sample.token_at 0) (sample.claims_at 0) (sample_bearer 0)
                (sample_validate 0 _ sample_window)) as (H & _).
    unfold run. rewrite H; [reflexivity | by constructor].
  - destruct (C3_role_guards sample.guard "admin" [] sample.operation []
                (sample.request ["Bearer " +:+ sample.token_at 0])
                (frozen (5 * time.Second)) (frozen (5 * time.Second))
                (sample.token_at 0) (sample.claims_at 0) (sample_bearer 0)
                (sample_validate 0 _ sample_window)) as (_ & H & _).
    unfold run. rewrite H; [reflexivity|].
    by intros [?|?%elem_of_nil]%elem_of_cons.
Defined.

Lemma C10_witness :
  run (auth.RequireAnyRole sample.guard [] sample.operation []
         (sample.request ["Bearer " +:+ sample.token_at 0]))
      (frozen (5 * time.Second))
  = http.Error [] "Insufficient permissions" http.StatusForbidden
  ∧ run (auth.RequireAnyRole sample.guard [] sample.operation []
           sample.anonymous) (frozen 0)
    = http.Error [] "Authorization header required" http.StatusUnauthorized.
Proof.
  split.
  - destruct (C10_no_allowed_roles sample.guard []
                (sample.request ["Bearer " +:+ sample.token_at 0])
                (frozen (5 * time.Second))) as [H _].
    unfold run.
    rewrite (H (sample.token_at 0) (sample.claims_at 0)
               (frozen (5 * time.Second))
               (sample_bearer 0) (sample_validate 0 _ sample_window)).
    reflexivity.
  - destruct (C10_no_allowed_roles sample.guard [] sample.anonymous (frozen 0))
      as (_ & _ & H & _).
    unfold run. rewrite H; [reflexivity | apply lookup_empty].
Defined.

Lemma C9_witness :
  status (run (auth.RequireRole sample.guard "user" sample.operation []
                 (sample.request ["Bearer " +:+ sample.token_at 0]))
              (frozen (5 * time.Second)))
  ≠ Some http.StatusInternalServerError.
Proof.
  destruct (C9_roles_always_present sample.guard "user" [] sample.operation []
              (sample.request ["Bearer " +:+ sample.token_at 0])
              (frozen (5 * time.Second))) as (_ & _ & H).
  apply H; [reflexivity|]. intros r' clk'. discriminate.
Defined.

(* ================================================================== *)
(** * Further properties of the guards *)

Lemma credential_cases h :
  h = EmptyString
  ∨ ((h =? EmptyString)%string = false ∧ header_malformed h = true
     ∧ ∀ tok, ¬ BearerHeader h tok)
  ∨ (∃ tok, BearerHeader h tok ∧ (h =? EmptyString)%string = false
            ∧ header_malformed h = false
            ∧ nth 1 (strings.Split h " ") EmptyString = tok).
Proof.
  destruct (String.eqb h EmptyString) eqn:Hne;
    [left; by apply String.eqb_eq|right].
  destruct (header_malformed h) eqn:Ht.
  - left. split; [reflexivity|]. split; [reflexivity|]. intros tok Hb.
    assert (header_malformed h = false) as Hf; [|congruence].
    apply (proj2 (parts_test h)). exists tok. split; [assumption|].
    apply Split_Bearer in Hb. by rewrite Hb.
  - right. pose proof Ht as Ht'. apply parts_test in Ht' as (tok & Hb & Hn).
    exists tok. split; [assumption|]. split; [reflexivity|].
    split; [reflexivity|assumption].
Qed.

Section Guards.
Context {codec : jwt.Codec auth.Claims}.

Lemma RequireAuthLegacy_bearer m next w r clk tok :
  BearerHeader (http.Get (http.header r) "Authorization") tok →
  auth.RequireAuthLegacy m next w r clk =
    match auth.ValidateToken (auth.jwtService m) tok clk with
    | (Ok claims, clk') =>
        next w (http.WithHeader r
                  (http.HeaderSet
                     (http.HeaderSet
                        (http.HeaderSet (http.header r) "X-User-ID"
                           (strconv.Itoa (auth.UserID claims)))
                        "X-User-Email" (auth.Email claims))
                     "X-User-Roles" (strings.Join (auth.Roles claims) ",")))
             clk'
    | (Err _, clk') =>
        (http.Error w "Invalid token" http.StatusUnauthorized, clk')
    end.
Proof.
  intros Hb. unfold auth.RequireAuthLegacy.
  destruct (credential_cases (http.Get (http.header r) "Authorization"))
    as [He | [(_ & _ & Hno) | (tok' & Hb' & Hne & Ht & Hn)]].
  - by destruct (BearerHeader_not_empty _ _ Hb).
  - destruct (Hno tok Hb).
  - rewrite (BearerHeader_unique _ _ _ Hb' Hb) in Hn.
    rewrite Hne. cbv zeta. unfold header_malformed in Ht. cbv zeta in Ht.
    rewrite Ht, Hn. unfold mbind, M_bind.
    destruct (auth.ValidateToken (auth.jwtService m) tok clk)
      as [[claims|err] clk']; reflexivity.
Qed.


Lemma canonical_keys :
  textproto.CanonicalMIMEHeaderKey "X-User-ID" = "X-User-Id"
  ∧ textproto.CanonicalMIMEHeaderKey "X-User-Email" = "X-User-Email"
  ∧ textproto.CanonicalMIMEHeaderKey "X-User-Roles" = "X-User-Roles".
Proof. by vm_compute. Qed.

(** X1.  The header-based guard admits exactly the requests the
    context-based guard admits, and both answer 401 otherwise.  The
    request it hands on carries the identity in the three headers
    [X-User-Id], [X-User-Email] and [X-User-Roles], each with that single
    value whatever the client sent under the name; every other header,
    the context and the rest of the request are those received. *)
Theorem RequireAuthLegacy_agrees
    (m : auth.Middleware) (w : http.ResponseWriter) (r : http.Request)
    (clk : Clock) :
  (∃ msg msg' clk', ∀ inner,
     auth.RequireAuth m inner w r clk
     = (http.Error w msg http.StatusUnauthorized, clk')
     ∧ auth.RequireAuthLegacy m inner w r clk
       = (http.Error w msg' http.StatusUnauthorized, clk'))
  ∨ (∃ claims r' clk',
       (∀ inner,
          auth.RequireAuth m inner w r clk = inner w (identified r claims) clk'
          ∧ auth.RequireAuthLegacy m inner w r clk = inner w r' clk')
       ∧ http.header r' !! "X-User-Id" = Some [strconv.Itoa (auth.UserID claims)]
       ∧ http.header r' !! "X-User-Email" = Some [auth.Email claims]
       ∧ http.header r' !! "X-User-Roles"
         = Some [strings.Join (auth.Roles claims) ","]
       ∧ (∀ key, key ∉ ["X-User-Id"; "X-User-Email"; "X-User-Roles"] →
            http.header r' !! key = http.header r !! key)
       ∧ http.Context r' = http.Context r
       ∧ http.Method r' = http.Method r
       ∧ http.Path r' = http.Path r
       ∧ http.Body r' = http.Body r).
Proof.
  destruct (header_cases (http.Get (http.header r) "Authorization"))
    as [He | [[Hne Hno] | [tok Hb]]].
  - left. eexists _, _, _. intros inner. split.
    + by apply RequireAuth_missing.
    + unfold auth.RequireAuthLegacy. rewrite He. reflexivity.
  - left. eexists _, _, _. intros inner. split.
    + by apply RequireAuth_format.
    + unfold auth.RequireAuthLegacy.
      destruct (credential_cases (http.Get (http.header r) "Authorization"))
        as [He | [(Hn & Ht & _) | (tok & Hb & _)]].
      * contradiction.
      * rewrite Hn. cbv zeta. unfold header_malformed in Ht. cbv zeta in Ht.
        rewrite Ht. reflexivity.
      * destruct (Hno tok Hb).
  - destruct (auth.ValidateToken (auth.jwtService m) tok clk)
      as [[claims|err] clk'] eqn:Hv.
    + right. eexists claims, _, clk'. split.
      { intros inner.
        rewrite (RequireAuth_bearer _ _ _ _ _ _ Hb),
                (RequireAuthLegacy_bearer _ _ _ _ _ _ Hb), Hv.
        split; reflexivity. }
      destruct canonical_keys as (K1 & K2 & K3).
      unfold http.HeaderSet, http.Header. cbn [http.header http.WithHeader].
      rewrite K1, K2, K3.
      split; [by rewrite lookup_insert_ne, lookup_insert_ne, lookup_insert_eq|].
      split; [by rewrite lookup_insert_ne, lookup_insert_eq|].
      split; [by rewrite lookup_insert_eq|].
      split; [|by repeat split].
      intros key Hkey. rewrite !lookup_insert_ne; [reflexivity|..];
        intros <-; apply Hkey; repeat constructor.
    + left. eexists _, _, clk'. intros inner.
      rewrite (RequireAuth_bearer _ _ _ _ _ _ Hb),
              (RequireAuthLegacy_bearer _ _ _ _ _ _ Hb), Hv.
      split; reflexivity.
Qed.

End Guards.

(** ** The roles header *)

Lemma Join_cons e e' rest :
  strings.Join (e :: e' :: rest) "," = e +:+ String "," (strings.Join (e' :: rest) ",").
Proof. cbn [strings.Join]. by rewrite append_char. Qed.

(** X2.  The value the header-based guard writes into [X-User-Roles]
    splits at its commas into the roles it was made of exactly when there
    is at least one role and no role contains a comma. *)
Theorem roles_header_round_trip (roles : list string) :
  strings.Split (strings.Join roles ",") "," = roles
  ↔ roles ≠ [] ∧ Forall (λ role, occurs "," role = false) roles.
Proof.
  split.
  - intros H. split.
    + intros ->. discriminate H.
    + rewrite <- H. apply Split_parts_free.
  - intros [Hne Hfree]. induction Hfree as [|e rest He Hrest IH]; [done|].
    destruct rest as [|e' rest].
    + cbn [strings.Join]. by apply Split_free.
    + rewrite Join_cons, Split_app by assumption. f_equal. by apply IH.
Qed.

Section RoleGuards.
Context {codec : jwt.Codec auth.Claims}.

Lemma hasAnyRole_singleton roles role :
  auth.hasAnyRole roles [role] = auth.hasRole roles role.
Proof.
  induction roles as [|userRole rest IH]; [reflexivity|].
  cbn [auth.hasAnyRole auth.isAllowed auth.hasRole]. rewrite IH.
  by destruct (String.eqb userRole role).
Qed.

Lemma HasRole_hasRole user role :
  models.HasRole user role = auth.hasRole (models.Roles user) role.
Proof.
  unfold models.HasRole. induction (models.Roles user) as [|x l IH]; [reflexivity|].
  cbn [auth.hasRole]. by rewrite IH.
Qed.

(** X3.  The guard for one role is the any-of guard for the list made of
    that role: the two wrap a handler into the same handler. *)
Theorem RequireRole_singleton
    (m : auth.Middleware) (role : string) (next : http.HandlerFunc)
    (w : http.ResponseWriter) (r : http.Request) (clk : Clock) :
  auth.RequireRole m role next w r clk
  = auth.RequireAnyRole m [role] next w r clk.
Proof.
  destruct (RequireAuth_cases m w r clk)
    as [(msg & clk' & H) | (tok & claims & clk' & Hb & Hv & _)].
  - unfold auth.RequireRole, auth.RequireAnyRole. by rewrite !H.
  - rewrite (RequireRole_authenticated _ _ _ _ _ _ _ _ _ Hb Hv),
            (RequireAnyRole_authenticated _ _ _ _ _ _ _ _ _ Hb Hv).
    by rewrite hasAnyRole_singleton.
Qed.

(** X5.  The authentication guard changes nothing but the context of the
    request, and in the context nothing but the three identity keys: a
    value another layer bound under any other key reaches the handler;
    nothing is written to the response before the handler runs. *)
Theorem RequireAuth_frame
    (m : auth.Middleware) (w : http.ResponseWriter) (r : http.Request)
    (clk : Clock) :
  (∃ msg clk', ∀ inner,
     auth.RequireAuth m inner w r clk
     = (http.Error w msg http.StatusUnauthorized, clk'))
  ∨ (∃ r' clk',
       (∀ inner, auth.RequireAuth m inner w r clk = inner w r' clk')
       ∧ http.Method r' = http.Method r
       ∧ http.Path r' = http.Path r
       ∧ http.header r' = http.header r
       ∧ http.Body r' = http.Body r
       ∧ ∀ key, key ∉ [auth.UserIDKey; auth.UserEmailKey; auth.UserRolesKey] →
           context.Value (http.Context r') key
           = context.Value (http.Context r) key).
Proof.
  destruct (RequireAuth_cases m w r clk)
    as [H | (tok & claims & clk' & _ & _ & H)]; [by left|right].
  exists (identified r claims), clk'. split; [exact H|].
  repeat (split; [reflexivity|]).
  intros key Hkey. unfold identified, http.Context, http.WithContext,
    context.WithValue. cbn [http.ctx context.Value].
  repeat case_decide; try reflexivity; subst key;
    exfalso; apply Hkey; repeat constructor.
Qed.

(** X8.  The identity keys have a type of their own: a value bound under
    a key of any other type, whatever its text, neither hides nor
    replaces the identity the accessors return; a context without
    identity gives [false]. *)
Theorem identity_keys_isolated
    (ctx : context.Context) (key : context.Key) (val : context.any) :
  context.key_type key ≠ "auth.ContextKey" →
  auth.GetUserIDFromContext (context.WithValue ctx key val)
  = auth.GetUserIDFromContext ctx
  ∧ auth.GetUserEmailFromContext (context.WithValue ctx key val)
    = auth.GetUserEmailFromContext ctx
  ∧ auth.GetUserRolesFromContext (context.WithValue ctx key val)
    = auth.GetUserRolesFromContext ctx
  ∧ auth.GetUserIDFromContext context.Background = (0, false)
  ∧ auth.GetUserEmailFromContext context.Background = (EmptyString, false)
  ∧ auth.GetUserRolesFromContext context.Background = ([], false).
Proof.
  intros Hty.
  unfold auth.GetUserIDFromContext, auth.GetUserEmailFromContext,
    auth.GetUserRolesFromContext, context.WithValue.
  cbn [context.Value].
  repeat case_decide; try (subst key; by destruct Hty).
  by repeat split.
Qed.

End RoleGuards.

Section TokenService2.
Context {codec : jwt.Codec auth.Claims}.

(** X6.  The service returns claims only for a token that decodes, names
    a method of the HMAC family, carries the MAC of its text under the
    secret of the service, and is presented before its expiry and not
    before its start, where it states them; the claims are those
    decoded. *)
Theorem ValidateToken_sound
    (j : auth.JWTService) (tok : string) (w : Clock) (claims : auth.Claims) :
  run (auth.ValidateToken j tok) w = Ok claims →
  ∃ token text,
    jwt.ParseUnverified tok = Ok (token, text)
    ∧ claims = jwt.Claims token
    ∧ jwt.isSigningMethodHMAC (jwt.Method token) = true
    ∧ jwt.Signature token = jwt.hmac (jwt.Method token) (auth.secret j) text
    ∧ (∀ exp, jwt.ExpiresAt (auth.RegisteredClaims claims) = Some exp →
              w 0%nat < exp)
    ∧ (∀ nbf, jwt.NotBefore (auth.RegisteredClaims claims) = Some nbf →
              nbf ≤ w 0%nat).
Proof.
  unfold run, auth.ValidateToken, jwt.ParseWithClaims, auth.keyFunc, jwt.Verify.
  unfold mbind, M_bind, mret, M_ret.
  destruct (jwt.ParseUnverified tok) as [[token text]|err] eqn:Hp;
    [|discriminate].
  destruct (jwt.isSigningMethodHMAC (jwt.Method token)) eqn:Hm;
    cbn [negb]; [|discriminate].
  destruct (String.eqb_spec (jwt.Signature token)
              (jwt.hmac (jwt.Method token) (auth.secret j) text)) as [Hs|Hs];
    [|discriminate].
  unfold jwt.Validate, time.Now, mbind, M_bind, mret, M_ret.
  unfold jwt.verifyExpiresAt, jwt.verifyNotBefore, jwt.NewValidator,
    jwt.errorIfFalse, jwt.errorIfRequired, time.Before, time.Add.
  cbn [jwt.leeway jwt.requireExp jwt.verifyIat jwt.GetExpirationTime
       jwt.GetNotBefore auth.Claims_claims].
  intros H. exists token, text.
  destruct (jwt.ExpiresAt (auth.RegisteredClaims (jwt.Claims token)))
    as [exp|] eqn:He;
  destruct (jwt.NotBefore (auth.RegisteredClaims (jwt.Claims token)))
    as [nbf|] eqn:Hn;
  repeat match type of H with
         | context [?a <? ?b] => destruct (Z.ltb_spec a b)
         end;
  cbn in H; try discriminate;
  injection H as <-; rewrite ?He, ?Hn;
  (split; [reflexivity|]); (split; [reflexivity|]); (split; [assumption|]);
  (split; [assumption|]);
  (split; intros ? [= <-] || intros ? [=]); lia.
Qed.

End TokenService2.

Section Endpoint.
Context {codec : jwt.Codec auth.Claims}.
Context {marshal_map : json.Marshaler (gmap string string)}.
Context {marshal_user : json.Marshaler models.User}.

Lemma RefreshToken_handler_bearer h w r clk tok :
  http.Method r = "POST" →
  BearerHeader (http.Get (http.header r) "Authorization") tok →
  handlers.RefreshToken h w r clk =
    match auth.RefreshToken (handlers.jwtService h) tok clk with
    | (Panics reason, clk') => (Panics reason, clk')
    | (Returns (Err _), clk') =>
        (Returns (http.Error w "Cannot refresh token" http.StatusUnauthorized),
         clk')
    | (Returns (Ok newToken), clk') =>
        (Returns (w ++ [http.SetHeader "Content-Type" "application/json";
                        http.Write (json.Marshal ({[ "token" := newToken ]}
                                                    : gmap string string)
                                    +:+ http.newline)]), clk')
    end.
Proof.
  intros Hm Hb. unfold handlers.RefreshToken. rewrite Hm.
  change (("POST" =? http.MethodPost)%string) with true. cbn [negb].
  destruct (credential_cases (http.Get (http.header r) "Authorization"))
    as [He | [(_ & _ & Hno) | (tok' & Hb' & Hne & Ht & Hn)]].
  - by destruct (BearerHeader_not_empty _ _ Hb).
  - destruct (Hno tok Hb).
  - rewrite (BearerHeader_unique _ _ _ Hb' Hb) in Hn.
    rewrite Hne. cbv zeta. unfold header_malformed in Ht. cbv zeta in Ht.
    rewrite Ht, Hn. unfold mbind, M_bind.
    destruct (auth.RefreshToken (handlers.jwtService h) tok clk)
      as [[[newToken|err]|reason] clk']; [|reflexivity..].
    unfold mret, M_ret, json.Encode. by rewrite <- app_assoc.
Qed.

(** X9.  The refresh endpoint answers 405 to every method but POST
    without looking at the credential.  To a POST it answers 401, or it
    hands out the token the service returned for the bearer credential of
    the request, and nothing else; it fails to return only where the
    service does. *)
Theorem RefreshToken_endpoint
    (h : handlers.AuthHandler) (w : http.ResponseWriter) (r : http.Request)
    (clk : Clock) :
  (http.Method r ≠ "POST" →
     handlers.RefreshToken h w r clk
     = (Returns (http.Error w "Method not allowed"
                            http.StatusMethodNotAllowed), clk))
  ∧ (http.Method r = "POST" →
     ∀ w', run (handlers.RefreshToken h w r) clk = Returns w' →
       (∃ msg, w' = http.Error w msg http.StatusUnauthorized)
       ∨ (∃ tok newToken,
            BearerHeader (http.Get (http.header r) "Authorization") tok
            ∧ run (auth.RefreshToken (handlers.jwtService h) tok) clk
              = Returns (Ok newToken)
            ∧ w' = w ++ [http.SetHeader "Content-Type" "application/json";
                         http.Write
                           (json.Marshal ({[ "token" := newToken ]}
                                            : gmap string string)
                            +:+ http.newline)]))
  ∧ (∀ reason,
       run (handlers.RefreshToken h w r) clk = Panics reason →
       http.Method r = "POST"
       ∧ ∃ tok,
           BearerHeader (http.Get (http.header r) "Authorization") tok
           ∧ run (auth.RefreshToken (handlers.jwtService h) tok) clk
             = Panics reason).
Proof.
  split; [|split].
  - intros Hm. unfold handlers.RefreshToken.
    apply String.eqb_neq in Hm. unfold http.MethodPost. by rewrite Hm.
  - intros Hm w' Hw'.
    destruct (credential_cases (http.Get (http.header r) "Authorization"))
      as [He | [(Hne & Ht & _) | (tok & Hb & _)]].
    + left. eexists. revert Hw'. unfold run, handlers.RefreshToken.
      rewrite Hm, He. cbn. intros [= <-]. reflexivity.
    + left. eexists. revert Hw'. unfold run, handlers.RefreshToken.
      rewrite Hm, Hne. unfold header_malformed in Ht. cbv zeta in Ht.
      cbv zeta. rewrite Ht. cbn. intros [= <-]. reflexivity.
    + revert Hw'. unfold run.
      rewrite (RefreshToken_handler_bearer _ _ _ _ _ Hm Hb).
      destruct (auth.RefreshToken (handlers.jwtService h) tok clk)
        as [[[newToken|err]|reason] clk'] eqn:Hr; cbn [fst]; intros [= <-].
      * right. exists tok, newToken. split; [assumption|].
        unfold run. rewrite Hr. split; reflexivity.
      * left. eexists. reflexivity.
  - intros reason Hp.
    assert (Hm : http.Method r = "POST").
    { destruct (String.eqb_spec (http.Method r) "POST") as [?|Hm];
        [assumption|].
      revert Hp. unfold run, handlers.RefreshToken.
      apply String.eqb_neq in Hm. unfold http.MethodPost. rewrite Hm.
      discriminate. }
    split; [assumption|].
    destruct (credential_cases (http.Get (http.header r) "Authorization"))
      as [He | [(Hne & Ht & _) | (tok & Hb & _)]].
    + revert Hp. unfold run, handlers.RefreshToken.
      rewrite Hm, He. discriminate.
    + revert Hp. unfold run, handlers.RefreshToken.
      rewrite Hm, Hne. unfold header_malformed in Ht. cbv zeta in Ht.
      cbv zeta. rewrite Ht. discriminate.
    + exists tok. split; [assumption|]. revert Hp. unfold run.
      rewrite (RefreshToken_handler_bearer _ _ _ _ _ Hm Hb).
      destruct (auth.RefreshToken (handlers.jwtService h) tok clk)
        as [[[newToken|err]|reason'] clk'] eqn:Hr; cbn [fst];
        intros [= <-]. reflexivity.
Qed.

(** X7.  A token the service accepts but that states no issuance date
    makes the refresh fail without a return, and with it the refresh
    endpoint: neither a token nor an error response comes back. *)
Theorem RefreshToken_needs_issued_at
    (h : handlers.AuthHandler) (tok : string) (t : time.Time)
    (claims : auth.Claims) (w : http.ResponseWriter) (r : http.Request) :
  run (auth.ValidateToken (handlers.jwtService h) tok) (frozen t) = Ok claims →
  jwt.IssuedAt (auth.RegisteredClaims claims) = None →
  http.Method r = "POST" →
  BearerHeader (http.Get (http.header r) "Authorization") tok →
  run (auth.RefreshToken (handlers.jwtService h) tok) (frozen t)
    = Panics "nil pointer dereference"
  ∧ run (handlers.RefreshToken h w r) (frozen t)
    = Panics "nil pointer dereference".
Proof.
  intros Hv Hi Hm Hb.
  assert (Hr : run (auth.RefreshToken (handlers.jwtService h) tok) (frozen t)
               = Panics "nil pointer dereference")
    by (by eapply RefreshToken_without_iat).
  split; [exact Hr|].
  unfold run in *. rewrite (RefreshToken_handler_bearer _ _ _ _ _ Hm Hb).
  destruct (auth.RefreshToken (handlers.jwtService h) tok (frozen t))
    as [[[newToken|err]|reason] clk']; cbn [fst] in *; congruence.
Qed.

End Endpoint.

Section Issued.
Context {codec : jwt.Codec auth.Claims} {laws : jwt.CodecLaws codec}.
Context {marshal_map : json.Marshaler (gmap string string)}.
Context {marshal_user : json.Marshaler models.User}.

(** What the service says, at an instant of the day that follows the
    issuance, of the token it issued. *)
Lemma GenerateToken_validate j user t now tok :
  run (auth.GenerateToken j user) (frozen t) = Ok tok →
  jwt.NewNumericDate t ≤ now < jwt.NewNumericDate t + 24 * time.Hour →
  ∃ claims,
    auth.ValidateToken j tok (frozen now) = (Ok claims, frozen now)
    ∧ auth.UserID claims = models.ID user
    ∧ auth.Email claims = models.Email user
    ∧ auth.Roles claims = models.Roles user.
Proof.
  unfold run at 1. rewrite GenerateToken_eq. cbn [fst]. intros [= <-] Hw.
  match goal with |- context [session.signed j ?c] => exists c end.
  split; [|by repeat split].
  rewrite ValidateToken_frozen. f_equal.
  eapply ValidateToken_signed_window; [reflexivity..|].
  unfold frozen. cbn [auth.RegisteredClaims jwt.NotBefore jwt.ExpiresAt].
  change (t + 24 * time.Hour) with (time.Add t (24 * time.Hour)).
  by rewrite NewNumericDate_add_day.
Qed.

(** X4.  To the bearer of a token issued for a user, and presented within
    the day that follows, the role guard gives way exactly when the user
    has the role ([User.HasRole]); the handler then sees the user's
    identifier, address and roles. *)
Theorem RequireRole_issued
    (m : auth.Middleware) (user : models.User) (role : string)
    (next : http.HandlerFunc) (w : http.ResponseWriter) (r : http.Request)
    (t now : time.Time) (tok : string) :
  run (auth.GenerateToken (auth.jwtService m) user) (frozen t) = Ok tok →
  BearerHeader (http.Get (http.header r) "Authorization") tok →
  jwt.NewNumericDate t ≤ now < jwt.NewNumericDate t + 24 * time.Hour →
  ∃ claims,
    auth.UserID claims = models.ID user
    ∧ auth.Email claims = models.Email user
    ∧ auth.Roles claims = models.Roles user
    ∧ run (auth.RequireRole m role next w r) (frozen now)
      = if models.HasRole user role
        then run (next w (identified r claims)) (frozen now)
        else http.Error w "Insufficient permissions" http.StatusForbidden.
Proof.
  intros Hg Hb Hw.
  destruct (GenerateToken_validate _ _ _ _ _ Hg Hw)
    as (claims & Hv & Hid & Hemail & Hroles).
  exists claims. repeat (split; [assumption|]).
  unfold run. rewrite (RequireRole_authenticated _ _ _ _ _ _ _ _ _ Hb Hv).
  rewrite HasRole_hasRole, Hroles.
  by destruct (auth.hasRole (models.Roles user) role).
Qed.

(** X10.  A token issued for a user and posted to the refresh endpoint
    within the day that follows is exchanged for a token that is valid
    for a day from the instant of the exchange and carries the same
    identity; the response sets no status of its own.  Posted outside
    that day it is answered 401. *)
Theorem RefreshToken_endpoint_renews
    (h : handlers.AuthHandler) (user : models.User)
    (w : http.ResponseWriter) (r : http.Request) (t0 t : time.Time)
    (tok : string) :
  run (auth.GenerateToken (handlers.jwtService h) user) (frozen t0) = Ok tok →
  http.Method r = "POST" →
  BearerHeader (http.Get (http.header r) "Authorization") tok →
  (jwt.NewNumericDate t0 ≤ t < jwt.NewNumericDate t0 + 24 * time.Hour →
     ∃ tok' claims',
       run (handlers.RefreshToken h w r) (frozen t)
       = Returns (w ++ [http.SetHeader "Content-Type" "application/json";
                        http.Write
                          (json.Marshal ({[ "token" := tok' ]}
                                           : gmap string string)
                           +:+ http.newline)])
       ∧ session.day_token (handlers.jwtService h) tok' (jwt.NewNumericDate t)
       ∧ run (auth.ValidateToken (handlers.jwtService h) tok') (frozen t)
         = Ok claims'
       ∧ auth.UserID claims' = models.ID user
       ∧ auth.Email claims' = models.Email user
       ∧ auth.Roles claims' = models.Roles user)
  ∧ (¬ (jwt.NewNumericDate t0 ≤ t < jwt.NewNumericDate t0 + 24 * time.Hour) →
     run (handlers.RefreshToken h w r) (frozen t)
     = Returns (http.Error w "Cannot refresh token" http.StatusUnauthorized)).
Proof.
  intros Hg Hm Hb.
  destruct (GenerateToken_day_token (handlers.jwtService h) user t0)
    as (tok0 & Hg0 & Hd).
  rewrite Hg in Hg0. injection Hg0 as <-.
  assert (Hh : ∀ o, run (auth.RefreshToken (handlers.jwtService h) tok) (frozen t) = o →
     run (handlers.RefreshToken h w r) (frozen t) =
       match o with
       | Panics reason => Panics reason
       | Returns (Err _) =>
           Returns (http.Error w "Cannot refresh token" http.StatusUnauthorized)
       | Returns (Ok newToken) =>
           Returns (w ++ [http.SetHeader "Content-Type" "application/json";
                          http.Write (json.Marshal ({[ "token" := newToken ]}
                                                      : gmap string string)
                                      +:+ http.newline)])
       end).
  { intros o <-. unfold run.
    rewrite (RefreshToken_handler_bearer _ _ _ _ _ Hm Hb).
    by destruct (auth.RefreshToken (handlers.jwtService h) tok (frozen t))
      as [[[newToken|err]|reason] clk']. }
  split.
  - intros Hw.
    revert Hd Hh. revert Hg. unfold run at 1. rewrite GenerateToken_eq.
    cbn [fst]. intros [= <-] _ Hh.
    match goal with
    | Hh : context [session.signed _ ?c] |- _ => set (c0 := c) in *
    end.
    assert (Hv : run (auth.ValidateToken (handlers.jwtService h)
                        (session.signed (handlers.jwtService h) c0)) (frozen t)
                 = Ok c0).
    { eapply ValidateToken_signed_window; [reflexivity..|].
      unfold frozen. cbn [c0 auth.RegisteredClaims jwt.NotBefore jwt.ExpiresAt].
      change (t0 + 24 * time.Hour) with (time.Add t0 (24 * time.Hour)).
      by rewrite NewNumericDate_add_day. }
    assert (Hr : run (auth.RefreshToken (handlers.jwtService h)
                        (session.signed (handlers.jwtService h) c0)) (frozen t)
                 = fst (auth.RefreshToken (handlers.jwtService h)
                          (session.signed (handlers.jwtService h) c0) (frozen t)))
      by reflexivity.
    rewrite RefreshToken_frozen, Hv in Hr. cbn [fst] in Hr.
    change (jwt.IssuedAt (auth.RegisteredClaims c0))
      with (Some (jwt.NewNumericDate t0)) in Hr.
    cbv iota in Hr.
    assert (E : (7 * 24 * time.Hour <? t - jwt.NewNumericDate t0) = false).
    { apply Z.ltb_ge. rewrite Hour_value in *. lia. }
    rewrite E in Hr.
    match type of Hr with
    | _ = Returns (Ok (session.signed _ ?c)) => set (c1 := c) in *
    end.
    exists (session.signed (handlers.jwtService h) c1), c1.
    split; [exact (Hh _ Hr)|].
    split; [exists c1; repeat split; cbn;
            change (t + 24 * time.Hour) with (time.Add t (24 * time.Hour));
            by rewrite NewNumericDate_add_day|].
    split; [|by repeat split].
    eapply ValidateToken_signed_window; [reflexivity..|].
    unfold frozen. cbn [c1 auth.RegisteredClaims jwt.NotBefore jwt.ExpiresAt].
    pose proof (NewNumericDate_le t).
    pose proof (NewNumericDate_gt (t + 24 * time.Hour)).
    rewrite Hour_value in *. change time.Second with 1000000000 in *. lia.
  - intros Hout.
    destruct (day_token_refresh _ _ _ t Hd)
      as [(Hin & _) | (_ & err & Hr)]; [by destruct Hout|].
    exact (Hh _ Hr).
Qed.

End Issued.

Section Routes.
Context {codec : jwt.Codec auth.Claims}.
Context {marshal_map : json.Marshaler (gmap string string)}.
Context {marshal_user : json.Marshaler models.User}.

(** X13.  The profile route, that is [GetProfile] behind the
    authentication guard.  A request is answered 401 by the guard, or it
    carries a token the service accepts; the handler then looks up the
    identifier of the token's claims, and answers 405 to a method other
    than GET only now.  Its answer [User context not found] is never
    given. *)
Theorem GetProfile_guarded
    (h : handlers.AuthHandler) (w : http.ResponseWriter) (r : http.Request)
    (clk : Clock) :
  let route := handlers.RequireAuth h (handlers.GetProfile h) in
  (∃ msg clk',
     route w r clk = (http.Error w msg http.StatusUnauthorized, clk'))
  ∨ (∃ tok claims clk',
       BearerHeader (http.Get (http.header r) "Authorization") tok
       ∧ auth.ValidateToken (auth.jwtService (handlers.middleware h)) tok clk
         = (Ok claims, clk')
       ∧ route w r clk =
           (if negb (String.eqb (http.Method r) "GET")
            then http.Error w "Method not allowed" http.StatusMethodNotAllowed
            else
              match models.GetByID (handlers.userRepo h) (auth.UserID claims) with
              | Ok user =>
                  w ++ [http.SetHeader "Content-Type" "application/json";
                        http.Write (json.Marshal user +:+ http.newline)]
              | Err err =>
                  if sql.isErrNoRows err
                  then http.Error w "User not found" http.StatusNotFound
                  else http.Error w "Internal server error"
                                  http.StatusInternalServerError
              end, clk')).
Proof.
  intros route. subst route. unfold handlers.RequireAuth.
  destruct (RequireAuth_cases (handlers.middleware h) w r clk)
    as [(msg & clk' & H) | (tok & claims & clk' & Hb & Hv & H)].
  - left. exists msg, clk'. apply H.
  - right. exists tok, claims, clk'. split; [assumption|]. split; [assumption|].
    rewrite H. unfold handlers.GetProfile.
    change (http.Method (identified r claims)) with (http.Method r).
    unfold http.MethodGet.
    destruct (negb (String.eqb (http.Method r) "GET")); [reflexivity|].
    destruct (identified_identity r claims) as (-> & _). cbn [negb].
    destruct (models.GetByID (handlers.userRepo h) (auth.UserID claims))
      as [user|err]; [|by destruct (sql.isErrNoRows err)].
    unfold mret, M_ret, json.Encode. by rewrite <- app_assoc.
Qed.

(** The headers [corsMiddleware] sets. *)
Lemma corsMiddleware_eq next w r clk :
  server.corsMiddleware next w r clk =
    let w' := w ++ [http.SetHeader "Access-Control-Allow-Origin" "*";
                    http.SetHeader "Access-Control-Allow-Methods"
                                   "GET, POST, PUT, DELETE, OPTIONS";
                    http.SetHeader "Access-Control-Allow-Headers"
                                   "Content-Type, Authorization";
                    http.SetHeader "Access-Control-Max-Age" "3600"] in
    if String.eqb (http.Method r) "OPTIONS"
    then (w' ++ [http.WriteHeader http.StatusOK], clk)
    else next w' r clk.
Proof.
  unfold server.corsMiddleware. cbv zeta. rewrite <- !app_assoc.
  cbn [app]. by destruct (String.eqb (http.Method r) "OPTIONS").
Qed.

(** X11.  Behind [corsMiddleware], a guarded route answers a request
    without credentials with 200 when its method is OPTIONS, the guard
    and the clock left alone, and with 401 otherwise; in both answers the
    four headers of the cross-origin policy come first. *)
Theorem cors_guarded_route
    (m : auth.Middleware) (next : http.HandlerFunc) (r : http.Request)
    (clk : Clock) :
  http.header r !! "Authorization" = None →
  ∃ rest,
    server.corsMiddleware (auth.RequireAuth m next) [] r clk
    = ([http.SetHeader "Access-Control-Allow-Origin" "*";
        http.SetHeader "Access-Control-Allow-Methods"
                       "GET, POST, PUT, DELETE, OPTIONS";
        http.SetHeader "Access-Control-Allow-Headers"
                       "Content-Type, Authorization";
        http.SetHeader "Access-Control-Max-Age" "3600"] ++ rest, clk)
    ∧ status rest
      = Some (if String.eqb (http.Method r) "OPTIONS"
              then http.StatusOK else http.StatusUnauthorized).
Proof.
  intros Hnone. rewrite corsMiddleware_eq. cbv zeta. cbn [app].
  destruct (String.eqb (http.Method r) "OPTIONS").
  - eexists. split; reflexivity.
  - rewrite RequireAuth_missing by (unfold http.Get; by rewrite Hnone).
    eexists. split; reflexivity.
Qed.

(** X12.  The health route, that is [healthHandler] behind
    [corsMiddleware]: 200 with the body to GET, 200 without a body to
    OPTIONS, 405 to every other method. *)
Theorem health_route (r : http.Request) (clk : Clock) :
  let answer := run (server.corsMiddleware server.healthHandler [] r) clk in
  status answer
  = Some (if String.eqb (http.Method r) "GET" || String.eqb (http.Method r) "OPTIONS"
          then http.StatusOK else http.StatusMethodNotAllowed)
  ∧ (http.Write server.healthBody ∈ answer ↔ http.Method r = "GET").
Proof.
  intros answer. subst answer. unfold run. rewrite corsMiddleware_eq.
  cbv zeta. cbn [app]. unfold server.healthHandler, http.MethodGet.
  destruct (String.eqb_spec (http.Method r) "OPTIONS") as [Ho|Ho].
  - rewrite Ho. cbn [fst]. split; [reflexivity|].
    split; [|discriminate].
    intros Hin. repeat (apply elem_of_cons in Hin as [?|Hin]; [discriminate|]).
    by apply elem_of_nil in Hin.
  - destruct (String.eqb_spec (http.Method r) "GET") as [Hg|Hg].
    + cbn [negb orb fst mret M_ret]. split; [reflexivity|].
      split; [done|]. intros _. cbn [app]. repeat constructor.
    + cbn [negb orb fst mret M_ret]. split; [reflexivity|].
      split; [|done].
      intros Hin. unfold http.Error in Hin. cbn [app] in Hin.
      repeat (apply elem_of_cons in Hin as [Hin|Hin]; [discriminate|]).
      by apply elem_of_nil in Hin.
Qed.

End Routes.

(** ** The further properties at the sample *)

Lemma wire_signed_no_blank j c :
  occurs " " (session.signed (H := wire.codec) j c) = false.
Proof.
  unfold session.signed.
  cbn [jwt.SigningString jwt.EncodeSegment wire.codec].
  rewrite !occurs_append.
  rewrite !segment_free, payload_free by discriminate. reflexivity.
Qed.

Lemma sample_refresh_bearer tok :
  occurs " " tok = false →
  BearerHeader
    (http.Get (http.header (sample.refresh_request ["Bearer " +:+ tok]))
              "Authorization") tok.
Proof.
  intros Hfree. unfold http.Get, sample.refresh_request, http.Header.
  cbn [http.header]. rewrite lookup_singleton_eq. by split.
Qed.

Lemma sample_undated_validate t :
  run (auth.ValidateToken sample.service
         (session.signed sample.service sample.undated)) (frozen t)
  = Ok sample.undated.
Proof.
  unfold run. rewrite (ValidateToken_signed (laws := wire_laws)). reflexivity.
Qed.

Lemma ValidateToken_sound_witness :
  ∃ token text,
    jwt.ParseUnverified (sample.token_at 0) = Ok (token, text)
    ∧ jwt.isSigningMethodHMAC (jwt.Method token) = true.
Proof.
  destruct (ValidateToken_sound sample.service (sample.token_at 0)
              (frozen (5 * time.Second)) (sample.claims_at 0))
    as (token & text & Hp & _ & Hm & _).
  - unfold run. rewrite sample_validate; [reflexivity | exact sample_window].
  - eauto.
Defined.

Lemma RequireRole_issued_witness :
  run (auth.RequireRole sample.guard "user" sample.operation []
         (sample.request ["Bearer " +:+ sample.token_at 0]))
      (frozen (5 * time.Second))
  = [http.WriteHeader 200; http.Write "/profile"]
  ∧ run (auth.RequireRole sample.guard "admin" sample.operation []
           (sample.request ["Bearer " +:+ sample.token_at 0]))
        (frozen (5 * time.Second))
    = http.Error [] "Insufficient permissions" http.StatusForbidden.
Proof.
  split.
  - destruct (RequireRole_issued (laws := wire_laws) sample.guard sample.alice
                "user" sample.operation []
                (sample.request ["Bearer " +:+ sample.token_at 0])
                0 (5 * time.Second) (sample.token_at 0)
                (sample_issue 0) (sample_bearer 0))
      as (claims & _ & _ & _ & H); [by vm_compute|].
    rewrite H. reflexivity.
  - destruct (RequireRole_issued (laws := wire_laws) sample.guard sample.alice
                "admin" sample.operation []
                (sample.request ["Bearer " +:+ sample.token_at 0])
                0 (5 * time.Second) (sample.token_at 0)
                (sample_issue 0) (sample_bearer 0))
      as (claims & _ & _ & _ & H); [by vm_compute|].
    rewrite H. reflexivity.
Defined.

Lemma RefreshToken_needs_issued_at_witness :
  run (@handlers.RefreshToken wire.codec sample.marshal_map sample.handler []
         (sample.refresh_request
            ["Bearer " +:+ session.signed sample.service sample.undated]))
      (frozen 0)
  = Panics "nil pointer dereference".
Proof.
  apply (RefreshToken_needs_issued_at (marshal_map := sample.marshal_map)
           sample.handler
           (session.signed sample.service sample.undated) 0 sample.undated).
  - apply sample_undated_validate.
  - reflexivity.
  - reflexivity.
  - apply sample_refresh_bearer, wire_signed_no_blank.
Defined.

Lemma RefreshToken_endpoint_renews_witness :
  ∃ tok',
    run (@handlers.RefreshToken wire.codec sample.marshal_map sample.handler []
           (sample.refresh_request ["Bearer " +:+ sample.token_at 0]))
        (frozen (1 * time.Hour))
    = Returns [http.SetHeader "Content-Type" "application/json";
               http.Write (json.Marshal (Marshaler := sample.marshal_map)
                             {[ "token" := tok' ]} +:+ http.newline)]
    ∧ session.day_token sample.service tok' (1 * time.Hour).
Proof.
  destruct (RefreshToken_endpoint_renews (laws := wire_laws)
              (marshal_map := sample.marshal_map) sample.handler sample.alice []
              (sample.refresh_request ["Bearer " +:+ sample.token_at 0])
              0 (1 * time.Hour) (sample.token_at 0) (sample_issue 0) eq_refl)
    as [H _].
  - apply sample_refresh_bearer, sample_token_no_blank.
  - destruct H as (tok' & claims' & Hr & Hd & _); [by vm_compute|].
    exists tok'. split; [exact Hr | exact Hd].
Defined.

Lemma cors_guarded_route_witness :
  ∃ rest,
    fst (server.corsMiddleware
           (auth.RequireAuth sample.guard sample.operation) []
           sample.anonymous (frozen 0))
    = [http.SetHeader "Access-Control-Allow-Origin" "*";
       http.SetHeader "Access-Control-Allow-Methods"
                      "GET, POST, PUT, DELETE, OPTIONS";
       http.SetHeader "Access-Control-Allow-Headers"
                      "Content-Type, Authorization";
       http.SetHeader "Access-Control-Max-Age" "3600"] ++ rest
    ∧ status rest = Some http.StatusUnauthorized.
Proof.
  destruct (cors_guarded_route sample.guard sample.operation sample.anonymous
              (frozen 0)) as (rest & Hr & Hs).
  - apply lookup_empty.
  - exists rest. rewrite Hr. split; [reflexivity | exact Hs].
Defined.

Lemma identity_keys_isolated_witness :
  auth.GetUserIDFromContext
    (context.WithValue
       (context.WithValue context.Background auth.UserIDKey (context.any_int 7))
       {| context.key_type := "string"; context.key_value := "user_id" |}
       (context.any_int 1))
  = (7, true).
Proof.
  destruct (identity_keys_isolated
              (context.WithValue context.Background auth.UserIDKey
                 (context.any_int 7))
              {| context.key_type := "string"; context.key_value := "user_id" |}
              (context.any_int 1)) as [H _].
  - discriminate.
  - rewrite H. reflexivity.
Defined.

Lemma RefreshToken_endpoint_witness :
  run (@handlers.RefreshToken wire.codec sample.marshal_map sample.handler []
         sample.anonymous) (frozen 0)
  = Returns (http.Error [] "Method not allowed" http.StatusMethodNotAllowed).
Proof.
  destruct (RefreshToken_endpoint (marshal_map := sample.marshal_map)
              sample.handler [] sample.anonymous (frozen 0)) as [H _].
  unfold run. rewrite H; [reflexivity | discriminate].
Defined.

(* ================================================================== *)
(** * Properties of the validators *)

(** ** Expressions and the texts they match *)

Lemma append_nil_r s : s +:+ EmptyString = s.
Proof. induction s as [|c s IH]; [reflexivity|]. by rewrite append_String, IH. Qed.

Lemma append_eq_nil s t : s +:+ t = EmptyString → s = EmptyString ∧ t = EmptyString.
Proof. destruct s; [by rewrite append_nil_l|by rewrite append_String]. Qed.

Lemma append_eq_String s t c u :
  s +:+ t = String c u →
  (s = EmptyString ∧ t = String c u)
  ∨ (∃ s', s = String c s' ∧ u = s' +:+ t).
Proof.
  destruct s as [|d s].
  - rewrite append_nil_l. by left.
  - rewrite append_String. intros [= -> <-]. right. by eexists.
Qed.

Lemma nullable_lang e : regexp.nullable e = true ↔ lang e EmptyString.
Proof.
  split.
  - induction e as [| |class|e1 IH1 e2 IH2|e1 IH1 e2 IH2|e IH]; cbn;
      try discriminate.
    + constructor.
    + intros [H1 H2]%andb_true_iff.
      change EmptyString with (EmptyString +:+ EmptyString)%string.
      constructor; auto.
    + intros [H|H]%orb_true_iff; [apply lang_alternate_l|apply lang_alternate_r];
        auto.
    + constructor.
  - intros H. remember EmptyString as s eqn:Hs.
    induction H as [|class c Hc|e1 e2 s1 s2 H1 IH1 H2 IH2|e1 e2 s H IH
                    |e1 e2 s H IH|e|e s1 s2 H1 IH1 H2 IH2]; cbn;
      try reflexivity; try discriminate.
    + apply append_eq_nil in Hs as [-> ->]. by rewrite IH1, IH2.
    + by rewrite IH.
    + rewrite IH by assumption. apply orb_true_r.
Qed.

Lemma lang_star_String e c s :
  lang (regexp.Star e) (String c s) →
  ∃ s1 s2, s = s1 +:+ s2 ∧ lang e (String c s1) ∧ lang (regexp.Star e) s2.
Proof.
  intros H. remember (regexp.Star e) as e' eqn:He.
  remember (String c s) as t eqn:Ht.
  revert c s Ht.
  induction H as [|class c' Hc|e1 e2 s1 s2 H1 IH1 H2 IH2|e1 e2 s' H IH
                  |e1 e2 s' H IH|e0|e0 s1 s2 H1 IH1 H2 IH2];
    intros c s Ht; try discriminate.
  injection He as ->.
  apply append_eq_String in Ht as [[-> ->] | (s1' & -> & ->)].
  - by apply IH2.
  - by exists s1', s2.
Qed.

Lemma derivative_lang e : ∀ c s,
  lang (regexp.derivative c e) s ↔ lang e (String c s).
Proof.
  induction e as [| |class|e1 IH1 e2 IH2|e1 IH1 e2 IH2|e IH]; intros c s; cbn.
  - split; inversion 1.
  - split; inversion 1.
  - destruct (class c) eqn:Hc; split; inversion 1; subst.
    + by constructor.
    + constructor.
    + congruence.
  - assert (Hcat : lang (regexp.Concat (regexp.derivative c e1) e2) s
                   ↔ ∃ s1 s2, s = s1 +:+ s2 ∧ lang e1 (String c s1) ∧ lang e2 s2).
    { split.
      - inversion 1; subst. eexists _, _. split; [reflexivity|].
        split; [by apply IH1|assumption].
      - intros (s1 & s2 & -> & H1 & H2). constructor; [by apply IH1|assumption]. }
    assert (Hgoal : lang (regexp.Concat e1 e2) (String c s)
                    ↔ (∃ s1 s2, s = s1 +:+ s2 ∧ lang e1 (String c s1) ∧ lang e2 s2)
                      ∨ (lang e1 EmptyString ∧ lang e2 (String c s))).
    { split.
      - inversion 1 as [| |? ? s1 s2 H1 H2 [E1 E2] Hs| | | |]; subst.
        apply append_eq_String in Hs as [[-> ->] | (s1' & -> & ->)].
        + by right.
        + left. by exists s1', s2.
      - intros [(s1 & s2 & -> & H1 & H2) | [H1 H2]].
        + rewrite <- append_String. by constructor.
        + rewrite <- (append_nil_l (String c s)). by constructor. }
    rewrite Hgoal. destruct (regexp.nullable e1) eqn:Hn.
    + split.
      * inversion 1; subst; [left; by apply Hcat|right].
        split; [by apply nullable_lang | by apply IH2].
      * intros [H | [_ H]].
        -- apply lang_alternate_l. by apply Hcat.
        -- apply lang_alternate_r. by apply IH2.
    + rewrite Hcat. split; [by left|]. intros [H | [H _]]; [assumption|].
      apply nullable_lang in H. congruence.
  - split.
    + inversion 1; subst; [apply lang_alternate_l; by apply IH1
                          |apply lang_alternate_r; by apply IH2].
    + inversion 1; subst; [apply lang_alternate_l; by apply IH1
                          |apply lang_alternate_r; by apply IH2].
  - split.
    + inversion 1; subst. rewrite <- append_String.
      constructor; [by apply IH|assumption].
    + intros (s1 & s2 & -> & H1 & H2)%lang_star_String.
      constructor; [by apply IH|assumption].
Qed.

Lemma matchesAll_lang s : ∀ e, regexp.matchesAll e s = true ↔ lang e s.
Proof.
  induction s as [|c s IH]; intros e; cbn.
  - apply nullable_lang.
  - rewrite IH. apply derivative_lang.
Qed.

Lemma lang_concat_iff e1 e2 s :
  lang (regexp.Concat e1 e2) s
  ↔ ∃ s1 s2, s = s1 +:+ s2 ∧ lang e1 s1 ∧ lang e2 s2.
Proof.
  split.
  - inversion 1; subst. by eexists _, _.
  - intros (s1 & s2 & -> & H1 & H2). by constructor.
Qed.

Lemma lang_class_iff class s :
  lang (regexp.CharClass class) s
  ↔ ∃ c, s = String c EmptyString ∧ class c = true.
Proof.
  split.
  - inversion 1; subst. by eexists.
  - intros (c & -> & Hc). by constructor.
Qed.

Lemma lang_literal c s : lang (regexp.Literal c) s ↔ s = String c EmptyString.
Proof.
  unfold regexp.Literal. rewrite lang_class_iff. split.
  - intros (c' & -> & ->%Ascii.eqb_eq). reflexivity.
  - intros ->. exists c. split; [reflexivity|apply Ascii.eqb_refl].
Qed.

Lemma lang_star_class class s :
  lang (regexp.Star (regexp.CharClass class)) s ↔ all_in class s = true.
Proof.
  unfold all_in. induction s as [|c s IH]; cbn.
  - split; [reflexivity|constructor].
  - rewrite andb_true_iff, <- IH. split.
    + intros (s1 & s2 & -> & H1 & H2)%lang_star_String.
      apply lang_class_iff in H1 as (c' & [= <- ->] & Hc).
      by rewrite append_nil_l.
    + intros [Hc Hs]. rewrite <- append_char. constructor; [by constructor|assumption].
Qed.

Lemma lang_plus_class class s :
  lang (regexp.Plus (regexp.CharClass class)) s
  ↔ s ≠ EmptyString ∧ all_in class s = true.
Proof.
  unfold regexp.Plus. rewrite lang_concat_iff. split.
  - intros (s1 & s2 & -> & (c & -> & Hc)%lang_class_iff & H2%lang_star_class).
    rewrite append_char. split; [discriminate|].
    unfold all_in in *. cbn. by rewrite Hc.
  - intros [Hne Hall]. destruct s as [|c s]; [done|].
    unfold all_in in Hall. cbn in Hall. apply andb_true_iff in Hall as [Hc Hs].
    exists (String c EmptyString), s. rewrite append_char.
    split; [reflexivity|]. split; [by constructor|by apply lang_star_class].
Qed.

Lemma lang_atLeastTwo_class class s :
  lang (regexp.AtLeastTwo (regexp.CharClass class)) s
  ↔ (2 ≤ String.length s)%nat ∧ all_in class s = true.
Proof.
  unfold regexp.AtLeastTwo. rewrite lang_concat_iff. split.
  - intros (s1 & s2 & -> & (c & -> & Hc)%lang_class_iff
            & [Hne Hall]%(lang_plus_class class s2)).
    rewrite append_char. destruct s2 as [|d s2]; [done|].
    split; [cbn; lia|]. unfold all_in in *. cbn in *. by rewrite Hc.
  - intros [Hlen Hall]. destruct s as [|c [|d s]]; cbn in Hlen; try lia.
    unfold all_in in Hall. cbn in Hall.
    apply andb_true_iff in Hall as [Hc Hs].
    exists (String c EmptyString), (String d s). rewrite append_char.
    split; [reflexivity|]. split; [by constructor|].
    apply (lang_plus_class class (String d s)). split; [discriminate|exact Hs].
Qed.

Lemma emailRegex_matches email :
  regexp.MatchString validator.emailRegex email = true
  ↔ ∃ local domain tld,
      email = local +:+ "@" +:+ domain +:+ "." +:+ tld
      ∧ local ≠ EmptyString ∧ all_in validator.localClass local = true
      ∧ domain ≠ EmptyString ∧ all_in validator.domainClass domain = true
      ∧ (2 ≤ String.length tld)%nat
      ∧ all_in validator.letterClass tld = true.
Proof.
  unfold regexp.MatchString, validator.emailRegex.
  cbn [regexp.anchored regexp.expr]. rewrite matchesAll_lang.
  rewrite lang_concat_iff. split.
  - intros (local & rest1 & -> & [Hl1 Hl2]%lang_plus_class & H).
    apply lang_concat_iff in H as (at' & rest2 & -> & ->%lang_literal & H).
    apply lang_concat_iff in H
      as (domain & rest3 & -> & [Hd1 Hd2]%lang_plus_class & H).
    apply lang_concat_iff in H
      as (dot & tld & -> & ->%lang_literal & [Ht1 Ht2]%lang_atLeastTwo_class).
    by exists local, domain, tld.
  - intros (local & domain & tld & -> & Hl1 & Hl2 & Hd1 & Hd2 & Ht1 & Ht2).
    exists local, ("@" +:+ domain +:+ "." +:+ tld)%string.
    split; [reflexivity|]. split; [by apply lang_plus_class|].
    apply lang_concat_iff. exists "@"%string, (domain +:+ "." +:+ tld)%string.
    split; [reflexivity|]. split; [by apply lang_literal|].
    apply lang_concat_iff. exists domain, ("." +:+ tld)%string.
    split; [reflexivity|]. split; [by apply lang_plus_class|].
    apply lang_concat_iff. exists "."%string, tld.
    split; [reflexivity|]. split; [by apply lang_literal|].
    by apply lang_atLeastTwo_class.
Qed.

(** X20.  [ValidateEmail] accepts exactly the addresses made of a
    non-empty local part of letters, digits and [._%+-], an [@], a
    non-empty domain of letters, digits, dots and hyphens, a dot, and at
    least two letters. *)
Theorem ValidateEmail_accepts (email : string) :
  validator.ValidateEmail email = None
  ↔ ∃ local domain tld,
      email = local +:+ "@" +:+ domain +:+ "." +:+ tld
      ∧ local ≠ EmptyString ∧ all_in validator.localClass local = true
      ∧ domain ≠ EmptyString ∧ all_in validator.domainClass domain = true
      ∧ (2 ≤ String.length tld)%nat
      ∧ all_in validator.letterClass tld = true.
Proof.
  pose proof (emailRegex_matches email) as Hm.
  unfold validator.ValidateEmail.
  destruct (String.eqb_spec email EmptyString) as [->|Hne].
  - split; [discriminate|].
    intros (local & domain & tld & H & Hl & _). symmetry in H.
    apply append_eq_nil in H as [-> _]. done.
  - destruct (regexp.MatchString validator.emailRegex email) eqn:E; cbn [negb].
    + split; [intros _; by apply Hm|reflexivity].
    + split; [discriminate|]. intros H. apply Hm in H. discriminate.
Qed.

(** ** Passwords *)

Lemma matchesPrefix_NoMatch s : regexp.matchesPrefix regexp.NoMatch s = false.
Proof. induction s as [|c s IH]; [reflexivity|]. cbn. exact IH. Qed.

Lemma matchesPrefix_EmptyMatch s :
  regexp.matchesPrefix regexp.EmptyMatch s = true.
Proof. by destruct s. Qed.

Lemma matchesSomewhere_class class s :
  regexp.matchesSomewhere (regexp.CharClass class) s = some_in class s.
Proof.
  unfold some_in. induction s as [|c s IH]; [reflexivity|].
  cbn [regexp.matchesSomewhere regexp.matchesPrefix regexp.nullable
       regexp.derivative String.list_ascii_of_string existsb orb].
  rewrite IH. destruct (class c).
  - by rewrite matchesPrefix_EmptyMatch.
  - by rewrite matchesPrefix_NoMatch.
Qed.

Lemma ValidatePassword_None password :
  validator.ValidatePassword password = None
  ↔ (8 ≤ String.length password)%nat
    ∧ some_in validator.upper password = true
    ∧ some_in validator.lower password = true
    ∧ some_in validator.digit password = true.
Proof.
  unfold validator.ValidatePassword, regexp.MatchString,
    validator.upperRegex, validator.lowerRegex, validator.numberRegex.
  cbn [regexp.anchored regexp.expr]. rewrite !matchesSomewhere_class.
  destruct (String.eqb_spec password EmptyString) as [->|Hne].
  - cbn. split; [discriminate|]. intros [? _]. lia.
  - destruct (Nat.ltb_spec (String.length password) 8) as [Hlt|Hge].
    + split; [discriminate|]. intros [? _]. lia.
    + destruct (some_in validator.upper password),
               (some_in validator.lower password),
               (some_in validator.digit password); cbn [negb];
        split; try done; intros (_ & ? & ? & ?); done.
Qed.

(** X19.  [ValidatePassword] accepts exactly the passwords of at least
    eight bytes with an upper-case letter, a lower-case letter and a
    digit among them.  Of the requirements a password fails, the first in
    that order is the one reported: a short password is told its length
    whatever it is made of. *)
Theorem ValidatePassword_accepts (password : string) :
  (validator.ValidatePassword password = None
   ↔ (8 ≤ String.length password)%nat
     ∧ some_in validator.upper password = true
     ∧ some_in validator.lower password = true
     ∧ some_in validator.digit password = true)
  ∧ (password ≠ EmptyString → (String.length password < 8)%nat →
     validator.ValidatePassword password
     = Some (errors.New "password must be at least 8 characters long"))
  ∧ ((8 ≤ String.length password)%nat →
     some_in validator.upper password = false →
     validator.ValidatePassword password
     = Some (errors.New "password must contain at least one uppercase letter")).
Proof.
  unfold validator.ValidatePassword, regexp.MatchString,
    validator.upperRegex, validator.lowerRegex, validator.numberRegex.
  cbn [regexp.anchored regexp.expr]. rewrite !matchesSomewhere_class.
  destruct (String.eqb_spec password EmptyString) as [->|Hne].
  - cbn. repeat split; try done; try lia; try (intros [? _]; lia).
  - destruct (Nat.ltb_spec (String.length password) 8) as [Hlt|Hge].
    + repeat split; try done; try lia; try (intros [? _]; lia).
    + destruct (some_in validator.upper password),
               (some_in validator.lower password),
               (some_in validator.digit password); cbn [negb];
        repeat split; try done; try lia; intros (_ & ? & ? & ?); done.
Qed.

(** ** Registrations *)

(** X22.  [ValidateUserRegistration] reports no error exactly when the
    three validators accept; it reports at most one error for each of the
    fields [name], [email] and [password], in that order. *)
Theorem ValidateUserRegistration_errors (name email password : string) :
  let errs := validator.ValidateUserRegistration name email password in
  (validator.HasErrors errs = false
   ↔ validator.ValidateName name = None
     ∧ validator.ValidateEmail email = None
     ∧ validator.ValidatePassword password = None)
  ∧ map validator.Field errs
    = (if validator.ValidateName name is Some _ then ["name"] else [])
      ++ (if validator.ValidateEmail email is Some _ then ["email"] else [])
      ++ (if validator.ValidatePassword password is Some _
          then ["password"] else []).
Proof.
  intros errs. subst errs. unfold validator.ValidateUserRegistration.
  destruct (validator.ValidateName name),
           (validator.ValidateEmail email),
           (validator.ValidatePassword password); cbn;
    (split; [split; [try discriminate; done | by intros (? & ? & ?)]
            | reflexivity]).
Qed.

(** ** Names *)

Lemma rev_app_rev_app s : ∀ a b,
  String.rev_app (String.rev_app s a) b = String.rev_app a (s +:+ b).
Proof.
  induction s as [|c s IH]; intros a b; cbn.
  - by rewrite append_nil_l.
  - rewrite IH. cbn. by rewrite append_String.
Qed.

Lemma rev_rev s : String.rev (String.rev s) = s.
Proof. unfold String.rev. rewrite rev_app_rev_app. cbn. apply append_nil_r. Qed.

Lemma rev_app_snoc s : ∀ b acc,
  String.rev_app (s +:+ String b EmptyString) acc
  = String b (String.rev_app s acc).
Proof.
  induction s as [|c s IH]; intros b acc.
  - by rewrite append_nil_l.
  - rewrite append_String. cbn. apply IH.
Qed.

Lemma rev_app_length s : ∀ acc,
  String.length (String.rev_app s acc)
  = (String.length s + String.length acc)%nat.
Proof.
  induction s as [|c s IH]; intros acc; cbn; [reflexivity|].
  rewrite IH. cbn. lia.
Qed.

Lemma rev_length s : String.length (String.rev s) = String.length s.
Proof. unfold String.rev. rewrite rev_app_length. cbn. lia. Qed.

Lemma cut_length p : ∀ s s',
  strings.cut p s = Some s' → (String.length s' ≤ String.length s)%nat.
Proof.
  induction p as [|a p IH]; intros s s'; cbn.
  - by intros [= ->].
  - destruct s as [|b s]; [discriminate|].
    destruct (Ascii.eqb a b); [|discriminate].
    intros H%IH. cbn. lia.
Qed.

Lemma cutAny_length ps : ∀ s s',
  strings.cutAny ps s = Some s' → (String.length s' ≤ String.length s)%nat.
Proof.
  induction ps as [|p ps IH]; intros s s'; cbn; [discriminate|].
  destruct (strings.cut p s) as [s1|] eqn:Hc.
  - intros [= <-]. by eapply cut_length.
  - apply IH.
Qed.

Lemma cutAll_length fuel ps : ∀ s,
  (String.length (strings.cutAll fuel ps s) ≤ String.length s)%nat.
Proof.
  induction fuel as [|fuel IH]; intros s; cbn; [lia|].
  destruct (strings.cutAny ps s) as [s'|] eqn:Hc; [|lia].
  apply cutAny_length in Hc. specialize (IH s'). lia.
Qed.

Lemma TrimSpace_length s :
  (String.length (strings.TrimSpace s) ≤ String.length s)%nat.
Proof.
  unfold strings.TrimSpace, strings.trimRightSpace, strings.trimLeftSpace.
  rewrite rev_length.
  etransitivity; [apply cutAll_length|]. rewrite rev_length.
  apply cutAll_length.
Qed.

Lemma cutAll_stuck fuel ps s :
  strings.cutAny ps s = None → strings.cutAll fuel ps s = s.
Proof. intros H. destruct fuel; cbn; [reflexivity|]. by rewrite H. Qed.

Lemma cutAny_head ps c s :
  unprintable_heads ps = true → in_range "!" "~" c = true →
  strings.cutAny ps (String c s) = None.
Proof.
  intros Hps Hc. induction ps as [|p ps IH]; [reflexivity|].
  cbn in Hps. apply andb_true_iff in Hps as [Hp Hps].
  destruct p as [|a p]; [discriminate|].
  cbn [strings.cutAny strings.cut].
  destruct (Ascii.eqb_spec a c) as [->|Hne].
  - rewrite Hc in Hp. discriminate.
  - by apply IH.
Qed.

(** A printable character other than the blank starts no encoding of a
    space and ends none. *)
Lemma printable_no_space c s :
  in_range "!" "~" c = true →
  strings.cutAny unicode.spaces (String c s) = None
  ∧ strings.cutAny (map String.rev unicode.spaces) (String c s) = None.
Proof.
  intros Hc. split; apply cutAny_head; try assumption; by vm_compute.
Qed.

Lemma TrimSpace_printable a mid b :
  in_range "!" "~" a = true → in_range "!" "~" b = true →
  strings.TrimSpace (String a (mid +:+ String b EmptyString))
  = String a (mid +:+ String b EmptyString).
Proof.
  intros Ha Hb.
  destruct (printable_no_space a (mid +:+ String b EmptyString) Ha) as [Hl _].
  destruct (printable_no_space b (String.rev_app mid (String a EmptyString)) Hb)
    as [_ Hr].
  unfold strings.TrimSpace, strings.trimLeftSpace.
  rewrite (cutAll_stuck _ _ _ Hl).
  unfold strings.trimRightSpace.
  assert (Hrev : String.rev (String a (mid +:+ String b EmptyString))
                 = String b (String.rev_app mid (String a EmptyString))).
  { unfold String.rev.
    change (String.rev_app (String a (mid +:+ String b EmptyString)) EmptyString)
      with (String.rev_app (mid +:+ String b EmptyString) (String a EmptyString)).
    apply rev_app_snoc. }
  rewrite Hrev, (cutAll_stuck _ _ _ Hr), <- Hrev. apply rev_rev.
Qed.

Lemma cutAny_blank s :
  strings.cutAny unicode.spaces (String " " s) = Some s.
Proof. by vm_compute. Qed.

Lemma trimLeftSpace_blank s : ∀ fuel,
  (String.length s ≤ fuel)%nat →
  all_in (Ascii.eqb " ") s = true →
  strings.cutAll fuel unicode.spaces s = EmptyString.
Proof.
  unfold all_in. induction s as [|c s IH]; intros fuel Hfuel Hall.
  - by destruct fuel.
  - cbn [forallb String.list_ascii_of_string] in Hall.
    apply andb_true_iff in Hall as [Hc Hs].
    apply Ascii.eqb_eq in Hc. subst c.
    destruct fuel as [|fuel]; [cbn in Hfuel; lia|].
    cbn [String.length] in Hfuel.
    cbn [strings.cutAll]. rewrite cutAny_blank.
    apply IH; [lia|assumption].
Qed.

(** X21.  [ValidateName] rejects every name of fewer than two bytes and
    every name made of blanks only.  A name that starts and ends with a
    printable character other than the blank is accepted exactly when it
    has at most 100 bytes: a name of exactly 100 bytes is accepted. *)
Theorem ValidateName_accepts (name : string) :
  ((String.length name < 2)%nat → validator.ValidateName name ≠ None)
  ∧ (all_in (Ascii.eqb " ") name = true → validator.ValidateName name ≠ None)
  ∧ (∀ a mid b,
       name = String a (mid +:+ String b EmptyString) →
       in_range "!" "~" a = true → in_range "!" "~" b = true →
       (validator.ValidateName name = None ↔ (String.length name ≤ 100)%nat)).
Proof.
  unfold validator.ValidateName. split; [|split].
  - intros Hlen. pose proof (TrimSpace_length name).
    destruct (String.eqb name EmptyString); [discriminate|].
    destruct (Nat.ltb_spec (String.length (strings.TrimSpace name)) 2);
      [discriminate|lia].
  - intros Hall.
    destruct (String.eqb name EmptyString); [discriminate|].
    unfold strings.TrimSpace, strings.trimLeftSpace.
    rewrite trimLeftSpace_blank by (lia || assumption). discriminate.
  - intros a mid b -> Ha Hb.
    rewrite (TrimSpace_printable _ _ _ Ha Hb).
    cbn [String.eqb String.length].
    assert (Hmid : (String.length (String a (mid +:+ String b EmptyString))
                    = S (String.length (mid +:+ String b EmptyString)))%nat)
      by reflexivity.
    assert (Hsnoc : (1 ≤ String.length (mid +:+ String b EmptyString))%nat).
    { clear. induction mid as [|c mid IH].
      - rewrite append_nil_l. cbn. lia.
      - rewrite append_String. cbn. lia. }
    destruct (Nat.ltb_spec (S (String.length (mid +:+ String b EmptyString))) 2);
      [lia|].
    destruct (Nat.ltb_spec 100 (S (String.length (mid +:+ String b EmptyString))));
      split; try done; lia.
Qed.

(** ** Generated passwords *)

Lemma string_of_list_length l :
  String.length (String.string_of_list_ascii l) = length l.
Proof. induction l as [|c l IH]; cbn; [reflexivity|]. by rewrite IH. Qed.

Lemma string_of_list_get l : ∀ i,
  String.get i (String.string_of_list_ascii l) = nth_error l i.
Proof.
  induction l as [|c l IH]; intros [|i]; cbn; try reflexivity. apply IH.
Qed.

Lemma string_of_list_prefix l l' :
  String.prefix (String.string_of_list_ascii l)
                (String.string_of_list_ascii (l ++ l')) = true.
Proof.
  induction l as [|c l IH]; cbn.
  - by destruct (String.string_of_list_ascii l').
  - destruct (ascii_dec c c); [exact IH|done].
Qed.

Lemma GenerateRandomPassword_eq length :
  8 ≤ length →
  crypto.GenerateRandomPassword length
  = Ok (String.string_of_list_ascii (generated (Z.to_nat length))).
Proof.
  intros H. unfold crypto.GenerateRandomPassword.
  destruct (Z.ltb_spec length 8); [lia|reflexivity].
Qed.

Lemma generated_app n m : generated (n + m) = generated n ++ map (λ i, crypto.at_index crypto.charset (i mod String.length crypto.charset)) (seq n m).
Proof. unfold generated. by rewrite seq_app, map_app. Qed.

Lemma some_in_generated class n :
  some_in class (String.string_of_list_ascii (generated n)) = true
  ↔ ∃ i, (i < n)%nat
         ∧ class (crypto.at_index crypto.charset
                    (i mod String.length crypto.charset)) = true.
Proof.
  unfold some_in. rewrite String.list_ascii_of_string_of_list_ascii.
  unfold generated. rewrite existsb_exists. split.
  - intros (c & Hin & Hc). apply in_map_iff in Hin as (i & <- & Hi).
    apply in_seq in Hi. exists i. split; [lia|assumption].
  - intros (i & Hi & Hc). eexists. split; [|exact Hc].
    apply in_map_iff. exists i. split; [reflexivity|]. apply in_seq. lia.
Qed.

(** The first 52 characters of the alphabet are letters. *)
Lemma charset_letters i :
  (i < 52)%nat →
  validator.digit (crypto.at_index crypto.charset
                     (i mod String.length crypto.charset)) = false.
Proof.
  intros Hi.
  assert (H : forallb (λ i, negb (validator.digit
                 (crypto.at_index crypto.charset
                    (i mod String.length crypto.charset)))) (seq 0 52) = true)
    by (by vm_compute).
  rewrite forallb_forall in H. specialize (H i).
  apply negb_true_iff, H, in_seq. lia.
Qed.

(** X17.  [GenerateRandomPassword] fails exactly for a length below
    eight.  Otherwise it returns the password of that many bytes whose
    byte at [i] is the character at [i mod 70] of the alphabet: the result
    is fixed by the length, passes [ValidatePasswordStrength], and starts
    every longer result. *)
Theorem GenerateRandomPassword_fixed (length : Z) :
  (length < 8 →
     crypto.GenerateRandomPassword length
     = Err (errors.New "password length must be at least 8 characters"))
  ∧ (8 ≤ length →
     ∃ password,
       crypto.GenerateRandomPassword length = Ok password
       ∧ Z.of_nat (String.length password) = length
       ∧ (∀ i, (i < Z.to_nat length)%nat →
               String.get i password
               = Some (crypto.at_index crypto.charset (i mod 70)))
       ∧ crypto.ValidatePasswordStrength password = None
       ∧ (∀ length' password',
            length ≤ length' →
            crypto.GenerateRandomPassword length' = Ok password' →
            String.prefix password password' = true)).
Proof.
  split.
  - intros H. unfold crypto.GenerateRandomPassword.
    destruct (Z.ltb_spec length 8); [reflexivity|lia].
  - intros H. eexists. split; [by apply GenerateRandomPassword_eq|].
    assert (Hlen : String.length
              (String.string_of_list_ascii (generated (Z.to_nat length)))
            = Z.to_nat length).
    { rewrite string_of_list_length. unfold generated.
      by rewrite length_map, length_seq. }
    split; [rewrite Hlen; lia|].
    split.
    { intros i Hi. rewrite string_of_list_get. unfold generated.
      rewrite nth_error_map, nth_error_seq.
      destruct (Nat.ltb_spec i (Z.to_nat length)); [reflexivity|lia]. }
    split.
    { unfold crypto.ValidatePasswordStrength. rewrite Hlen.
      destruct (Nat.ltb_spec (Z.to_nat length) 8); [lia|reflexivity]. }
    intros length' password' Hle Hg.
    rewrite GenerateRandomPassword_eq in Hg by lia. injection Hg as <-.
    replace (Z.to_nat length')
      with (Z.to_nat length + (Z.to_nat length' - Z.to_nat length))%nat by lia.
    rewrite generated_app. apply string_of_list_prefix.
Qed.

(** X18.  The registration validator accepts a generated password
    exactly when it has at least 53 bytes: the alphabet starts with the 52
    letters, so that a shorter password has no digit. *)
Theorem GenerateRandomPassword_registration (length : Z) (password : string) :
  crypto.GenerateRandomPassword length = Ok password →
  (validator.ValidatePassword password = None ↔ 53 ≤ length).
Proof.
  intros Hg.
  assert (Hlen : 8 ≤ length).
  { revert Hg. unfold crypto.GenerateRandomPassword.
    destruct (Z.ltb_spec length 8); [discriminate|lia]. }
  rewrite GenerateRandomPassword_eq in Hg by assumption. injection Hg as <-.
  rewrite ValidatePassword_None, string_of_list_length.
  unfold generated at 1. rewrite length_map, length_seq.
  rewrite !some_in_generated. split.
  - intros (_ & _ & _ & i & Hi & Hd).
    destruct (Nat.lt_ge_cases i 52) as [Hlt|Hge]; [|lia].
    rewrite charset_letters in Hd by assumption. discriminate.
  - intros H53. split; [lia|].
    split; [exists 26%nat; split; [lia|by vm_compute]|].
    split; [exists 0%nat; split; [lia|by vm_compute]|].
    exists 52%nat. split; [lia|by vm_compute].
Qed.

Lemma GenerateRandomPassword_fixed_witness :
  crypto.GenerateRandomPassword 10 = Ok "abcdefghij"
  ∧ String.prefix "abcdefghij" "abcdefghijkl" = true.
Proof.
  destruct (GenerateRandomPassword_fixed 10) as [_ H].
  destruct H as (password & Hg & _ & _ & _ & Hp); [lia|].
  assert (E : crypto.GenerateRandomPassword 10 = Ok "abcdefghij")
    by reflexivity.
  split; [exact E|].
  rewrite E in Hg. injection Hg as <-.
  apply (Hp 12); [lia|reflexivity].
Defined.

Lemma GenerateRandomPassword_registration_witness :
  validator.ValidatePassword "abcdefghij" ≠ None.
Proof.
  intros H.
  apply (GenerateRandomPassword_registration 10 "abcdefghij" eq_refl) in H.
  lia.
Defined.

(* ================================================================== *)
(** * Properties of the configuration *)

(** ** Decimal numerals *)

Lemma byte_digit c :
  in_range "0" "9" c = true →
  0 ≤ strconv.byte c - strconv.byte "0" ≤ 9
  ∧ (strconv.byte c - strconv.byte "0") mod 256
    = strconv.byte c - strconv.byte "0".
Proof.
  unfold in_range, strconv.byte.
  intros [H1%N.leb_le H2%N.leb_le]%andb_true_iff.
  change (N_of_ascii "0") with 48%N in *. change (N_of_ascii "9") with 57%N in *.
  change (Z.of_N 48) with 48. split; [lia|]. apply Z.mod_small. lia.
Qed.

Lemma byte_no_digit c :
  in_range "0" "9" c = false →
  9 < (strconv.byte c - strconv.byte "0") mod 256.
Proof.
  unfold in_range, strconv.byte. intros H.
  pose proof (N_ascii_bounded c) as Hb.
  change (N_of_ascii "0") with 48%N in *. change (N_of_ascii "9") with 57%N in *.
  change (Z.of_N 48) with 48.
  apply andb_false_iff in H as [H%N.leb_gt | H%N.leb_gt].
  - replace (Z.of_N (N_of_ascii c) - 48)
      with (Z.of_N (N_of_ascii c) + 208 + (-1) * 256) by lia.
    rewrite Z_mod_plus_full, Z.mod_small; lia.
  - rewrite Z.mod_small; lia.
Qed.

Lemma all_in_String class c s :
  all_in class (String c s) = class c && all_in class s.
Proof. reflexivity. Qed.

Lemma atoiLoop_value s : ∀ n,
  strconv.atoiLoop s n
  = if all_in (in_range "0" "9") s then Some (value s n) else None.
Proof.
  induction s as [|c s IH]; intros n; [reflexivity|].
  cbn [strconv.atoiLoop value]. rewrite all_in_String.
  destruct (in_range "0" "9" c) eqn:Hc; cbn [andb].
  - destruct (byte_digit c Hc) as [Hd Hm]. rewrite Hm.
    destruct (Z.ltb_spec 9 (strconv.byte c - strconv.byte "0")); [lia|].
    apply IH.
  - pose proof (byte_no_digit c Hc).
    by destruct (Z.ltb_spec 9 ((strconv.byte c - strconv.byte "0") mod 256));
      [|lia].
Qed.

(** The value of a text of digits, by its length. *)
Lemma value_bounds s : ∀ n,
  all_in (in_range "0" "9") s = true → 0 ≤ n →
  n * 10 ^ Z.of_nat (String.length s) ≤ value s n
  ∧ value s n < (n + 1) * 10 ^ Z.of_nat (String.length s).
Proof.
  induction s as [|c s IH]; intros n Hall Hn.
  - cbn. lia.
  - rewrite all_in_String in Hall. apply andb_true_iff in Hall as [Hc Hs].
    destruct (byte_digit c Hc) as [Hd _].
    cbn [value String.length]. rewrite Nat2Z.inj_succ, Z.pow_succ_r by lia.
    destruct (IH (n * 10 + (strconv.byte c - strconv.byte "0")) Hs) as [H1 H2];
      [lia|].
    assert (0 < 10 ^ Z.of_nat (String.length s)) by (apply Z.pow_pos_nonneg; lia).
    split; nia.
Qed.

Lemma value_ge s n :
  all_in (in_range "0" "9") s = true → 0 ≤ n → n ≤ value s n.
Proof.
  intros Hall Hn. destruct (value_bounds s n Hall Hn) as [H _].
  assert (1 ≤ 10 ^ Z.of_nat (String.length s))
    by (pose proof (Z.pow_pos_nonneg 10 (Z.of_nat (String.length s))); lia).
  nia.
Qed.

Lemma parseUintLoop_value s : ∀ n,
  0 ≤ n ≤ strconv.maxUint64 →
  (all_in (in_range "0" "9") s = true →
     strconv.parseUintLoop s n
     = if value s n <=? strconv.maxUint64 then strconv.Value (value s n)
       else strconv.Range)
  ∧ (all_in (in_range "0" "9") s = false →
     ∀ v, strconv.parseUintLoop s n ≠ strconv.Value v).
Proof.
  unfold strconv.maxUint64.
  change (2 ^ 64 - 1) with 18446744073709551615.
  induction s as [|c s IH]; intros n Hn.
  - split; [|discriminate]. intros _. cbn.
    by destruct (Z.leb_spec n 18446744073709551615); [|lia].
  - cbn [strconv.parseUintLoop value]. rewrite all_in_String.
    unfold strconv.maxUint64.
    change (2 ^ 64 - 1) with 18446744073709551615.
    change (2 ^ 64) with 18446744073709551616.
    change (18446744073709551615 / 10 + 1) with 1844674407370955162.
    destruct (in_range "0" "9" c) eqn:Hc; cbn [negb andb];
      [|split; [discriminate|intros _ v; discriminate]].
    destruct (byte_digit c Hc) as [Hd _].
    set (d := strconv.byte c - strconv.byte "0") in *.
    destruct (Z.leb_spec 1844674407370955162 n) as [Hcut|Hcut].
    + split; [|intros _ v; discriminate].
      intros Hs. pose proof (value_ge s (n * 10 + d) Hs).
      by destruct (Z.leb_spec (value s (n * 10 + d)) 18446744073709551615);
        [lia|].
    + destruct (Z_lt_le_dec (n * 10 + d) 18446744073709551616) as [Hfit|Hover].
      * rewrite (Z.mod_small (n * 10 + d)) by lia.
        destruct (Z.ltb_spec (n * 10 + d) (n * 10)); [lia|].
        destruct (Z.ltb_spec 18446744073709551615 (n * 10 + d)); [lia|].
        cbn [orb]. apply IH. lia.
      * replace ((n * 10 + d) mod 18446744073709551616)
          with (n * 10 + d - 18446744073709551616).
        2:{ replace (n * 10 + d)
              with (n * 10 + d - 18446744073709551616
                    + 1 * 18446744073709551616) at 2 by lia.
            rewrite Z_mod_plus_full, Z.mod_small; lia. }
        destruct (Z.ltb_spec (n * 10 + d - 18446744073709551616) (n * 10));
          [|lia].
        cbn [orb]. split; [|intros _ v; discriminate].
        intros Hs. pose proof (value_ge s (n * 10 + d) Hs).
        by destruct (Z.leb_spec (value s (n * 10 + d)) 18446744073709551615);
          [lia|].
Qed.

Lemma digits_iff s :
  digits s = true ↔ s ≠ EmptyString ∧ all_in (in_range "0" "9") s = true.
Proof.
  unfold digits. rewrite andb_true_iff, negb_true_iff, String.eqb_neq. tauto.
Qed.

Lemma ParseUint_value s v :
  strconv.ParseUint s = strconv.Value v
  ↔ digits s = true ∧ v = value s 0 ∧ v ≤ strconv.maxUint64.
Proof.
  unfold strconv.ParseUint. rewrite digits_iff.
  destruct (String.eqb_spec s EmptyString) as [->|Hne].
  - split; [discriminate|]. by intros [[? _] _].
  - destruct (parseUintLoop_value s 0) as [Hd Hn];
      [unfold strconv.maxUint64; lia|].
    destruct (all_in (in_range "0" "9") s) eqn:Hall.
    + rewrite Hd by reflexivity.
      destruct (Z.leb_spec (value s 0) strconv.maxUint64).
      * split; [intros [= <-]; by repeat split|]. by intros (_ & -> & _).
      * split; [discriminate|]. intros (_ & -> & ?). lia.
    + split; [intros H; by destruct (Hn eq_refl v)|]. by intros [[_ ?] _].
Qed.

Lemma ParseUint_digits_range s :
  digits s = true → strconv.maxUint64 < value s 0 →
  strconv.ParseUint s = strconv.Range.
Proof.
  intros [Hne Hall]%digits_iff Hv. unfold strconv.ParseUint.
  apply String.eqb_neq in Hne. rewrite Hne.
  destruct (parseUintLoop_value s 0) as [Hd _];
    [unfold strconv.maxUint64; lia|].
  rewrite Hd by assumption.
  by destruct (Z.leb_spec (value s 0) strconv.maxUint64); [lia|].
Qed.

Lemma ParseUint_not_digits s :
  digits s = false → ∀ v, strconv.ParseUint s ≠ strconv.Value v.
Proof.
  intros Hd v H. apply ParseUint_value in H as [H _]. congruence.
Qed.

Lemma cutSign_eq c d :
  strconv.cutSign (String c d)
  = if Ascii.eqb c "+" then (false, d)
    else if Ascii.eqb c "-" then (true, d)
    else (false, String c d).
Proof. destruct c as [[] [] [] [] [] [] [] []]; reflexivity. Qed.

(** What [ParseInt] and the fast path of [Atoi] make of a sign and the
    text after it. *)
Lemma unsigned_cases d :
  (digits d = true ∧ ∃ un, un = value d 0 ∧ 0 ≤ un
                           ∧ (un ≤ strconv.maxUint64 →
                              strconv.ParseUint d = strconv.Value un)
                           ∧ (strconv.maxUint64 < un →
                              strconv.ParseUint d = strconv.Range))
  ∨ (digits d = false ∧ ∀ v, strconv.ParseUint d ≠ strconv.Value v).
Proof.
  destruct (digits d) eqn:Hd.
  - left. split; [reflexivity|]. exists (value d 0). split; [reflexivity|].
    pose proof Hd as [_ Hall]%digits_iff.
    split; [by apply value_ge|]. split.
    + intros H. by apply ParseUint_value.
    + intros H. by apply ParseUint_digits_range.
  - right. split; [reflexivity|]. by apply ParseUint_not_digits.
Qed.

Lemma ParseInt_numeral s n :
  strconv.ParseInt s = (n, None)
  ↔ numeral s = Some n ∧ - 2 ^ 63 ≤ n < 2 ^ 63.
Proof.
  unfold strconv.ParseInt.
  destruct s as [|c d]; [cbn; split; [discriminate|by intros [? _]]|].
  change (String.eqb (String c d) EmptyString) with false. cbv iota.
  rewrite cutSign_eq. cbn [numeral].
  assert (Hgen : ∀ (neg : bool) (t : string),
            match strconv.ParseUint t with
            | strconv.Syntax => (0, Some strconv.ErrSyntax)
            | parsed =>
                let un := match parsed with
                          | strconv.Value n => n
                          | _ => strconv.maxUint64
                          end in
                let cutoff := 2 ^ 63 in
                if negb neg && (cutoff <=? un) then (cutoff - 1, Some strconv.ErrRange)
                else if neg && (cutoff <? un) then (- cutoff, Some strconv.ErrRange)
                else (if neg then - un else un, None)
            end = (n, None)
            ↔ (if digits t then Some (if neg then - value t 0 else value t 0)
               else None) = Some n
              ∧ - 2 ^ 63 ≤ n < 2 ^ 63).
  { intros neg t. unfold strconv.maxUint64.
    change (2 ^ 64 - 1) with 18446744073709551615.
    change (2 ^ 63) with 9223372036854775808.
    destruct (unsigned_cases t)
      as [(-> & un & Hun & Hpos & Hfit & Hover) | (-> & Hno)].
    - rewrite <- Hun. unfold strconv.maxUint64 in *.
      change (2 ^ 64 - 1) with 18446744073709551615 in *.
      destruct (Z_le_gt_dec un 18446744073709551615) as [Hle|Hgt].
      + rewrite (Hfit Hle). cbv zeta.
        destruct neg; cbn [negb andb];
          repeat match goal with
                 | |- context [?a <=? ?b] => destruct (Z.leb_spec a b)
                 | |- context [?a <? ?b] => destruct (Z.ltb_spec a b)
                 end;
          (split; [intros H'; inversion H'; subst; (split; [reflexivity|lia])
                  | intros [H' ?]; inversion H'; subst;
                    first [reflexivity | exfalso; lia]]).
      + rewrite (Hover ltac:(lia)). cbv zeta.
        destruct neg; cbn [negb andb];
          (split; [discriminate | intros [H' ?]; inversion H'; subst; lia]).
    - destruct (strconv.ParseUint t) as [v| |] eqn:Hp.
      + by destruct (Hno v).
      + split; [discriminate|by intros [? _]].
      + cbv zeta. destruct neg; cbn [negb andb];
          (split; [discriminate | by intros [? _]]). }
  destruct (Ascii.eqb c "+"); [apply (Hgen false d)|].
  destruct (Ascii.eqb c "-"); [|apply (Hgen false (String c d))].
  rewrite (Hgen true d).
  by destruct (digits d).
Qed.

Lemma value_short t :
  all_in (in_range "0" "9") t = true → (String.length t ≤ 18)%nat →
  0 ≤ value t 0 < 2 ^ 63.
Proof.
  intros Hall Hlen. destruct (value_bounds t 0 Hall) as [H1 H2]; [lia|].
  assert (10 ^ Z.of_nat (String.length t) ≤ 10 ^ 18)
    by (apply Z.pow_le_mono_r; lia).
  change (10 ^ 18) with 1000000000000000000 in *.
  change (2 ^ 63) with 9223372036854775808. lia.
Qed.

Lemma Atoi_numeral s n :
  strconv.Atoi s = (n, None)
  ↔ numeral s = Some n ∧ - 2 ^ 63 ≤ n < 2 ^ 63.
Proof.
  unfold strconv.Atoi. cbv zeta.
  destruct ((0 <? String.length s)%nat && (String.length s <? 19)%nat) eqn:Hfast.
  - apply andb_true_iff in Hfast as [H0%Nat.ltb_lt H19%Nat.ltb_lt].
    destruct s as [|c d]; [cbn in H0; lia|].
    cbn [String.length] in H19. rewrite cutSign_eq. cbn [numeral].
    assert (Hgen : ∀ (neg : bool) (t : string),
              (String.length t ≤ 18)%nat →
              (if (String.length t <? 1)%nat
               then (0, Some (strconv.syntaxError "Atoi" (String c d)))
               else match strconv.atoiLoop t 0 with
                    | None => (0, Some (strconv.syntaxError "Atoi" (String c d)))
                    | Some n0 => (if neg then - n0 else n0, None)
                    end) = (n, None)
              ↔ (if digits t then Some (if neg then - value t 0 else value t 0)
                 else None) = Some n
                ∧ - 2 ^ 63 ≤ n < 2 ^ 63).
    { intros neg t Hlen. rewrite atoiLoop_value. unfold digits.
      destruct t as [|c' t'].
      - cbn. split; [discriminate|by intros [? _]].
      - change (String.eqb (String c' t') EmptyString) with false.
        cbn [negb andb].
        change ((String.length (String c' t') <? 1)%nat) with false. cbv iota.
        destruct (all_in (in_range "0" "9") (String c' t')) eqn:Hall.
        + pose proof (value_short _ Hall Hlen).
          change (2 ^ 63) with 9223372036854775808 in *.
          split.
          { intros [= <-]. split; [reflexivity|].
            cbn [value] in *. destruct neg; lia. }
          by intros [[= <-] _].
        + split; [discriminate|by intros [? _]]. }
    destruct (Ascii.eqb c "+"); [apply (Hgen false d); lia|].
    destruct (Ascii.eqb c "-"); [|apply (Hgen false (String c d)); cbn; lia].
    rewrite (Hgen true d) by lia. by destruct (digits d).
  - rewrite <- ParseInt_numeral.
    destruct (strconv.ParseInt s) as [i64 [sentinel|]];
      split; (discriminate || by intros [= <-]).
Qed.

(** ** Loading the configuration *)

Section Config.
Context {quoter : strconv.Quoter}.

Lemma getEnv_value env key defaultValue value :
  env !! key = Some value → value ≠ EmptyString →
  config.getEnv env key defaultValue = value.
Proof.
  intros Hk Hne. unfold config.getEnv, os.Getenv. rewrite Hk. cbn.
  apply String.eqb_neq in Hne. by rewrite Hne.
Qed.

Lemma getEnv_default env key defaultValue :
  env !! key = None ∨ env !! key = Some EmptyString →
  config.getEnv env key defaultValue = defaultValue.
Proof.
  intros [Hk|Hk]; unfold config.getEnv, os.Getenv; by rewrite Hk.
Qed.

Lemma getEnv_required env key :
  config.getEnv env key EmptyString = os.Getenv env key.
Proof.
  unfold config.getEnv. by destruct (String.eqb_spec (os.Getenv env key) EmptyString).
Qed.

(** X14.  [Load] returns a configuration exactly when [DB_PORT], or
    [5432] in its place when the variable is unset or empty, is a
    decimal numeral with an optional sign in the range of [int], and
    [DB_PASSWORD] and [JWT_SECRET] are set and not empty.  The
    configuration then carries that number, whatever port it may be, the
    password and the secret; no configuration with an empty secret is
    returned. *)
Theorem Load_accepts (env : os.Environ) (cfg : config.Config) :
  config.Load env = Ok cfg
  ↔ ∃ port,
      numeral (config.getEnv env "DB_PORT" "5432") = Some port
      ∧ - 2 ^ 63 ≤ port < 2 ^ 63
      ∧ os.Getenv env "DB_PASSWORD" ≠ EmptyString
      ∧ os.Getenv env "JWT_SECRET" ≠ EmptyString
      ∧ cfg = {| config.Database :=
                   {| config.DatabaseConfig.Host :=
                        config.getEnv env "DB_HOST" "localhost";
                      config.DatabaseConfig.Port := port;
                      config.DatabaseConfig.User :=
                        config.getEnv env "DB_USER" "postgres";
                      config.DatabaseConfig.Password :=
                        os.Getenv env "DB_PASSWORD";
                      config.DatabaseConfig.DBName :=
                        config.getEnv env "DB_NAME" "auth_app" |};
                 config.Server :=
                   {| config.ServerConfig.Port :=
                        config.getEnv env "SERVER_PORT" "8080" |};
                 config.JWT :=
                   {| config.JWTConfig.Secret := os.Getenv env "JWT_SECRET" |} |}.
Proof.
  unfold config.Load.
  destruct (strconv.Atoi (config.getEnv env "DB_PORT" "5432"))
    as [dbPort [err|]] eqn:Ha.
  - split; [discriminate|]. intros (port & Hn & Hr & _).
    assert (strconv.Atoi (config.getEnv env "DB_PORT" "5432") = (port, None))
      by (by apply Atoi_numeral).
    congruence.
  - apply Atoi_numeral in Ha as [Hn Hr].
    unfold config.Validate.
    cbn [config.Database config.JWT config.DatabaseConfig.Password
         config.JWTConfig.Secret].
    rewrite !getEnv_required.
    destruct (String.eqb_spec (os.Getenv env "DB_PASSWORD") EmptyString)
      as [Hp|Hp].
    { split; [discriminate|]. by intros (port & _ & _ & ? & _). }
    destruct (String.eqb_spec (os.Getenv env "JWT_SECRET") EmptyString)
      as [Hs|Hs].
    { split; [discriminate|]. by intros (port & _ & _ & _ & ? & _). }
    split.
    + intros [= <-]. exists dbPort. split; [exact Hn|]. split; [exact Hr|].
      split; [exact Hp|]. split; [exact Hs|reflexivity].
    + intros (port & Hn' & _ & _ & _ & ->). rewrite Hn in Hn'.
      by injection Hn' as ->.
Qed.

Lemma Atoi_error s err :
  snd (strconv.Atoi s) = Some err →
  strconv.Func err = "Atoi" ∧ strconv.Num err = s.
Proof.
  unfold strconv.Atoi. cbv zeta. destruct (_ && _).
  - destruct (strconv.cutSign s) as [neg t].
    destruct (_ <? _)%nat; [by intros [= <-]|].
    destruct (strconv.atoiLoop t 0); [discriminate|by intros [= <-]].
  - destruct (strconv.ParseInt s) as [i64 [sentinel|]]; [|discriminate].
    by intros [= <-].
Qed.

(** X15.  The error [Load] returns names the first of its checks that
    fails.  A [DB_PORT] that is no numeral in the range of [int] is
    reported, with the text of the error of [Atoi] for that input,
    whatever the other variables are; then a missing or empty
    [DB_PASSWORD], whatever the secret is; then a missing or empty
    [JWT_SECRET]. *)
Theorem Load_rejects (env : os.Environ) :
  let port := config.getEnv env "DB_PORT" "5432" in
  ((∀ n, numeral port = Some n → ¬ (- 2 ^ 63 ≤ n < 2 ^ 63)) →
     ∃ err,
       strconv.Func err = "Atoi" ∧ strconv.Num err = port
       ∧ config.Load env
         = Err (errors.New ("invalid DB_PORT: " +:+ strconv.Error err)))
  ∧ (∀ n,
       numeral port = Some n → - 2 ^ 63 ≤ n < 2 ^ 63 →
       (os.Getenv env "DB_PASSWORD" = EmptyString →
          config.Load env
          = Err (errors.New
                   "configuration validation failed: DB_PASSWORD is required"))
       ∧ (os.Getenv env "DB_PASSWORD" ≠ EmptyString →
          os.Getenv env "JWT_SECRET" = EmptyString →
          config.Load env
          = Err (errors.New
                   "configuration validation failed: JWT_SECRET is required"))).
Proof.
  intros port. subst port. split.
  - intros Hn. unfold config.Load.
    destruct (strconv.Atoi (config.getEnv env "DB_PORT" "5432"))
      as [dbPort [err|]] eqn:Ha.
    + exists err.
      destruct (Atoi_error (config.getEnv env "DB_PORT" "5432") err)
        as [Hf Hnum]; [by rewrite Ha|by repeat split].
    + apply Atoi_numeral in Ha as [Ha Hr]. destruct (Hn _ Ha Hr).
  - intros n Hn Hr.
    assert (Ha : strconv.Atoi (config.getEnv env "DB_PORT" "5432") = (n, None))
      by (by apply Atoi_numeral).
    unfold config.Load. rewrite Ha. unfold config.Validate.
    cbn [config.Database config.JWT config.DatabaseConfig.Password
         config.JWTConfig.Secret].
    rewrite !getEnv_required. split.
    + intros ->. reflexivity.
    + intros Hp%String.eqb_neq ->. rewrite Hp. reflexivity.
Qed.

(** X16.  With [DB_PASSWORD] and [JWT_SECRET] set, and every other
    variable unset or set to the empty text, [Load] returns the
    defaults: an empty variable counts as an unset one. *)
Theorem Load_defaults (env : os.Environ) (password secret : string) :
  env !! "DB_PASSWORD" = Some password → password ≠ EmptyString →
  env !! "JWT_SECRET" = Some secret → secret ≠ EmptyString →
  (∀ key, key ∈ ["DB_PORT"; "DB_HOST"; "DB_USER"; "DB_NAME"; "SERVER_PORT"] →
          env !! key = None ∨ env !! key = Some EmptyString) →
  config.Load env
  = Ok {| config.Database :=
            {| config.DatabaseConfig.Host := "localhost";
               config.DatabaseConfig.Port := 5432;
               config.DatabaseConfig.User := "postgres";
               config.DatabaseConfig.Password := password;
               config.DatabaseConfig.DBName := "auth_app" |};
          config.Server := {| config.ServerConfig.Port := "8080" |};
          config.JWT := {| config.JWTConfig.Secret := secret |} |}.
Proof.
  intros Hp Hpne Hs Hsne Hrest. unfold config.Load.
  rewrite (getEnv_default env "DB_PORT"), (getEnv_default env "DB_HOST"),
          (getEnv_default env "DB_USER"), (getEnv_default env "DB_NAME"),
          (getEnv_default env "SERVER_PORT")
    by (apply Hrest; repeat constructor).
  rewrite (getEnv_value env "DB_PASSWORD" _ password),
          (getEnv_value env "JWT_SECRET" _ secret) by assumption.
  change (strconv.Atoi "5432") with (5432, @None strconv.NumError).
  cbv iota beta. unfold config.Validate.
  cbn [config.Database config.JWT config.DatabaseConfig.Password
       config.JWTConfig.Secret].
  apply String.eqb_neq in Hpne, Hsne. by rewrite Hpne, Hsne.
Qed.

End Config.

Lemma Load_defaults_witness :
  ∃ cfg,
    config.Load (H := sample.quoter) sample.environment = Ok cfg
    ∧ config.DatabaseConfig.Port (config.Database cfg) = 5432
    ∧ config.JWTConfig.Secret (config.JWT cfg) = "s3cret".
Proof.
  eexists. split.
  - apply (Load_defaults (quoter := sample.quoter) sample.environment
             "hunter2" "s3cret").
    + reflexivity.
    + discriminate.
    + reflexivity.
    + discriminate.
    + intros key Hkey. unfold sample.environment.
      repeat (apply elem_of_cons in Hkey as [->|Hkey]);
        [right; reflexivity | left; reflexivity.. | by apply elem_of_nil in Hkey].
  - split; reflexivity.
Defined.

(* ================================================================== *)
(** * Properties of the registration and of the admin route *)

(** ** Accepted addresses *)

(** A property of bytes that holds of the 256 of them. *)
Lemma all_bytes (P : ascii → bool) :
  forallb (λ n, P (ascii_of_nat n)) (seq 0 256) = true → ∀ c, P c = true.
Proof.
  intros H c. rewrite forallb_forall in H.
  rewrite <- (ascii_nat_embedding c). apply H, in_seq.
  pose proof (nat_ascii_bounded c). lia.
Qed.

Lemma class_printable c :
  validator.localClass c || validator.domainClass c || validator.letterClass c
  = true →
  in_range "!" "~" c = true.
Proof.
  intros H.
  pose proof (all_bytes
    (λ c, implb (validator.localClass c || validator.domainClass c
                 || validator.letterClass c) (in_range "!" "~" c))) as Hall.
  specialize (Hall ltac:(by vm_compute) c). cbv beta in Hall.
  rewrite H in Hall. exact Hall.
Qed.

Lemma all_in_append class s t :
  all_in class (s +:+ t) = all_in class s && all_in class t.
Proof.
  induction s as [|c s IH]; [by rewrite append_nil_l|].
  rewrite append_String, !all_in_String, IH. apply andb_assoc.
Qed.

Lemma all_in_mono (p q : ascii → bool) s :
  (∀ c, p c = true → q c = true) → all_in p s = true → all_in q s = true.
Proof.
  intros Hpq. induction s as [|c s IH]; [done|].
  rewrite !all_in_String. intros [Hc Hs]%andb_true_iff.
  by rewrite (Hpq c Hc), IH.
Qed.

Lemma all_in_last class s :
  s ≠ EmptyString → all_in class s = true →
  ∃ mid b, s = mid +:+ String b EmptyString ∧ class b = true.
Proof.
  induction s as [|c s IH]; [done|]. intros _.
  rewrite all_in_String. intros [Hc Hs]%andb_true_iff.
  destruct s as [|d s].
  - exists EmptyString, c. by rewrite append_nil_l.
  - destruct IH as (mid & b & -> & Hb); [done|assumption|].
    exists (String c mid), b. by rewrite append_String.
Qed.

Lemma all_in_no_blank s :
  all_in (in_range "!" "~") s = true → occurs " " s = false.
Proof.
  induction s as [|c s IH]; [done|].
  rewrite all_in_String. intros [Hc Hs]%andb_true_iff.
  cbn [occurs]. rewrite IH by assumption.
  destruct (Ascii.eqb_spec c " ") as [->|]; [discriminate Hc|reflexivity].
Qed.

(** X23.  An address [ValidateEmail] accepts has no blank and is left
    as it is by [strings.TrimSpace]: the trimming of the address on
    registration changes nothing. *)
Theorem accepted_email_trimmed (email : string) :
  validator.ValidateEmail email = None →
  strings.TrimSpace email = email ∧ occurs " " email = false.
Proof.
  intros Hv.
  assert (Hm : regexp.MatchString validator.emailRegex email = true).
  { revert Hv. unfold validator.ValidateEmail.
    destruct (String.eqb email EmptyString); [discriminate|].
    by destruct (regexp.MatchString validator.emailRegex email). }
  apply emailRegex_matches in Hm
    as (local & domain & tld & -> & Hl & Hlc & Hd & Hdc & Ht & Htc).
  assert (Hall : all_in (in_range "!" "~")
                   (local +:+ "@" +:+ domain +:+ "." +:+ tld) = true).
  { rewrite !all_in_append.
    rewrite (all_in_mono validator.localClass _ local),
            (all_in_mono validator.domainClass _ domain),
            (all_in_mono validator.letterClass _ tld); try assumption;
      try reflexivity;
      intros c Hc; apply class_printable; rewrite Hc;
      by rewrite ?orb_true_r. }
  split; [|by apply all_in_no_blank].
  destruct local as [|a local']; [done|].
  rewrite append_String in *. rewrite all_in_String in Hall.
  apply andb_true_iff in Hall as [Ha Hrest].
  destruct (all_in_last (in_range "!" "~")
              (local' +:+ "@" +:+ domain +:+ "." +:+ tld))
    as (mid & b & Hmid & Hb); [|assumption|].
  { intros [_ [[=] _]%append_eq_nil]%append_eq_nil. }
  rewrite Hmid. by apply TrimSpace_printable.
Qed.

Lemma accepted_email_trimmed_witness :
  strings.TrimSpace "alice@example.com" = "alice@example.com".
Proof.
  apply (accepted_email_trimmed "alice@example.com"). reflexivity.
Defined.

(** ** The admin route *)

Section AdminRoute.
Context {codec : jwt.Codec auth.Claims}.
Context {marshal_admin : json.Marshaler handlers.AdminData}.

(** X24.  The admin route, that is [GetAdminData] behind the guard for
    the role [admin].  A request is answered 401 by the guard, or it
    carries a token the service accepts.  Without the role [admin] among
    the token's roles the answer is 403 and the handler is not run, the
    database not read; with it the handler answers 405 to a method other
    than GET and otherwise writes the admin data with the address and the
    roles of the token.  Its answer [User context not found] is never
    given. *)
Theorem GetAdminData_guarded
    (h : handlers.AuthHandler) (a : handlers.AdminHandler)
    (w : http.ResponseWriter) (r : http.Request) (clk : Clock) :
  let route := handlers.RequireRole h "admin" (handlers.GetAdminData a) in
  (∃ msg clk',
     route w r clk = (http.Error w msg http.StatusUnauthorized, clk'))
  ∨ (∃ tok claims clk',
       BearerHeader (http.Get (http.header r) "Authorization") tok
       ∧ auth.ValidateToken (auth.jwtService (handlers.middleware h)) tok clk
         = (Ok claims, clk')
       ∧ ("admin" ∉ auth.Roles claims →
          route w r clk
          = (http.Error w "Insufficient permissions" http.StatusForbidden,
             clk'))
       ∧ ("admin" ∈ auth.Roles claims →
          route w r clk =
            (if negb (String.eqb (http.Method r) "GET")
             then http.Error w "Method not allowed"
                             http.StatusMethodNotAllowed
             else
               w ++ [http.SetHeader "Content-Type" "application/json";
                     http.Write
                       (json.Marshal
                          {| handlers.message := "This is admin-only content!";
                             handlers.user := auth.Email claims;
                             handlers.roles := auth.Roles claims;
                             handlers.admin_info :=
                               {| handlers.total_users :=
                                    handlers.getTotalUsers a;
                                  handlers.total_products :=
                                    handlers.getTotalProducts a;
                                  handlers.system_status := "operational" |} |}
                        +:+ http.newline)], clk'))).
Proof.
  intros route. subst route. unfold handlers.RequireRole.
  destruct (RequireAuth_cases (handlers.middleware h) w r clk)
    as [(msg & clk' & H) | (tok & claims & clk' & Hb & Hv & _)].
  - left. exists msg, clk'. unfold auth.RequireRole. apply H.
  - right. exists tok, claims, clk'. split; [assumption|]. split; [assumption|].
    rewrite (RequireRole_authenticated _ _ _ _ _ _ _ _ _ Hb Hv).
    split.
    + intros Hno. destruct (auth.hasRole (auth.Roles claims) "admin") eqn:E;
        [|reflexivity].
      apply hasRole_spec in E. contradiction.
    + intros Hyes. apply hasRole_spec in Hyes. rewrite Hyes.
      unfold handlers.GetAdminData.
      change (http.Method (identified r claims)) with (http.Method r).
      unfold http.MethodGet.
      destruct (negb (String.eqb (http.Method r) "GET")); [reflexivity|].
      destruct (identified_identity r claims) as (_ & -> & ->). cbn [negb].
      unfold mret, M_ret, json.Encode. by rewrite <- app_assoc.
Qed.

End AdminRoute.

Lemma GetAdminData_guarded_witness :
  status (run (@handlers.RequireRole wire.codec sample.handler "admin"
                 (@handlers.GetAdminData sample.marshal_admin
                    (handlers.NewAdminHandler sample.database)) []
                 (sample.request ["Bearer " +:+ sample.token_at 0]))
              (frozen (5 * time.Second)))
  = Some http.StatusForbidden.
Proof.
  destruct (GetAdminData_guarded (marshal_admin := sample.marshal_admin)
              sample.handler (handlers.NewAdminHandler sample.database) []
              (sample.request ["Bearer " +:+ sample.token_at 0])
              (frozen (5 * time.Second)))
    as [(msg & clk' & H) | (tok & claims & clk' & Hb & Hv & Hno & _)].
  - exfalso. unfold handlers.RequireRole in H.
    change (handlers.middleware sample.handler) with sample.guard in H.
    rewrite (RequireRole_authenticated sample.guard _ _ _ _ _ _ _ _
               (sample_bearer 0) (sample_validate 0 _ sample_window)) in H.
    discriminate H.
  - pose proof (BearerHeader_unique _ _ _ Hb (sample_bearer 0)) as ->.
    change (auth.jwtService (handlers.middleware sample.handler))
      with sample.service in Hv.
    rewrite (sample_validate 0 _ sample_window) in Hv. injection Hv as <- <-.
    unfold run. rewrite Hno; [reflexivity|].
    by intros [?|?%elem_of_nil]%elem_of_cons.
Defined.

Lemma GetProfile_guarded_witness :
  run (@handlers.RequireAuth wire.codec sample.handler
         (@handlers.GetProfile sample.marshal_user sample.handler) []
         (sample.request ["Bearer " +:+ sample.token_at 0]))
      (frozen (5 * time.Second))
  = [http.SetHeader "Content-Type" "application/json";
     http.Write ("{id:7,email:alice@example.com}" +:+ http.newline)].
Proof.
  destruct (GetProfile_guarded (marshal_user := sample.marshal_user)
              sample.handler []
              (sample.request ["Bearer " +:+ sample.token_at 0])
              (frozen (5 * time.Second)))
    as [(msg & clk' & H) | (tok & claims & clk' & Hb & Hv & H)].
  - exfalso. unfold handlers.RequireAuth in H.
    change (handlers.middleware sample.handler) with sample.guard in H.
    rewrite (RequireAuth_bearer sample.guard _ _ _ _ _ (sample_bearer 0)) in H.
    change (auth.jwtService sample.guard) with sample.service in H.
    rewrite (sample_validate 0 _ sample_window) in H.
    discriminate H.
  - pose proof (BearerHeader_unique _ _ _ Hb (sample_bearer 0)) as ->.
    change (auth.jwtService (handlers.middleware sample.handler))
      with sample.service in Hv.
    rewrite (sample_validate 0 _ sample_window) in Hv. injection Hv as <- <-.
    unfold run. rewrite H. reflexivity.
Defined.
